(** * copiar: the GitHub activity mirror, embedded in Rocq

    A shallow embedding of [copiar.py].  Calendar dates are Python
    [datetime.date] values, the contribution maps are dictionaries keyed
    by ISO day strings, and every call that leaves the process (an HTTP
    request, a git subprocess, the console) is an event appended to the
    trace of a [World], answered by an environment [Env]. *)

From Stdlib Require Import ZArith Lia Ascii.
From stdpp Require Import gmap strings list fin_maps sorting pretty.

Open Scope Z_scope.

(** ** Python's [datetime.date]

    A date is represented by its proleptic Gregorian ordinal
    ([date.toordinal()]): day 1 is 0001-01-01 and [date.max] is
    9999-12-31.  Comparison of dates is comparison of ordinals. *)

Module PyDate.

Abbreviation date := Z (only parsing).

Definition MINYEAR : Z := 1.
Definition MAXYEAR : Z := 9999.

Definition is_leap (year : Z) : bool :=
  (year mod 4 =? 0) && (negb (year mod 100 =? 0) || (year mod 400 =? 0)).

Definition days_before_year (year : Z) : Z :=
  let y := year - 1 in y * 365 + y / 4 - y / 100 + y / 400.

Definition DAYS_IN_MONTH : list Z :=
  [-1; 31; 28; 31; 30; 31; 30; 31; 31; 30; 31; 30; 31].

Definition DAYS_BEFORE_MONTH : list Z :=
  [-1; 0; 31; 59; 90; 120; 151; 181; 212; 243; 273; 304; 334].

Definition days_in_month (year month : Z) : Z :=
  if (month =? 2) && is_leap year then 29
  else nth (Z.to_nat month) DAYS_IN_MONTH 0.

Definition days_before_month (year month : Z) : Z :=
  nth (Z.to_nat month) DAYS_BEFORE_MONTH 0
  + (if (2 <? month) && is_leap year then 1 else 0).

Definition ymd2ord (year month day : Z) : Z :=
  days_before_year year + days_before_month year month + day.

Definition MAXORDINAL : Z := Eval vm_compute in ymd2ord 9999 12 31.

Definition DI400Y : Z := Eval vm_compute in days_before_year 401.
Definition DI100Y : Z := Eval vm_compute in days_before_year 101.
Definition DI4Y : Z := Eval vm_compute in days_before_year 5.

Definition ord2ymd (n0 : Z) : Z * Z * Z :=
  let n := n0 - 1 in
  let n400 := n / DI400Y in
  let n := n mod DI400Y in
  let year := n400 * 400 + 1 in
  let n100 := n / DI100Y in
  let n := n mod DI100Y in
  let n4 := n / DI4Y in
  let n := n mod DI4Y in
  let n1 := n / 365 in
  let n := n mod 365 in
  let year := year + n100 * 100 + n4 * 4 + n1 in
  if (n1 =? 4) || (n100 =? 4) then (year - 1, 12, 31)
  else
    let leapyear := (n1 =? 3) && (negb (n4 =? 24) || (n100 =? 3)) in
    let month := Z.shiftr (n + 50) 5 in
    let preceding :=
      nth (Z.to_nat month) DAYS_BEFORE_MONTH 0
      + (if (2 <? month) && leapyear then 1 else 0) in
    if n <? preceding then
      let month := month - 1 in
      let preceding :=
        preceding
        - (nth (Z.to_nat month) DAYS_IN_MONTH 0
           + (if (month =? 2) && leapyear then 1 else 0)) in
      (year, month, n - preceding + 1)
    else (year, month, n - preceding + 1).

(** [date(year, month, day)] for a valid triple. *)
Definition mk (year month day : Z) : date := ymd2ord year month day.

(** [date.__add__(timedelta(days=k))]: the sum of the ordinals, or
    [OverflowError] when it leaves [1, MAXORDINAL]. *)
Definition add_days (d : date) (k : Z) : option date :=
  let o := d + k in
  if (0 <? o) && (o <=? MAXORDINAL) then Some o else None.

Definition pad (width : nat) (z : Z) : string :=
  let s := pretty z in
  String.concat "" (replicate (width - String.length s)%nat "0") +:+ s.

(** [date.isoformat()], "%04d-%02d-%02d". *)
Definition isoformat (d : date) : string :=
  let '(y, m, dd) := ord2ymd d in
  pad 4 y +:+ "-" +:+ pad 2 m +:+ "-" +:+ pad 2 dd.

End PyDate.

Example ymd2ord_epoch : PyDate.ymd2ord 1970 1 1 = 719163.
Proof. reflexivity. Qed.

Example maxordinal_value : PyDate.MAXORDINAL = 3652059.
Proof. reflexivity. Qed.

Example isoformat_2023_12_31 :
  PyDate.isoformat (PyDate.mk 2023 12 31) = "2023-12-31"%string.
Proof. vm_compute. reflexivity. Qed.

Example isoformat_leap_day :
  PyDate.isoformat (PyDate.mk 2024 2 29) = "2024-02-29"%string.
Proof. vm_compute. reflexivity. Qed.

(** ** Python string helpers *)

Module PyStr.

(** A string holds the UTF-8 encoding of a Python [str]: one element per
    byte, a character outside ASCII as its two to four bytes. *)

(** [str.isspace] on the characters below 128. *)
Definition is_space (c : ascii) : bool :=
  let n := N_of_ascii c in
  ((9 <=? n) && (n <=? 13) || (28 <=? n) && (n <=? 32))%N.

(** The whitespace with a two-byte encoding: U+0085 (C2 85) and U+00A0
    (C2 A0). *)
Definition is_space2 (a b : ascii) : bool :=
  let a := N_of_ascii a in
  let b := N_of_ascii b in
  ((a =? 194) && ((b =? 133) || (b =? 160)))%N.

(** The whitespace with a three-byte encoding: U+1680 (E1 9A 80),
    U+2000 to U+200A (E2 80 80 to E2 80 8A), U+2028 and U+2029 (E2 80 A8,
    E2 80 A9), U+202F (E2 80 AF), U+205F (E2 81 9F) and U+3000
    (E3 80 80).  With [is_space] and [is_space2] these are the characters
    for which [str.isspace] holds. *)
Definition is_space3 (a b c : ascii) : bool :=
  let a := N_of_ascii a in
  let b := N_of_ascii b in
  let c := N_of_ascii c in
  ((a =? 225) && (b =? 154) && (c =? 128)
   || (a =? 226) && (b =? 128)
      && ((128 <=? c) && (c <=? 138) || (c =? 168) || (c =? 169)
          || (c =? 175))
   || (a =? 226) && (b =? 129) && (c =? 159)
   || (a =? 227) && (b =? 128) && (c =? 128))%N.

(** Drops whitespace from the front, one character at a time; [sp2] and
    [sp3] recognise the characters of two and three bytes. *)
Fixpoint strip_front (sp2 : ascii → ascii → bool)
    (sp3 : ascii → ascii → ascii → bool) (s : string) : string :=
  match s with
  | String a s1 =>
      if is_space a then strip_front sp2 sp3 s1
      else
        match s1 with
        | String b s2 =>
            if sp2 a b then strip_front sp2 sp3 s2
            else
              match s2 with
              | String c s3 =>
                  if sp3 a b c then strip_front sp2 sp3 s3 else s
              | EmptyString => s
              end
        | EmptyString => s
        end
  | EmptyString => EmptyString
  end.

Definition lstrip (s : string) : string := strip_front is_space2 is_space3 s.

(** From the back the bytes of a character come in reverse order. *)
Definition rstrip (s : string) : string :=
  String.rev (strip_front (λ b a, is_space2 a b) (λ c b a, is_space3 a b c)
                          (String.rev s)).

(** [str.strip()] *)
Definition strip (s : string) : string := rstrip (lstrip s).

Definition lower_char (c : ascii) : ascii :=
  let n := N_of_ascii c in
  if ((65 <=? n) && (n <=? 90))%N then ascii_of_N (n + 32) else c.

(** [str.lower()] on the ASCII letters; other bytes are kept.  Its one
    use compares the result with "y" and "yes", and no character outside
    ASCII has a lower case made of the letters y, e and s. *)
Fixpoint lower (s : string) : string :=
  match s with
  | String c s' => String (lower_char c) (lower s')
  | EmptyString => EmptyString
  end.

(** Truthiness of a string: non-empty. *)
Definition truthy (s : string) : bool :=
  match s with EmptyString => false | _ => true end.

Definition str_le (a b : string) : Prop := String.leb a b = true.

Global Instance str_le_dec : RelDecision str_le.
Proof. intros a b. unfold str_le. apply _. Defined.

(** [sorted(xs)] on strings: ascending by code point. *)
Definition sorted (xs : list string) : list string := merge_sort str_le xs.

End PyStr.

Example strip_example :
  PyStr.strip (" Yes" +:+ String "010"%char "") = "Yes"%string.
Proof. reflexivity. Qed.

Example lower_example : PyStr.lower "Yes" = "yes"%string.
Proof. reflexivity. Qed.

(** A no-break space (U+00A0) in front and an ideographic space (U+3000)
    behind are stripped like any other whitespace. *)
Example strip_unicode_example :
  PyStr.strip (String "194" (String "160" "y")
               +:+ String "227" (String "128" (String "128" "")))
  = "y"%string.
Proof. vm_compute. reflexivity. Qed.

(** Bytes that only look like the tail of a whitespace character stay. *)
Example strip_keeps_other_bytes :
  PyStr.strip (String "195" (String "160" "")) = String "195" (String "160" "").
Proof. vm_compute. reflexivity. Qed.

Example sorted_example :
  PyStr.sorted ["2024-01-02"; "2023-12-31"; "2024-01-01"]%string
  = ["2023-12-31"; "2024-01-01"; "2024-01-02"]%string.
Proof. vm_compute. reflexivity. Qed.

(** ** The git object model

    A commit carries an author date and a committer date.  Git stores
    each as an instant plus the UTC offset it was written with; here the
    same information is kept as the civil time in that offset, which is
    what [--date=format:] prints. *)

Record git_date := GitDate {
  gd_year : Z; gd_month : Z; gd_day : Z;
  gd_hour : Z; gd_minute : Z; gd_second : Z;
  gd_tz : Z (* minutes east of UTC *)
}.

Record commit := Commit {
  author_date : git_date;
  committer_date : git_date;
  message : string
}.

(** A working copy: the checked-out branch and its history, newest
    commit first (the order of [git log]). *)
Record repo := Repo {
  branch : string;
  history : list commit
}.

Definition digit (c : ascii) : option Z :=
  let n := Z.of_N (N_of_ascii c) in
  if (48 <=? n) && (n <=? 57) then Some (n - 48) else None.

Definition number (cs : list ascii) : option Z :=
  foldl (λ acc c, a ← acc; d ← digit c; Some (a * 10 + d)) (Some 0) cs.

Definition valid_ymd (year month day : Z) : bool :=
  (1970 <=? year) && (year <=? 2099) && (1 <=? month) && (month <=? 12)
  && (1 <=? day) && (day <=? PyDate.days_in_month year month).

(** Git's reading of a strict ISO 8601 timestamp
    [YYYY-MM-DDTHH:MM:SS+hh:mm], the form the emitter writes into
    [GIT_AUTHOR_DATE] and [GIT_COMMITTER_DATE].  Git represents the years
    1970 to 2099; anything else is an invalid date. *)
Definition parse_date (s : string) : option git_date :=
  match String.list_ascii_of_string s with
  | [y1; y2; y3; y4; c1; m1; m2; c2; d1; d2; t;
     h1; h2; c3; n1; n2; c4; s1; s2; sg; z1; z2; c5; z3; z4] =>
    if bool_decide ([c1; c2; t; c3; c4; c5]
                    = ["-"; "-"; "T"; ":"; ":"; ":"]%char) then
      year ← number [y1; y2; y3; y4];
      month ← number [m1; m2];
      day ← number [d1; d2];
      hour ← number [h1; h2];
      minute ← number [n1; n2];
      second ← number [s1; s2];
      zh ← number [z1; z2];
      zm ← number [z3; z4];
      sign ← (if Ascii.eqb sg "+" then Some 1
              else if Ascii.eqb sg "-" then Some (-1) else None);
      if valid_ymd year month day && (hour <=? 23) && (minute <=? 59)
         && (second <=? 60) && (zm <=? 59)
      then Some (GitDate year month day hour minute second
                         (sign * (zh * 60 + zm)))
      else None
    else None
  | _ => None
  end.

(** [--date=format:%Y-%m-%d]: the calendar day of a date, in the offset
    recorded with it. *)
Definition show_date_ymd (g : git_date) : string :=
  PyDate.pad 4 (gd_year g) +:+ "-" +:+ PyDate.pad 2 (gd_month g)
  +:+ "-" +:+ PyDate.pad 2 (gd_day g).

(** The date placeholder of a [git log --format=] string. *)
Inductive LogDate :=
| AuthorDate      (* %ad *)
| CommitterDate.  (* %cd *)

Definition log_date (f : LogDate) (c : commit) : git_date :=
  match f with
  | AuthorDate => author_date c
  | CommitterDate => committer_date c
  end.

(** The git command lines the program runs. *)
Inductive GitCmd :=
| GitConfig (key value : string)   (* config <key> <value> *)
| GitRevParseVerifyHead            (* rev-parse --verify HEAD *)
| GitLog (field : LogDate)         (* log --format=<field> --date=format:%Y-%m-%d *)
| GitCommitAllowEmpty (msg author committer : string)
    (* commit --allow-empty -m <msg>, under GIT_AUTHOR_DATE=<author>
       and GIT_COMMITTER_DATE=<committer> *)
| GitAbbrevRefHead                 (* rev-parse --abbrev-ref HEAD *)
| GitPush (remote br : string)     (* push <remote> <br> *)
| GitIsInsideWorkTree              (* rev-parse --is-inside-work-tree *)
| GitPullRebase (remote : string)  (* pull --rebase <remote> *)
| GitClone (url dir : string)      (* clone <url> <dir> *)
| GitInit (br : string)            (* init -b <br> *)
| GitRemoteAdd (name url : string). (* remote add <name> <url> *)

Example parse_date_noon :
  parse_date "2024-01-01T12:00:00+00:00" = Some (GitDate 2024 1 1 12 0 0 0).
Proof. vm_compute. reflexivity. Qed.

Example parse_date_rejects : parse_date "2024-02-30T12:00:00+00:00" = None.
Proof. vm_compute. reflexivity. Qed.

Example show_date_ymd_example :
  show_date_ymd (GitDate 2024 1 1 12 0 0 0) = "2024-01-01"%string.
Proof. vm_compute. reflexivity. Qed.

(** ** The outside world *)

(** What [requests.get]/[requests.post] gives back: a response with its
    status code and decoded body, or a raised [RequestException]
    (timeout, connection failure). *)
Inductive HttpResult (A : Type) :=
| Responded (status_code : Z) (body : A)
| Failed.
Arguments Responded {A} status_code body.
Arguments Failed {A}.

(** A GraphQL reply: whether it has an ["errors"] member, and the
    ["user"] member of its ["data"]. *)
Record GqlBody (A : Type) := { gql_errors : bool; gql_user : option A }.
Arguments gql_errors {A} _.
Arguments gql_user {A} _.

(** The members of the repository metadata the program reads.  [None]
    is a missing member; for [default_branch] and [pushed_at] it is also a
    null one (the size the service sends is always a number). *)
Record RepoInfo := {
  ri_size : option Z;
  ri_default_branch : option string;
  ri_pushed_at : option string
}.

#[warnings="-register-all"]
Inductive Json :=
| JNull
| JBool (b : bool)
| JNum (n : Z)
| JStr (s : string)
| JList (xs : list Json)
| JDict (kvs : list (string * Json)).

Inductive InputResult :=
| Line (s : string)
| EndOfFile
| Interrupt.

(** The contribution calendar of a reply: weeks of (day, count). *)
Abbreviation Calendar := (list (list (string * Z))) (only parsing).

Record Env := {
  graphql_created_at : string → HttpResult (GqlBody string);
  graphql_calendar : string → Z → Z → HttpResult (GqlBody Calendar);
  rest_get_repo : string → string → HttpResult RepoInfo;
  rest_create_repo : string → HttpResult unit;
  rest_list_commits : string → string → HttpResult Json;
  mkdtemp_path : string;
  clone_result : string → option repo;
  pull_result : repo → option repo;
  push_ok : repo → bool;
  stdin_answer : InputResult
}.

Inductive Event :=
| HttpGraphqlCreatedAt (login : string)
| HttpGraphqlCalendar (login : string) (from to : Z)
    (* from <from>T00:00:00Z to <to>T23:59:59Z *)
| HttpGetRepo (owner name : string)
| HttpCreateRepo (name : string)
| HttpListCommits (owner name : string)
| Mkdir (path : string)
| Mkdtemp (path : string)
| Rmtree (path : string)
| Subprocess (cwd : option string) (cmd : GitCmd)
| Stdout (text : string)
| Stderr (text : string)
| Stdin (prompt : string).

Record World := {
  repos : gmap string repo;  (* the git work trees on disk, by path *)
  trace : list Event
}.

Inductive Exn :=
| OverflowError
| ValueError
| HTTPError (status : Z)
| RequestException
| CalledProcessError
| KeyboardInterrupt
| FuelExhausted. (* the bound of a modelled [while] loop; never reached *)

Inductive Outcome (A : Type) :=
| Return (a : A)
| SysExit (code : Z)
| Raise (e : Exn).
Arguments Return {A} a.
Arguments SysExit {A} code.
Arguments Raise {A} e.

Definition Run (A : Type) : Type := World → Outcome A * World.

Definition ret {A} (a : A) : Run A := λ w, (Return a, w).

Definition bind {A B} (m : Run A) (k : A → Run B) : Run B := λ w,
  match m w with
  | (Return a, w') => k a w'
  | (SysExit c, w') => (SysExit c, w')
  | (Raise e, w') => (Raise e, w')
  end.

Declare Scope run_scope.
Delimit Scope run_scope with run.
Bind Scope run_scope with Run.

Notation "'let*' x ':=' m 'in' k" := (bind m (λ x, k))
  (at level 10, x pattern, m at level 100, k at level 200) : run_scope.
Notation "m '>>' k" := (bind m (λ _, k))
  (at level 90, right associativity) : run_scope.

Open Scope run_scope.

Definition emit (e : Event) : Run unit := λ w,
  (Return tt, {| repos := repos w; trace := trace w ++ [e] |}).

Definition sys_exit {A} (code : Z) : Run A := λ w, (SysExit code, w).
Definition raise {A} (e : Exn) : Run A := λ w, (Raise e, w).

Definition print (text : string) : Run unit := emit (Stdout text).
Definition eprint (text : string) : Run unit := emit (Stderr text).

(** [for x in xs: body(x)] *)
Fixpoint for_each {A} (xs : list A) (body : A → Run unit) : Run unit :=
  match xs with
  | [] => ret tt
  | x :: xs' => body x >> for_each xs' body
  end.

(** [try: body finally: cleanup] *)
Definition try_finally {A} (body : Run A) (cleanup : Run unit) : Run A := λ w,
  match body w with
  | (r, w') =>
    match cleanup w' with
    | (Return _, w'') => (r, w'')
    | (SysExit c, w'') => (SysExit c, w'')
    | (Raise e, w'') => (Raise e, w'')
    end
  end.

(** [try: body except KeyboardInterrupt: handler] *)
Definition except_KeyboardInterrupt {A} (body : Run A) (handler : Run A)
  : Run A := λ w,
  match body w with
  | (Raise KeyboardInterrupt, w') => handler w'
  | rw => rw
  end.

(** [a or b], evaluating [b] only when [a] is false. *)
Definition por (a : bool) (b : Run bool) : Run bool :=
  if a then ret true else b.

(** [Response.raise_for_status()] *)
Definition raise_for_status (status : Z) : Run unit :=
  if (400 <=? status) && (status <? 600) then raise (HTTPError status)
  else ret tt.

(** [date + timedelta(days=k)] *)
Definition date_add (d : Z) (k : Z) : Run Z :=
  match PyDate.add_days d k with
  | Some d' => ret d'
  | None => raise OverflowError
  end.

(** ** What a git command does

    [git_exec env cmd cwd rs] is the effect of running [cmd] in directory
    [cwd] on the work trees [rs]: [None] for a non-zero return code,
    otherwise the lines of standard output and the work trees after. *)

Definition git_exec (env : Env) (cmd : GitCmd) (cwd : option string)
    (rs : gmap string repo) : option (list string * gmap string repo) :=
  let here := dir ← cwd; r ← rs !! dir; Some (dir, r) in
  match cmd with
  | GitClone url dir =>
      r ← clone_result env url; Some ([], <[dir := r]> rs)
  | GitInit br =>
      dir ← cwd;
      match rs !! dir with
      | Some _ => Some ([], rs)
      | None => Some ([], <[dir := Repo br []]> rs)
      end
  | _ =>
    '(dir, r) ← here;
    match cmd with
    | GitConfig _ _ | GitRemoteAdd _ _ => Some ([], rs)
    | GitIsInsideWorkTree => Some (["true"%string], rs)
    | GitRevParseVerifyHead =>
        match history r with
        | [] => None
        | _ :: _ => Some ([], rs)
        end
    | GitLog field =>
        match history r with
        | [] => None
        | _ :: _ =>
            Some ((λ c, show_date_ymd (log_date field c)) <$> history r, rs)
        end
    | GitCommitAllowEmpty msg author committer =>
        a ← parse_date author;
        c ← parse_date committer;
        Some ([], <[dir := Repo (branch r) (Commit a c msg :: history r)]> rs)
    | GitAbbrevRefHead =>
        match history r with
        | [] => None
        | _ :: _ => Some ([branch r], rs)
        end
    | GitPush _ _ => if push_ok env r then Some ([], rs) else None
    | GitPullRebase _ =>
        r' ← pull_result env r; Some ([], <[dir := r']> rs)
    | _ => None
    end
  end.

Abbreviation ContributionMap := (gmap string Z) (only parsing).

Record Config := {
  personal_token : string;
  work_username : string;
  personal_username : string;
  target_repo : string;
  start_date : Z;
  end_date : Z;
  local_dir : option string;
  dry_run : bool;
  yes : bool;
  keep_repo : bool;
  backfill : bool
}.

(** [date.fromisoformat] on a ten-character [YYYY-MM-DD] string. *)
Definition fromisoformat (s : string) : option Z :=
  match String.list_ascii_of_string s with
  | [y1; y2; y3; y4; c1; m1; m2; c2; d1; d2] =>
    if bool_decide ([c1; c2] = ["-"; "-"]%char) then
      year ← number [y1; y2; y3; y4];
      month ← number [m1; m2];
      day ← number [d1; d2];
      if (PyDate.MINYEAR <=? year) && (1 <=? month) && (month <=? 12)
         && (1 <=? day) && (day <=? PyDate.days_in_month year month)
      then Some (PyDate.ymd2ord year month day)
      else None
    else None
  | _ => None
  end.

Example fromisoformat_example :
  fromisoformat "2023-01-01" = Some (PyDate.mk 2023 1 1).
Proof. vm_compute. reflexivity. Qed.

Section Copiar.

Context (env : Env).

(** *** Git helpers *)

(** [subprocess.run(["git", ...], cwd=cwd, check=False)]: the standard
    output when the return code is zero. *)
Definition subprocess_run (cmd : GitCmd) (cwd : option string)
  : Run (option (list string)) := λ w,
  let w1 := {| repos := repos w; trace := trace w ++ [Subprocess cwd cmd] |} in
  match git_exec env cmd cwd (repos w1) with
  | Some (out, rs) => (Return (Some out), {| repos := rs; trace := trace w1 |})
  | None => (Return None, w1)
  end.

Definition run_git (cmd : GitCmd) (cwd : string) : Run (list string) :=
  let* result := subprocess_run cmd (Some cwd) in
  match result with
  | Some out => ret out
  | None => eprint "git failed" >> sys_exit 1
  end.

Definition configure_git (repo_dir : string) : Run unit :=
  run_git (GitConfig "user.name" "copiar") repo_dir >>
  run_git (GitConfig "user.email" "copiar@users.noreply.github.com") repo_dir >>
  ret tt.

(** The counting loop of [load_existing_commits]. *)
Definition tally (lines : list string) : ContributionMap :=
  foldl (λ counts line,
           let day := PyStr.strip line in
           if PyStr.truthy day
           then <[day := default 0 (counts !! day) + 1]> counts
           else counts)
        ∅ lines.

Definition load_existing_commits (repo_dir : string) : Run ContributionMap :=
  let* result := subprocess_run GitRevParseVerifyHead (Some repo_dir) in
  match result with
  | None => ret ∅
  | Some _ =>
      let* output := run_git (GitLog AuthorDate) repo_dir in
      ret (tally output)
  end.

Definition commit_message (day : string) (i count : Z) : string :=
  "mirror: " +:+ day +:+ " (" +:+ pretty (i + 1) +:+ "/" +:+ pretty count
  +:+ ")".

Definition create_commits_for_day (repo_dir day : string) (count : Z)
  : Run unit :=
  let timestamp := day +:+ "T12:00:00+00:00" in
  for_each (seqZ 0 count) (λ i,
    run_git (GitCommitAllowEmpty (commit_message day i count)
                                 timestamp timestamp) repo_dir >>
    ret tt).

Definition newline : string := String "010"%char "".

Definition push_to_remote (repo_dir : string) : Run unit :=
  let* out := run_git GitAbbrevRefHead repo_dir in
  let br := PyStr.strip (String.concat newline out) in
  run_git (GitPush "origin" br) repo_dir >> ret tt.

(** *** Repo management *)

Definition remote_url_of (token username repo_name : string) : string :=
  "https://" +:+ token +:+ "@github.com/" +:+ username +:+ "/"
  +:+ repo_name +:+ ".git".

Definition metadata_has_commits (data : RepoInfo) : bool :=
  (0 <? default 0 (ri_size data))
  || (bool_decide (is_Some (ri_default_branch data))
      && bool_decide (is_Some (ri_pushed_at data))).

Definition ensure_repo_exists (username token repo_name : string)
  : Run (string * bool) :=
  emit (HttpGetRepo username repo_name) >>
  match rest_get_repo env username repo_name with
  | Failed => raise RequestException
  | Responded status data =>
    if status =? 200 then
      ret (remote_url_of token username repo_name, metadata_has_commits data)
    else if status =? 404 then
      emit (HttpCreateRepo repo_name) >>
      match rest_create_repo env repo_name with
      | Failed => raise RequestException
      | Responded cstatus _ =>
        if cstatus =? 422 then
          eprint ("Error: repo name conflict creating '" +:+ repo_name
                  +:+ "'. Exit.") >>
          sys_exit 1
        else
          raise_for_status cstatus >>
          ret (remote_url_of token username repo_name, false)
      end
    else
      eprint ("Error checking repo: " +:+ pretty status) >> sys_exit 1
  end.

Definition _repo_has_remote_commits (username repo_name token : string)
  : Run bool :=
  emit (HttpListCommits username repo_name) >>
  match rest_list_commits env username repo_name with
  | Failed => raise RequestException
  | Responded status commits =>
    if status =? 409 then ret false
    else if status =? 404 then ret false
    else
      raise_for_status status >>
      ret (match commits with
           | JList xs => bool_decide (0 < length xs)%nat
           | _ => false
           end)
  end.

(** The tail of [prepare_local_repo], reached when there is no persistent
    directory or it is not a work tree yet: settle whether the remote has
    history, then clone or initialise. *)
Definition clone_or_init (remote_url : string) (repo_has_commits : bool)
    (username repo_name token repo_dir : string) : Run string :=
  let* actually_has_commits :=
    por repo_has_commits
        (_repo_has_remote_commits username repo_name token) in
  (if actually_has_commits : bool then
     let* cloned := subprocess_run (GitClone remote_url repo_dir) None in
     match cloned with
     | Some _ => ret tt
     | None => raise CalledProcessError
     end
   else
     run_git (GitInit "main") repo_dir >>
     run_git (GitRemoteAdd "origin" remote_url) repo_dir >>
     ret tt) >>
  configure_git repo_dir >>
  ret repo_dir.

Definition prepare_local_repo (local_dir : option string)
    (remote_url : string) (repo_has_commits : bool)
    (username repo_name token : string) : Run string :=
  match local_dir with
  | Some repo_dir =>
      emit (Mkdir repo_dir) >>
      let* check := subprocess_run GitIsInsideWorkTree (Some repo_dir) in
      match check with
      | Some _ =>
          (let* has :=
             por repo_has_commits
                 (_repo_has_remote_commits username repo_name token) in
           if has : bool then
             run_git (GitPullRebase "origin") repo_dir >> ret tt
           else ret tt) >>
          configure_git repo_dir >>
          ret repo_dir
      | None =>
          clone_or_init remote_url repo_has_commits username repo_name token
                        repo_dir
      end
  | None =>
      emit (Mkdtemp (mkdtemp_path env)) >>
      clone_or_init remote_url repo_has_commits username repo_name token
                    (mkdtemp_path env)
  end.

(** *** GitHub API helpers *)

Definition _graphql {A} (request : Event) (resp : HttpResult (GqlBody A))
  : Run (option A) :=
  emit request >>
  match resp with
  | Failed => raise RequestException
  | Responded status data =>
    if status =? 401 then
      eprint ("Error: GitHub API returned 401. Check that your token has "
              +:+ "'repo' and 'read:user' scopes.") >>
      sys_exit 1
    else
      raise_for_status status >>
      if gql_errors data then eprint "GraphQL errors" >> sys_exit 1
      else ret (gql_user data)
  end.

Definition user_not_found {A} (username : string) : Run A :=
  eprint ("Error: GitHub user '" +:+ username +:+ "' not found.") >>
  sys_exit 1.

Definition fetch_user_created_at (username token : string) : Run Z :=
  let* user := _graphql (HttpGraphqlCreatedAt username)
                        (graphql_created_at env username) in
  match user with
  | None => user_not_found username
  | Some created_at_str =>
      match fromisoformat (String.substring 0 10 created_at_str) with
      | Some d => ret d
      | None => raise ValueError
      end
  end.

(** The two nested loops over the calendar of a reply. *)
Definition collect_days (weeks : list (list (string * Z)))
  : ContributionMap :=
  foldl (λ result week,
           foldl (λ result day_data,
                    let count := day_data.2 in
                    if 0 <? count then <[day_data.1 := count]> result
                    else result)
                 result week)
        ∅ weeks.

Definition _fetch_contributions_chunk (username token : string)
    (start end_ : Z) : Run ContributionMap :=
  let* user := _graphql (HttpGraphqlCalendar username start end_)
                        (graphql_calendar env username start end_) in
  match user with
  | None => user_not_found username
  | Some weeks => ret (collect_days weeks)
  end.

(** The [while chunk_start <= end] loop of [fetch_contributions];
    [fuel] bounds the number of iterations. *)
Fixpoint fetch_loop (fuel : nat) (work_username token : string) (end_ : Z)
    (merged : ContributionMap) (chunk_start : Z) : Run ContributionMap :=
  if bool_decide (chunk_start <= end_) then
    match fuel with
    | O => raise FuelExhausted
    | S fuel' =>
        let* later := date_add chunk_start 364 in
        let chunk_end := Z.min end_ later in
        let* chunk :=
          _fetch_contributions_chunk work_username token
                                     chunk_start chunk_end in
        let merged := chunk ∪ merged in
        let* chunk_start := date_add chunk_end 1 in
        fetch_loop fuel' work_username token end_ merged chunk_start
    end
  else ret merged.

(** Every iteration moves [chunk_start] forward by at least a day, so
    the number of days of the range bounds the iterations. *)
Definition fetch_contributions (work_username token : string)
    (start end_ : Z) : Run ContributionMap :=
  fetch_loop (Z.to_nat (end_ - start + 1)) work_username token end_ ∅ start.

(** *** Main *)

Definition keys (m : ContributionMap) : list string := (map_to_list m).*1.

(** [sum(m.values())] *)
Definition sum_values (m : ContributionMap) : Z :=
  foldr Z.add 0 (map_to_list m).*2.

(** The dictionary comprehension of [main] that builds [needed]. *)
Definition compute_needed (contributions existing : ContributionMap)
  : ContributionMap :=
  map_imap (λ day target,
              let delta := target - default 0 (existing !! day) in
              if 0 <? delta then Some delta else None)
           contributions.

(** The confirmation prompt; [true] when the run goes on. *)
Definition confirm (config : Config) : Run bool :=
  if yes config then ret true
  else
    emit (Stdin "Proceed? [y/N] ") >>
    match stdin_answer env with
    | EndOfFile | Interrupt => print (newline +:+ "Aborted.") >> ret false
    | Line s =>
        let answer := PyStr.lower (PyStr.strip s) in
        if bool_decide (answer ∈ ["y"; "yes"]%string) then ret true
        else print "Aborted." >> ret false
    end.

(** The [for day in sorted(needed)] loop of [main]. *)
Definition create_commits (repo_dir : string) (needed : ContributionMap)
  : Run unit :=
  for_each (PyStr.sorted (keys needed)) (λ day,
    let count := default 0 (needed !! day) in
    print ("  " +:+ day +:+ ": +" +:+ pretty count +:+ " commits") >>
    create_commits_for_day repo_dir day count >>
    print " ok").

(** The body of the [try] block of [main] after the working copy is
    prepared: load the existing counts, compute the delta, confirm,
    create the commits and push. *)
Definition reconcile (config : Config) (contributions : ContributionMap)
    (repo_dir : string) : Run unit :=
  let* existing := load_existing_commits repo_dir in
  let needed := compute_needed contributions existing in
  if decide (needed = ∅) then print "Mirror is already up to date."
  else
    let total_needed := sum_values needed in
    print (newline +:+ "Commits to create: " +:+ pretty total_needed
           +:+ " across " +:+ pretty (size needed) +:+ " days.") >>
    let* proceed := confirm config in
    if proceed : bool then
      create_commits repo_dir needed >>
      print "Pushing to remote..." >>
      push_to_remote repo_dir >>
      print (newline +:+ "Done! View your profile: https://github.com/"
             +:+ personal_username config)
    else ret tt.

(** [shutil.rmtree(path, ignore_errors=True)] *)
Definition rmtree (path : string) : Run unit := λ w,
  (Return tt, {| repos := delete path (repos w);
                 trace := trace w ++ [Rmtree path] |}).

(** The [finally] block of [main]. *)
Definition main_finally (config : Config) (repo_dir temp_dir : option string)
  : Run unit :=
  let kept :=
    match repo_dir with
    | Some d =>
        if bool_decide (local_dir config = None) && keep_repo config
        then print ("Kept repo at: " +:+ d)
        else ret tt
    | None => ret tt
    end in
  match temp_dir with
  | Some t => if negb (keep_repo config) then rmtree t else kept
  | None => kept
  end.

Definition interrupted : Run unit := print (newline +:+ "Interrupted.").

(** The [try]/[except KeyboardInterrupt]/[finally] statement of [main].
    [repo_dir] and [temp_dir] are bound only once [prepare_local_repo]
    has returned. *)
Definition mirror (config : Config) (contributions : ContributionMap)
    (remote_url : string) (repo_has_commits : bool) : Run unit := λ w,
  match prepare_local_repo (local_dir config) remote_url repo_has_commits
          (personal_username config) (target_repo config)
          (personal_token config) w with
  | (Return repo_dir, w1) =>
      let temp_dir :=
        match local_dir config with
        | None => Some repo_dir
        | Some _ => None
        end in
      try_finally
        (except_KeyboardInterrupt (reconcile config contributions repo_dir)
                                  interrupted)
        (main_finally config (Some repo_dir) temp_dir) w1
  | (SysExit c, w1) =>
      try_finally (sys_exit c) (main_finally config None None) w1
  | (Raise e, w1) =>
      try_finally (except_KeyboardInterrupt (raise e) interrupted)
                  (main_finally config None None) w1
  end.

Definition with_start_date (config : Config) (d : Z) : Config :=
  {| personal_token := personal_token config;
     work_username := work_username config;
     personal_username := personal_username config;
     target_repo := target_repo config;
     start_date := d;
     end_date := end_date config;
     local_dir := local_dir config;
     dry_run := dry_run config;
     yes := yes config;
     keep_repo := keep_repo config;
     backfill := backfill config |}.

(** The backfill override at the head of [main]. *)
Definition backfill_override (args_start : option string) (config : Config)
  : Run Config :=
  if backfill config && negb (PyStr.truthy (default "" args_start)) then
    print ("Fetching account creation date for '" +:+ work_username config
           +:+ "'...") >>
    let* account_start :=
      fetch_user_created_at (work_username config) (personal_token config) in
    let config := with_start_date config account_start in
    print ("Backfill start: " +:+ PyDate.isoformat (start_date config)) >>
    ret config
  else ret config.

Definition dry_run_report (contributions : ContributionMap)
    (total_target : Z) : Run unit :=
  print (newline +:+ "[dry-run] Contribution delta (target counts):") >>
  for_each (PyStr.sorted (keys contributions)) (λ day,
    print ("  " +:+ day +:+ ": "
           +:+ pretty (default 0 (contributions !! day)))) >>
  print (newline +:+ "[dry-run] Would create up to " +:+ pretty total_target
         +:+ " commits across " +:+ pretty (size contributions)
         +:+ " days.").

(** The head of [main]: the backfill override, then the fetch.  Returns
    the configuration in force and the fetched contributions. *)
Definition fetch_stage (args_start : option string) (config0 : Config)
  : Run (Config * ContributionMap) :=
  let* config := backfill_override args_start config0 in
  print ("Fetching contributions for '" +:+ work_username config
         +:+ "' from " +:+ PyDate.isoformat (start_date config) +:+ " to "
         +:+ PyDate.isoformat (end_date config) +:+ "...") >>
  let* contributions :=
    fetch_contributions (work_username config) (personal_token config)
                        (start_date config) (end_date config) in
  ret (config, contributions).

Definition found_message (contributions : ContributionMap) : string :=
  "Found " +:+ pretty (size contributions) +:+ " active days ("
  +:+ pretty (sum_values contributions) +:+ " total contributions).".

Definition checking_message (config : Config) : string :=
  "Checking mirror repo '" +:+ target_repo config +:+ "'...".

(** [main], after [parse_args] and [load_config] have produced
    [args.start] and the configuration. *)
Definition main (args_start : option string) (config0 : Config) : Run unit :=
  let* fetched := fetch_stage args_start config0 in
  let config := fetched.1 in
  let contributions := fetched.2 in
  if decide (contributions = ∅) then
    print "No contributions found in the specified date range."
  else
    let total_target := sum_values contributions in
    print (found_message contributions) >>
    if dry_run config then dry_run_report contributions total_target
    else
      print (checking_message config) >>
      let* remote :=
        ensure_repo_exists (personal_username config)
                           (personal_token config) (target_repo config) in
      let remote_url := remote.1 in
      let repo_has_commits := remote.2 in
      mirror config contributions remote_url repo_has_commits.

End Copiar.

(** ** A concrete environment

    A service on which every request succeeds: the work account reports
    three contributions on 2024-01-01 and one on 2024-01-02, the mirror
    repository does not exist yet. *)

Module Demo.

Definition calendar : list (list (string * Z)) :=
  [[("2024-01-01"%string, 3); ("2024-01-02"%string, 1);
    ("2024-01-03"%string, 0)]].

Definition env : Env := {|
  graphql_created_at := λ _,
    Responded 200 {| gql_errors := false;
                     gql_user := Some "2020-05-06T07:08:09Z"%string |};
  graphql_calendar := λ _ _ _,
    Responded 200 {| gql_errors := false; gql_user := Some calendar |};
  rest_get_repo := λ _ _,
    Responded 404 {| ri_size := None; ri_default_branch := None;
                     ri_pushed_at := None |};
  rest_create_repo := λ _, Responded 201 tt;
  rest_list_commits := λ _ _, Responded 409 JNull;
  mkdtemp_path := "/tmp/copiar-demo";
  clone_result := λ _, None;
  pull_result := λ r, Some r;
  push_ok := λ _, true;
  stdin_answer := Line "y"
|}.

Definition world : World := {| repos := ∅; trace := [] |}.

Definition config : Config := {|
  personal_token := "token";
  work_username := "work";
  personal_username := "me";
  target_repo := "mirror";
  start_date := PyDate.mk 2023 1 1;
  end_date := PyDate.mk 2024 2 4;
  local_dir := Some "/home/me/mirror"%string;
  dry_run := false;
  yes := true;
  keep_repo := false;
  backfill := false
|}.

Definition target : gmap string Z :=
  {[ "2024-01-01"%string := 3; "2024-01-02"%string := 1 ]}.

(** The same run with the no-write flag. *)
Definition dry_config : Config := {|
  personal_token := "token";
  work_username := "work";
  personal_username := "me";
  target_repo := "mirror";
  start_date := PyDate.mk 2023 1 1;
  end_date := PyDate.mk 2024 2 4;
  local_dir := None;
  dry_run := true;
  yes := false;
  keep_repo := false;
  backfill := true
|}.

(** A work account without contributions. *)
Definition idle_env : Env := {|
  graphql_created_at := graphql_created_at env;
  graphql_calendar := λ _ _ _,
    Responded 200 {| gql_errors := false; gql_user := Some [] |};
  rest_get_repo := rest_get_repo env;
  rest_create_repo := rest_create_repo env;
  rest_list_commits := rest_list_commits env;
  mkdtemp_path := mkdtemp_path env;
  clone_result := clone_result env;
  pull_result := pull_result env;
  push_ok := push_ok env;
  stdin_answer := stdin_answer env
|}.

Definition noon (year month day : Z) : git_date :=
  GitDate year month day 12 0 0 0.

(** The history a first run leaves behind. *)
Definition mirrored : repo :=
  Repo "main"
    [Commit (noon 2024 1 2) (noon 2024 1 2) "mirror: 2024-01-02 (1/1)";
     Commit (noon 2024 1 1) (noon 2024 1 1) "mirror: 2024-01-01 (3/3)";
     Commit (noon 2024 1 1) (noon 2024 1 1) "mirror: 2024-01-01 (2/3)";
     Commit (noon 2024 1 1) (noon 2024 1 1) "mirror: 2024-01-01 (1/3)"].

(** The service once the mirror exists and holds that history. *)
Definition mirrored_env : Env := {|
  graphql_created_at := graphql_created_at env;
  graphql_calendar := graphql_calendar env;
  rest_get_repo := λ _ _,
    Responded 200 {| ri_size := Some 1; ri_default_branch := Some "main"%string;
                     ri_pushed_at := Some "2024-01-03T00:00:00Z"%string |};
  rest_create_repo := λ _, Responded 422 tt;
  rest_list_commits := λ _ _, Responded 200 (JList [JDict []]);
  mkdtemp_path := mkdtemp_path env;
  clone_result := λ _, Some mirrored;
  pull_result := λ r, Some r;
  push_ok := λ _, true;
  stdin_answer := stdin_answer env
|}.

Definition mirrored_world : World :=
  {| repos := {[ "/home/me/mirror"%string := mirrored ]}; trace := [] |}.

End Demo.

(** * Properties *)

(** ** Running commands: basic equations *)

Definition log (e : Event) (w : World) : World :=
  {| repos := repos w; trace := trace w ++ [e] |}.

Definition logs (es : list Event) (w : World) : World :=
  {| repos := repos w; trace := trace w ++ es |}.

Lemma logs_nil w : logs [] w = w.
Proof. destruct w. unfold logs. simpl. by rewrite app_nil_r. Qed.

Lemma logs_log e es w : logs es (log e w) = logs (e :: es) w.
Proof. unfold logs, log. simpl. by rewrite <- app_assoc. Qed.

Lemma logs_logs es1 es2 w : logs es2 (logs es1 w) = logs (es1 ++ es2) w.
Proof. unfold logs. simpl. by rewrite <- app_assoc. Qed.

Lemma bind_return {A B} (m : Run A) (k : A → Run B) w a w' :
  m w = (Return a, w') → bind m k w = k a w'.
Proof. unfold bind. by intros ->. Qed.

Lemma bind_exit {A B} (m : Run A) (k : A → Run B) w c w' :
  m w = (SysExit c, w') → bind m k w = (SysExit c, w').
Proof. unfold bind. by intros ->. Qed.

Lemma bind_raise {A B} (m : Run A) (k : A → Run B) w e w' :
  m w = (Raise e, w') → bind m k w = (Raise e, w').
Proof. unfold bind. by intros ->. Qed.

Lemma emit_log e w : emit e w = (Return tt, log e w).
Proof. reflexivity. Qed.

(** ** The windows of the fetcher (C3, C4, C10) *)

(** A reply the GraphQL helper accepts: its payload. *)
Definition reply_ok {A} (r : HttpResult (GqlBody A)) : option A :=
  match r with
  | Responded status data =>
      if (status =? 401) || ((400 <=? status) && (status <? 600))
         || gql_errors data
      then None
      else gql_user data
  | Failed => None
  end.

(** Every calendar query for [login] is answered with a calendar. *)
Definition calendar_ok (env : Env) (login : string) : Prop :=
  ∀ a b, is_Some (reply_ok (graphql_calendar env login a b)).

(** The windows queried in a trace, in order. *)
Definition windows (tr : list Event) : list (Z * Z) :=
  omap (λ e, match e with
             | HttpGraphqlCalendar _ a b => Some (a, b)
             | _ => None
             end) tr.

Definition query (login : string) (win : Z * Z) : Event :=
  HttpGraphqlCalendar login win.1 win.2.

Lemma windows_query login ws : windows (query login <$> ws) = ws.
Proof.
  induction ws as [|[a b] ws IH]; [done|].
  unfold windows in *. simpl. by f_equal.
Qed.

Lemma graphql_ok {A} (request : Event) (resp : HttpResult (GqlBody A)) x w :
  reply_ok resp = Some x →
  _graphql request resp w = (Return (Some x), log request w).
Proof.
  unfold reply_ok, _graphql. destruct resp as [status data|]; [|done].
  intros H. unfold bind. rewrite emit_log.
  destruct (status =? 401) eqn:E1; [done|].
  unfold raise_for_status.
  destruct ((400 <=? status) && (status <? 600)) eqn:E2; [done|].
  simpl in *. unfold ret. destruct (gql_errors data); [done|].
  by rewrite H.
Qed.

Lemma fetch_chunk_ok env login token a b w weeks :
  reply_ok (graphql_calendar env login a b) = Some weeks →
  _fetch_contributions_chunk env login token a b w
  = (Return (collect_days weeks), log (HttpGraphqlCalendar login a b) w).
Proof.
  intros H. unfold _fetch_contributions_chunk.
  erewrite bind_return; [|by apply graphql_ok]. done.
Qed.

Lemma date_add_ok d k w :
  0 < d + k → d + k <= PyDate.MAXORDINAL →
  date_add d k w = (Return (d + k), w).
Proof.
  intros H1 H2. unfold date_add, PyDate.add_days.
  rewrite (proj2 (Z.ltb_lt _ _) H1), (proj2 (Z.leb_le _ _) H2). done.
Qed.

Lemma date_add_overflow d k w :
  PyDate.MAXORDINAL < d + k → date_add d k w = (Raise OverflowError, w).
Proof.
  intros H. unfold date_add, PyDate.add_days.
  rewrite (proj2 (Z.leb_gt _ _) H), andb_false_r. done.
Qed.

(** The windows the loop walks through, as a list. *)
Fixpoint chunk_plan (fuel : nat) (end_ chunk_start : Z) : list (Z * Z) :=
  if bool_decide (chunk_start <= end_) then
    match fuel with
    | O => []
    | S fuel' =>
        let chunk_end := Z.min end_ (chunk_start + 364) in
        (chunk_start, chunk_end) :: chunk_plan fuel' end_ (chunk_end + 1)
    end
  else [].

Lemma fetch_loop_ok env login token end_ :
  calendar_ok env login →
  end_ + 364 <= PyDate.MAXORDINAL →
  ∀ fuel merged chunk_start w,
    0 < chunk_start →
    (Z.to_nat (end_ - chunk_start + 1) <= fuel)%nat →
    ∃ merged',
      fetch_loop env fuel login token end_ merged chunk_start w
      = (Return merged', logs (query login <$> chunk_plan fuel end_ chunk_start) w).
Proof.
  intros Hok Hmax. induction fuel as [|fuel IH]; intros merged cs w Hpos Hfuel.
  - simpl. rewrite bool_decide_eq_false_2 by lia.
    exists merged. by rewrite logs_nil.
  - simpl. case_bool_decide as Hle.
    + rewrite (bind_return _ _ _ _ _ (date_add_ok cs 364 w ltac:(lia) ltac:(lia))).
      destruct (Hok cs (Z.min end_ (cs + 364))) as [weeks Hweeks].
      rewrite (bind_return _ _ _ _ _ (fetch_chunk_ok env login token _ _ w _ Hweeks)).
      rewrite (bind_return _ _ _ _ _
                 (date_add_ok (Z.min end_ (cs + 364)) 1 _ ltac:(lia) ltac:(lia))).
      destruct (IH (collect_days weeks ∪ merged) (Z.min end_ (cs + 364) + 1)
                  (log (HttpGraphqlCalendar login cs (Z.min end_ (cs + 364))) w)
                  ltac:(lia) ltac:(lia)) as [m' Hm'].
      exists m'. rewrite Hm'. by rewrite logs_log.
    + exists merged. by rewrite logs_nil.
Qed.

(** Consecutive windows of at most 365 days from [a] to [e]. *)
Inductive chain : Z → Z → list (Z * Z) → Prop :=
| chain_last a e :
    a <= e → e - a + 1 <= 365 → chain a e [(a, e)]
| chain_next a b e ws :
    a <= b → b - a + 1 <= 365 → b < e → chain (b + 1) e ws →
    chain a e ((a, b) :: ws).

Lemma chunk_plan_chain end_ fuel : ∀ chunk_start,
  chunk_start <= end_ →
  (Z.to_nat (end_ - chunk_start + 1) <= fuel)%nat →
  chain chunk_start end_ (chunk_plan fuel end_ chunk_start).
Proof.
  induction fuel as [|fuel IH]; intros cs Hle Hfuel; [lia|].
  simpl. rewrite bool_decide_eq_true_2 by done.
  destruct (decide (end_ <= cs + 364)) as [Hlast|Hmore].
  - rewrite Z.min_l by done.
    destruct fuel; simpl; rewrite bool_decide_eq_false_2 by lia;
      apply chain_last; lia.
  - rewrite Z.min_r by lia.
    apply chain_next; [lia..|]. apply IH; lia.
Qed.

Lemma chain_bounds a e ws :
  chain a e ws → Forall (λ win, win.1 <= win.2 ∧ win.2 - win.1 + 1 <= 365) ws.
Proof.
  induction 1; constructor; simpl; try lia; [constructor|done].
Qed.

Lemma chain_consecutive a e ws :
  chain a e ws →
  ∀ i x y, ws !! i = Some x → ws !! S i = Some y → y.1 = x.2 + 1.
Proof.
  induction 1 as [a e|a b e ws Ha Hb Hlt Hch IH]; intros i x y Hx Hy.
  - destruct i; simpl in *; done.
  - destruct i as [|i]; simpl in *.
    + inversion Hx; subst. inversion Hch; subst; simpl in *;
        inversion Hy; subst; done.
    + eauto.
Qed.

Lemma chain_within a e ws :
  chain a e ws → ∀ i win, ws !! i = Some win → a <= win.1 ∧ win.2 <= e.
Proof.
  induction 1 as [a e|a b e ws Ha Hb Hlt Hch IH]; intros i win Hwin.
  - destruct i; simpl in *; [|done]. inversion Hwin; subst. simpl. lia.
  - destruct i as [|i]; simpl in *.
    + inversion Hwin; subst. simpl. lia.
    + apply IH in Hwin. lia.
Qed.

Lemma chain_cover a e ws :
  chain a e ws →
  ∀ d, a <= d <= e → ∃ i win, ws !! i = Some win ∧ win.1 <= d <= win.2.
Proof.
  induction 1 as [a e|a b e ws Ha Hb Hlt Hch IH]; intros d Hd.
  - exists 0%nat, (a, e). done.
  - destruct (decide (d <= b)) as [Hdb|Hdb].
    + exists 0%nat, (a, b). simpl. split; [done|lia].
    + destruct (IH d ltac:(lia)) as (i & win & Hwin & Hin).
      exists (S i), win. done.
Qed.

Lemma chain_disjoint a e ws :
  chain a e ws →
  ∀ i j wi wj d,
    ws !! i = Some wi → ws !! j = Some wj →
    wi.1 <= d <= wi.2 → wj.1 <= d <= wj.2 → i = j.
Proof.
  induction 1 as [a e|a b e ws Ha Hb Hlt Hch IH]; intros i j wi wj d Hi Hj Hdi Hdj.
  - destruct i, j; simpl in *; done.
  - destruct i as [|i], j as [|j]; simpl in *; [done| | |f_equal; eauto].
    + inversion Hi; subst. simpl in *.
      apply (chain_within _ _ _ Hch) in Hj. lia.
    + inversion Hj; subst. simpl in *.
      apply (chain_within _ _ _ Hch) in Hi. lia.
Qed.

(** [ws] splits the days from [start] to [end_] into consecutive windows
    of at most 365 days: each window is non-empty and short enough, each
    begins the day after the one before ends, every day of the range is
    in some window, no window holds a day outside the range, and no day
    is in two windows. *)
Definition partitions (start end_ : Z) (ws : list (Z * Z)) : Prop :=
  Forall (λ win, win.1 <= win.2 ∧ win.2 - win.1 + 1 <= 365) ws
  ∧ (∀ i x y, ws !! i = Some x → ws !! S i = Some y → y.1 = x.2 + 1)
  ∧ (∀ d, start <= d <= end_ →
          ∃ i win, ws !! i = Some win ∧ win.1 <= d <= win.2)
  ∧ (∀ i win, ws !! i = Some win → start <= win.1 ∧ win.2 <= end_)
  ∧ (∀ i j wi wj d,
       ws !! i = Some wi → ws !! j = Some wj →
       wi.1 <= d <= wi.2 → wj.1 <= d <= wj.2 → i = j).

Lemma chain_partitions a e ws : chain a e ws → partitions a e ws.
Proof.
  intros H. repeat split.
  - by eapply chain_bounds.
  - by eapply chain_consecutive.
  - by eapply chain_cover.
  - eapply chain_within in H; [|done]. lia.
  - eapply chain_within in H; [|done]. lia.
  - by eapply chain_disjoint.
Qed.

Lemma demo_calendar_ok login : calendar_ok Demo.env login.
Proof. intros a b. vm_compute. eauto. Qed.

(** Within the dates the loop can step through (C3): for every range
    1 <= start <= end whose end lies at least 364 days before the last
    representable day, and with every window query answered, the fetcher
    queries a list of windows that partitions [start, end]: consecutive,
    each of at most 365 days, the first beginning at start, the last
    ending at end, each next one beginning the day after the previous one
    ends. *)
Theorem fetch_contributions_partitions env login token start end_ w :
  calendar_ok env login →
  0 < start → start <= end_ → end_ + 364 <= PyDate.MAXORDINAL →
  ∃ merged ws,
    fetch_contributions env login token start end_ w
    = (Return merged, logs (query login <$> ws) w)
    ∧ windows (query login <$> ws) = ws
    ∧ partitions start end_ ws.
Proof.
  intros Hok Hpos Hle Hmax. unfold fetch_contributions.
  destruct (fetch_loop_ok env login token end_ Hok Hmax
              (Z.to_nat (end_ - start + 1)) ∅ start w Hpos ltac:(lia))
    as [merged Hrun].
  exists merged, (chunk_plan (Z.to_nat (end_ - start + 1)) end_ start).
  split; [done|]. split; [apply windows_query|].
  apply chain_partitions, chunk_plan_chain; [done|lia].
Qed.

Lemma fetch_contributions_partitions_witness :
  ∃ merged ws,
    fetch_contributions Demo.env "work" "token"
      (PyDate.mk 2023 1 1) (PyDate.mk 2024 2 4) Demo.world
    = (Return merged, logs (query "work" <$> ws) Demo.world)
    ∧ windows (query "work" <$> ws) = ws
    ∧ partitions (PyDate.mk 2023 1 1) (PyDate.mk 2024 2 4) ws.
Proof.
  apply (fetch_contributions_partitions Demo.env "work" "token"
           (PyDate.mk 2023 1 1) (PyDate.mk 2024 2 4) Demo.world).
  - apply demo_calendar_ok.
  - vm_compute. reflexivity.
  - vm_compute. discriminate.
  - vm_compute. discriminate.
Defined.

(** C3 fails at the end of the calendar, by a slip of the loop: the
    candidate window end [chunk_start + 364 days] is computed before it is
    clamped with [min], and the next start [chunk_end + 1 day] before the
    loop condition is tested.  For the range of the single day 9999-12-31
    the fetcher raises before it queries a window; for the year 9999 it
    queries the one window that covers the range and raises after it,
    losing the answer. *)
Lemma fetch_contributions_overflow :
  let last_day := PyDate.mk 9999 12 31 in
  let new_year := PyDate.mk 9999 1 1 in
  fetch_contributions Demo.env "work" "token" last_day last_day Demo.world
  = (Raise OverflowError, Demo.world)
  ∧ fetch_contributions Demo.env "work" "token" new_year last_day Demo.world
    = (Raise OverflowError,
       logs [HttpGraphqlCalendar "work" new_year last_day] Demo.world).
Proof. split; vm_compute; reflexivity. Qed.

(** C10: when start is strictly after end, the fetcher returns the empty
    map and issues no query: the world, trace included, is unchanged. *)
Theorem fetch_contributions_empty_range env login token start end_ w :
  end_ < start →
  fetch_contributions env login token start end_ w = (Return ∅, w).
Proof.
  intros Hlt. unfold fetch_contributions.
  destruct (Z.to_nat (end_ - start + 1)); simpl;
    rewrite bool_decide_eq_false_2 by lia; done.
Qed.

Lemma fetch_contributions_empty_range_witness :
  fetch_contributions Demo.env "work" "token"
    (PyDate.mk 2024 2 4) (PyDate.mk 2023 1 1) Demo.world
  = (Return ∅, Demo.world).
Proof.
  apply (fetch_contributions_empty_range Demo.env "work" "token"
           (PyDate.mk 2024 2 4) (PyDate.mk 2023 1 1) Demo.world).
  vm_compute. reflexivity.
Defined.

(** C4 (as amended): the range [2023-01-01, 2024-02-04] has 400 days and
    is fetched in exactly two windows: 2023-01-01 to 2023-12-31, which is
    365 days, then 2024-01-01 to 2024-02-04, the remaining 35 days. *)
Theorem scenario_c_windows env login token w :
  calendar_ok env login →
  ∃ merged,
    fetch_contributions env login token
      (PyDate.mk 2023 1 1) (PyDate.mk 2024 2 4) w
    = (Return merged,
       logs [HttpGraphqlCalendar login (PyDate.mk 2023 1 1) (PyDate.mk 2023 12 31);
             HttpGraphqlCalendar login (PyDate.mk 2024 1 1) (PyDate.mk 2024 2 4)]
            w)
    ∧ PyDate.mk 2024 2 4 - PyDate.mk 2023 1 1 + 1 = 400
    ∧ PyDate.mk 2023 12 31 - PyDate.mk 2023 1 1 + 1 = 365
    ∧ PyDate.mk 2024 2 4 - PyDate.mk 2024 1 1 + 1 = 35.
Proof.
  intros Hok. unfold fetch_contributions.
  destruct (fetch_loop_ok env login token (PyDate.mk 2024 2 4) Hok
              ltac:(by vm_compute)
              (Z.to_nat (PyDate.mk 2024 2 4 - PyDate.mk 2023 1 1 + 1)) ∅
              (PyDate.mk 2023 1 1) w ltac:(by vm_compute) ltac:(lia))
    as [merged Hrun].
  exists merged. split; [|by vm_compute].
  rewrite Hrun. f_equal.
Qed.

Lemma scenario_c_windows_witness :
  ∃ merged,
    fetch_contributions Demo.env "work" "token"
      (PyDate.mk 2023 1 1) (PyDate.mk 2024 2 4) Demo.world
    = (Return merged,
       logs [HttpGraphqlCalendar "work" (PyDate.mk 2023 1 1) (PyDate.mk 2023 12 31);
             HttpGraphqlCalendar "work" (PyDate.mk 2024 1 1) (PyDate.mk 2024 2 4)]
            Demo.world)
    ∧ PyDate.mk 2024 2 4 - PyDate.mk 2023 1 1 + 1 = 400
    ∧ PyDate.mk 2023 12 31 - PyDate.mk 2023 1 1 + 1 = 365
    ∧ PyDate.mk 2024 2 4 - PyDate.mk 2024 1 1 + 1 = 35.
Proof.
  apply (scenario_c_windows Demo.env "work" "token" Demo.world).
  intros a b. vm_compute. eauto.
Defined.

(** C4, as stated, gives the second window 36 days; the run queries the
    windows below and the second one, 2024-01-01 to 2024-02-04, has 35. *)
Lemma scenario_c_windows_counterexample :
  let run := fetch_contributions Demo.env "work" "token"
               (PyDate.mk 2023 1 1) (PyDate.mk 2024 2 4) Demo.world in
  windows (trace run.2)
  = [(PyDate.mk 2023 1 1, PyDate.mk 2023 12 31);
     (PyDate.mk 2024 1 1, PyDate.mk 2024 2 4)]
  ∧ PyDate.mk 2024 2 4 - PyDate.mk 2024 1 1 + 1 ≠ 36.
Proof. split; [by vm_compute|]. vm_compute. discriminate. Qed.

(** ** The fetch loop terminates *)

Lemma date_add_cases d k w :
  date_add d k w = (Return (d + k), w)
  ∨ date_add d k w = (Raise OverflowError, w).
Proof.
  unfold date_add, PyDate.add_days.
  destruct ((0 <? d + k) && (d + k <=? PyDate.MAXORDINAL)); auto.
Qed.

Lemma graphql_in_fuel {A} request (resp : HttpResult (GqlBody A)) w :
  (_graphql request resp w).1 ≠ Raise FuelExhausted.
Proof.
  unfold _graphql, bind, emit, eprint, emit, sys_exit, raise, ret,
    raise_for_status.
  destruct resp as [status data|]; simpl; [|done].
  destruct (status =? 401); simpl; [done|].
  destruct ((400 <=? status) && (status <? 600)); simpl; [done|].
  destruct (gql_errors data); done.
Qed.

Lemma fetch_chunk_in_fuel env login token a b w :
  (_fetch_contributions_chunk env login token a b w).1 ≠ Raise FuelExhausted.
Proof.
  unfold _fetch_contributions_chunk, bind.
  pose proof (graphql_in_fuel (HttpGraphqlCalendar login a b)
                (graphql_calendar env login a b) w) as H.
  destruct (_graphql _ _ w) as [[[weeks|]|c|e] w1]; simpl in *; try done.
  intros Heq. apply H. by inversion Heq.
Qed.

(** The bound on the iterations is never the reason the fetcher stops:
    each iteration moves [chunk_start] forward by at least one day. *)
Lemma fetch_loop_in_fuel env login token end_ fuel :
  ∀ merged chunk_start w,
    (Z.to_nat (end_ - chunk_start + 1) <= fuel)%nat →
    (fetch_loop env fuel login token end_ merged chunk_start w).1
    ≠ Raise FuelExhausted.
Proof.
  induction fuel as [|fuel IH]; intros merged cs w Hfuel; simpl.
  - rewrite bool_decide_eq_false_2 by lia. done.
  - case_bool_decide as Hle; [|done].
    unfold bind at 1.
    destruct (date_add_cases cs 364 w) as [-> | ->]; [|done].
    unfold bind at 1.
    pose proof (fetch_chunk_in_fuel env login token cs
                  (Z.min end_ (cs + 364)) w) as Hchunk.
    destruct (_fetch_contributions_chunk _ _ _ _ _ _) as [[chunk|c|e] w1];
      simpl in *; [|done|by intros Heq; inversion Heq; subst].
    unfold bind at 1.
    destruct (date_add_cases (Z.min end_ (cs + 364)) 1 w1) as [-> | ->];
      [|done].
    apply IH. lia.
Qed.

Lemma fetch_contributions_in_fuel env login token start end_ w :
  (fetch_contributions env login token start end_ w).1 ≠ Raise FuelExhausted.
Proof. apply fetch_loop_in_fuel. lia. Qed.

(** ** The delta (C2) *)

(** [existing.get(day, 0)] *)
Definition get0 (m : gmap string Z) (day : string) : Z := default 0 (m !! day).

Lemma compute_needed_lookup (target existing : gmap string Z) day :
  compute_needed target existing !! day
  = t ← target !! day;
    if 0 <? t - get0 existing day then Some (t - get0 existing day) else None.
Proof. unfold compute_needed. by rewrite map_lookup_imap. Qed.

(** C2: the delta has an entry for a day exactly when the day is in the
    target map and max(0, target - existing) is not zero, and the entry is
    that maximum; a target day whose existing count reaches the target has
    no entry; every entry is strictly positive. *)
Theorem compute_needed_spec (target existing : gmap string Z) :
  (∀ day v,
     compute_needed target existing !! day = Some v
     ↔ ∃ t, target !! day = Some t
            ∧ v = Z.max 0 (t - get0 existing day) ∧ v ≠ 0)
  ∧ (∀ day t,
       target !! day = Some t → t <= get0 existing day →
       compute_needed target existing !! day = None)
  ∧ (∀ day, target !! day = None →
            compute_needed target existing !! day = None)
  ∧ (∀ day v, compute_needed target existing !! day = Some v → 0 < v).
Proof.
  repeat split.
  - rewrite compute_needed_lookup. intros H.
    destruct (target !! day) as [t|]; simpl in *; [|done].
    destruct (0 <? t - get0 existing day) eqn:E; [|done].
    apply Z.ltb_lt in E. inversion H; subst. exists t. split; [done|lia].
  - intros (t & Ht & -> & Hnz). rewrite compute_needed_lookup, Ht. simpl.
    destruct (0 <? t - get0 existing day) eqn:E.
    + apply Z.ltb_lt in E. f_equal. lia.
    + apply Z.ltb_ge in E. lia.
  - intros day t Ht Hle. rewrite compute_needed_lookup, Ht. simpl.
    rewrite (proj2 (Z.ltb_ge _ _)) by lia. done.
  - intros day Ht. by rewrite compute_needed_lookup, Ht.
  - intros day v. rewrite compute_needed_lookup.
    destruct (target !! day) as [t|]; simpl; [|done].
    destruct (0 <? t - get0 existing day) eqn:E; [|done].
    apply Z.ltb_lt in E. intros H. inversion H; subst. done.
Qed.

Example scenario_a_delta : compute_needed Demo.target ∅ = Demo.target.
Proof. by vm_compute. Qed.

Example scenario_b_delta :
  compute_needed Demo.target {[ "2024-01-01"%string := 3 ]}
  = {[ "2024-01-02"%string := 1 ]}.
Proof. by vm_compute. Qed.

(** ** Day bucketing (C5) *)

(** The ISO form [YYYY-MM-DD] of a day. *)
Definition iso_day (year month day : Z) : string :=
  PyDate.pad 4 year +:+ "-" +:+ PyDate.pad 2 month +:+ "-" +:+ PyDate.pad 2 day.

(** A key of a contribution map as the data model has it: the ISO form of
    a calendar day (one that git can represent). *)
Definition calendar_day (day : string) : Prop :=
  ∃ y m d, valid_ymd y m d = true ∧ day = iso_day y m d.

(** The timestamp [create_commits_for_day] builds for a day. *)
Definition noon_utc (day : string) : string := day +:+ "T12:00:00+00:00".

Global Instance git_date_eq_dec : EqDecision git_date.
Proof. solve_decision. Defined.

Definition bucket_check (y m d : Z) : bool :=
  if valid_ymd y m d then
    bool_decide (parse_date (noon_utc (iso_day y m d))
                 = Some (GitDate y m d 12 0 0 0))
    && bool_decide (PyStr.strip (iso_day y m d) = iso_day y m d)
    && PyStr.truthy (iso_day y m d)
  else true.

Lemma bucket_check_all :
  forallb (λ y, forallb (λ m, forallb (bucket_check y m) (seqZ 1 31))
                        (seqZ 1 12))
          (seqZ 1970 130) = true.
Proof. vm_compute. reflexivity. Qed.

Lemma valid_ymd_bounds y m d :
  valid_ymd y m d = true →
  1970 <= y <= 2099 ∧ 1 <= m <= 12 ∧ 1 <= d <= 31.
Proof.
  unfold valid_ymd. rewrite !andb_true_iff, !Z.leb_le.
  intros [[[[[? ?] ?] ?] ?] Hd].
  assert (PyDate.days_in_month y m <= 31); [|lia].
  unfold PyDate.days_in_month.
  destruct ((m =? 2) && PyDate.is_leap y); [lia|].
  assert (Hm : m = 1 ∨ m = 2 ∨ m = 3 ∨ m = 4 ∨ m = 5 ∨ m = 6 ∨ m = 7
               ∨ m = 8 ∨ m = 9 ∨ m = 10 ∨ m = 11 ∨ m = 12) by lia.
  destruct Hm as [->|[->|[->|[->|[->|[->|[->|[->|[->|[->|[->| ->]]]]]]]]]]];
    simpl; lia.
Qed.

Lemma bucket_check_true y m d : bucket_check y m d = true.
Proof.
  destruct (valid_ymd y m d) eqn:Hvalid;
    [|unfold bucket_check; by rewrite Hvalid].
  destruct (valid_ymd_bounds _ _ _ Hvalid) as (Hy & Hm & Hd).
  assert (Hiny : In y (seqZ 1970 130))
    by (apply list_elem_of_In, elem_of_seqZ; lia).
  assert (Hinm : In m (seqZ 1 12))
    by (apply list_elem_of_In, elem_of_seqZ; lia).
  assert (Hind : In d (seqZ 1 31))
    by (apply list_elem_of_In, elem_of_seqZ; lia).
  pose proof (proj1 (forallb_forall _ _) bucket_check_all y Hiny) as Hmonths.
  pose proof (proj1 (forallb_forall _ _) Hmonths m Hinm) as Hdays.
  exact (proj1 (forallb_forall _ _) Hdays d Hind).
Qed.

(** Git reads the noon timestamp of a calendar day as that day, and
    prints it back as the same string. *)
Lemma calendar_day_roundtrip day :
  calendar_day day →
  ∃ g, parse_date (noon_utc day) = Some g
       ∧ show_date_ymd g = day
       ∧ PyStr.strip day = day
       ∧ PyStr.truthy day = true.
Proof.
  intros (y & m & d & Hvalid & ->).
  pose proof (bucket_check_true y m d) as H.
  unfold bucket_check in H. rewrite Hvalid in H.
  apply andb_true_iff in H as [H Htruthy].
  apply andb_true_iff in H as [Hparse Hstrip].
  apply bool_decide_eq_true in Hparse, Hstrip.
  exists (GitDate y m d 12 0 0 0). done.
Qed.

(** The number of lines that [tally] counts under [day]. *)
Definition occurrences (day : string) (lines : list string) : Z :=
  Z.of_nat (length (filter (λ line, PyStr.strip line = day) lines)).

Lemma occurrences_app day xs ys :
  occurrences day (xs ++ ys) = occurrences day xs + occurrences day ys.
Proof. unfold occurrences. rewrite filter_app, length_app. lia. Qed.

Lemma occurrences_cons day x xs :
  occurrences day (x :: xs)
  = (if decide (PyStr.strip x = day) then 1 else 0) + occurrences day xs.
Proof.
  unfold occurrences. rewrite filter_cons.
  destruct (decide (PyStr.strip x = day)); simpl; lia.
Qed.

Definition tally_step (counts : gmap string Z) (line : string) : gmap string Z :=
  let day := PyStr.strip line in
  if PyStr.truthy day then <[day := default 0 (counts !! day) + 1]> counts
  else counts.

Lemma tally_foldl lines : tally lines = foldl tally_step ∅ lines.
Proof. reflexivity. Qed.

Lemma tally_step_get0 counts line day :
  PyStr.truthy day = true →
  get0 (tally_step counts line) day
  = get0 counts day + (if decide (PyStr.strip line = day) then 1 else 0).
Proof.
  intros Hday. unfold tally_step, get0.
  destruct (decide (PyStr.strip line = day)) as [->|Hne].
  - rewrite Hday. rewrite lookup_insert_eq. simpl. done.
  - destruct (PyStr.truthy (PyStr.strip line)); [|lia].
    rewrite lookup_insert_ne by done. lia.
Qed.

Lemma foldl_tally_get0 lines : ∀ counts day,
  PyStr.truthy day = true →
  get0 (foldl tally_step counts lines) day
  = get0 counts day + occurrences day lines.
Proof.
  induction lines as [|line lines IH]; intros counts day Hday; simpl.
  - unfold occurrences. simpl. lia.
  - rewrite IH, tally_step_get0, occurrences_cons by done. lia.
Qed.

Lemma tally_get0 lines day :
  PyStr.truthy day = true → get0 (tally lines) day = occurrences day lines.
Proof.
  intros Hday. rewrite tally_foldl, foldl_tally_get0 by done.
  unfold get0. rewrite lookup_empty. simpl. lia.
Qed.

(** The lines [git log --format=%ad --date=format:%Y-%m-%d] prints. *)
Definition author_days (h : list commit) : list string :=
  (λ c, show_date_ymd (log_date AuthorDate c)) <$> h.

Lemma load_existing_commits_repo env dir w r :
  repos w !! dir = Some r →
  ∃ evs,
    load_existing_commits env dir w
    = (Return (tally (author_days (history r))), logs evs w).
Proof.
  intros Hr. unfold load_existing_commits, bind, subprocess_run, run_git, bind, subprocess_run.
  simpl. rewrite Hr. simpl.
  destruct (history r) as [|c h] eqn:Hh; simpl.
  - exists [Subprocess (Some dir) GitRevParseVerifyHead]. done.
  - rewrite Hr. simpl. rewrite Hh. simpl.
    exists [Subprocess (Some dir) GitRevParseVerifyHead;
            Subprocess (Some dir) (GitLog AuthorDate)].
    unfold ret, logs. simpl. rewrite <- app_assoc. done.
Qed.

Lemma run_git_commit env dir msg ts g w r :
  parse_date ts = Some g →
  repos w !! dir = Some r →
  run_git env (GitCommitAllowEmpty msg ts ts) dir w
  = (Return [],
     {| repos := <[dir := Repo (branch r) (Commit g g msg :: history r)]> (repos w);
        trace := trace w ++ [Subprocess (Some dir) (GitCommitAllowEmpty msg ts ts)] |}).
Proof.
  intros Hg Hr. unfold run_git, bind, subprocess_run. simpl.
  rewrite Hr. simpl. rewrite Hg. simpl. done.
Qed.

Lemma commit_loop env dir ts g (msg : Z → string) :
  parse_date ts = Some g →
  ∀ (indices : list Z) w r,
    repos w !! dir = Some r →
    ∃ new evs,
      for_each indices
        (λ i, run_git env (GitCommitAllowEmpty (msg i) ts ts) dir >> ret tt) w
      = (Return tt,
         {| repos := <[dir := Repo (branch r) (new ++ history r)]> (repos w);
            trace := trace w ++ evs |})
      ∧ length new = length indices
      ∧ Forall (λ c, author_date c = g ∧ committer_date c = g) new.
Proof.
  intros Hg. induction indices as [|i indices IH]; intros w r Hr.
  - exists [], []. simpl. unfold ret. split; [|done].
    destruct w as [rs tr], r as [br h]. simpl in *.
    rewrite app_nil_r, insert_id; done.
  - simpl. unfold bind at 1. unfold bind at 1.
    rewrite (run_git_commit env dir (msg i) ts g w r Hg Hr). unfold ret at 1.
    match goal with |- context [for_each _ _ ?w1] => set (w1' := w1) end.
    destruct (IH w1' (Repo (branch r) (Commit g g (msg i) :: history r)))
      as (new & evs & Hrun & Hlen & Hall).
    { subst w1'. simpl. by rewrite lookup_insert_eq. }
    exists (new ++ [Commit g g (msg i)]),
           (Subprocess (Some dir) (GitCommitAllowEmpty (msg i) ts ts) :: evs).
    rewrite Hrun. subst w1'. simpl. split; [|split].
    + rewrite insert_insert_eq, <- !app_assoc. done.
    + rewrite length_app. simpl. lia.
    + apply Forall_app. split; [done|]. constructor; [done|constructor].
Qed.

Lemma create_commits_for_day_ok env dir day count g w r :
  parse_date (noon_utc day) = Some g →
  repos w !! dir = Some r →
  ∃ new evs,
    create_commits_for_day env dir day count w
    = (Return tt,
       {| repos := <[dir := Repo (branch r) (new ++ history r)]> (repos w);
          trace := trace w ++ evs |})
    ∧ length new = Z.to_nat count
    ∧ Forall (λ c, author_date c = g ∧ committer_date c = g) new.
Proof.
  intros Hg Hr. unfold create_commits_for_day.
  destruct (commit_loop env dir (noon_utc day) g
              (λ i, commit_message day i count) Hg (seqZ 0 count) w r Hr)
    as (new & evs & Hrun & Hlen & Hall).
  exists new, evs. rewrite length_seqZ in Hlen. done.
Qed.

Lemma author_days_same g new :
  Forall (λ c, author_date c = g ∧ committer_date c = g) new →
  author_days new = replicate (length new) (show_date_ymd g).
Proof.
  induction 1 as [|c new [Ha _] _ IH]; [done|].
  change (author_days (c :: new))
    with (show_date_ymd (author_date c) :: author_days new).
  simpl. by rewrite Ha, IH.
Qed.

Lemma occurrences_replicate day k n :
  PyStr.strip k = k →
  occurrences day (replicate n k) = if decide (k = day) then Z.of_nat n else 0.
Proof.
  intros Hk. induction n as [|n IH].
  - unfold occurrences. simpl. by destruct (decide (k = day)).
  - simpl replicate. rewrite occurrences_cons, IH, Hk.
    destruct (decide (k = day)); lia.
Qed.

Definition day_body env (dir : string) (needed : gmap string Z) (day : string)
  : Run unit :=
  let count := default 0 (needed !! day) in
  print ("  " +:+ day +:+ ": +" +:+ pretty count +:+ " commits") >>
  create_commits_for_day env dir day count >>
  print " ok".

Lemma create_commits_unfold env dir needed :
  create_commits env dir needed
  = for_each (PyStr.sorted (keys needed)) (day_body env dir needed).
Proof. reflexivity. Qed.

Lemma days_loop env dir needed : ∀ (ks : list string) w r,
  NoDup ks →
  (∀ k, k ∈ ks → calendar_day k) →
  repos w !! dir = Some r →
  ∃ new evs,
    for_each ks (day_body env dir needed) w
    = (Return tt,
       {| repos := <[dir := Repo (branch r) (new ++ history r)]> (repos w);
          trace := trace w ++ evs |})
    ∧ ∀ day, calendar_day day →
             occurrences day (author_days new)
             = if decide (day ∈ ks) then Z.of_nat (Z.to_nat (get0 needed day))
               else 0.
Proof.
  induction ks as [|k ks IH]; intros w r Hnodup Hdays Hr.
  - exists [], []. simpl. unfold ret. split.
    + destruct w as [rs tr], r as [br h]. simpl in *.
      rewrite app_nil_r, insert_id; done.
    + intros day _. destruct (decide (day ∈ [])) as [Hin|_]; [|done].
      by apply elem_of_nil in Hin.
  - apply NoDup_cons in Hnodup as [Hk Hnodup].
    destruct (calendar_day_roundtrip k) as (g & Hg & Hshow & Hstrip & Htruthy);
      [apply Hdays; set_solver|].
    simpl. unfold bind at 1. unfold day_body at 1. unfold bind at 1.
    unfold print at 1. rewrite emit_log. unfold bind at 1.
    destruct (create_commits_for_day_ok env dir k (default 0 (needed !! k)) g
                (log (Stdout ("  " +:+ k +:+ ": +"
                              +:+ pretty (default 0 (needed !! k))
                              +:+ " commits")) w) r Hg)
      as (newk & evsk & Hrunk & Hlenk & Hallk); [done|].
    rewrite Hrunk. unfold print at 1. rewrite emit_log.
    match goal with |- context [for_each _ _ ?w1] => set (w1' := w1) end.
    destruct (IH w1' (Repo (branch r) (newk ++ history r)) Hnodup)
      as (new & evs & Hrun & Hocc).
    { intros k' Hk'. apply Hdays. set_solver. }
    { subst w1'. simpl. by rewrite lookup_insert_eq. }
    exists (new ++ newk). eexists. rewrite Hrun. subst w1'. simpl. split.
    + rewrite insert_insert_eq, <- !app_assoc. done.
    + intros day Hday. unfold author_days. rewrite fmap_app.
      rewrite occurrences_app. fold (author_days new) (author_days newk).
      rewrite (Hocc day Hday), (author_days_same g newk Hallk), Hshow.
      rewrite occurrences_replicate by done. rewrite Hlenk.
      unfold get0.
      destruct (decide (k = day)) as [->|Hne].
      * destruct (decide (day ∈ ks)) as [Hin|_]; [by destruct (Hk Hin)|].
        destruct (decide (day ∈ day :: ks)) as [_|Hnin2]; [lia|].
        exfalso. apply Hnin2, elem_of_cons. by left.
      * destruct (decide (day ∈ ks)) as [Hin|Hnin];
          destruct (decide (day ∈ k :: ks)) as [Hin2|Hnin2]; try lia.
        -- exfalso. apply Hnin2, elem_of_cons. by right.
        -- exfalso. apply elem_of_cons in Hin2 as [->|?]; done.
Qed.

Lemma elem_of_keys (m : gmap string Z) k : k ∈ keys m ↔ is_Some (m !! k).
Proof.
  unfold keys. rewrite list_elem_of_fmap. split.
  - intros ([k' v] & -> & Hin). apply elem_of_map_to_list in Hin. eauto.
  - intros [v Hv]. exists (k, v). split; [done|].
    by apply elem_of_map_to_list.
Qed.

Lemma elem_of_sorted k ks : k ∈ PyStr.sorted ks ↔ k ∈ ks.
Proof. unfold PyStr.sorted. by rewrite merge_sort_Permutation. Qed.

Lemma NoDup_sorted_keys (m : gmap string Z) : NoDup (PyStr.sorted (keys m)).
Proof.
  unfold PyStr.sorted. rewrite merge_sort_Permutation.
  apply NoDup_fst_map_to_list.
Qed.

Lemma demo_target_days day :
  is_Some (Demo.target !! day) → calendar_day day.
Proof.
  intros [v Hv]. unfold Demo.target in Hv.
  apply lookup_insert_Some in Hv as [[<- _]|[_ Hv]].
  - exists 2024, 1, 1. by vm_compute.
  - apply lookup_singleton_Some in Hv as [<- _].
    exists 2024, 1, 2. by vm_compute.
Qed.

(** C5 (as amended): the loader tallies the existing counts from the
    author date of each commit ([%ad]), printed as a calendar day in the
    offset recorded with the commit.  Every commit the emitter creates for
    a calendar day carries noon UTC of that day as both its author and its
    committer date, git prints it back as that day, and the loader counts
    it under that day. *)
Theorem author_date_bucketing env dir day count w r :
  repos w !! dir = Some r →
  calendar_day day →
  (∃ evs,
     load_existing_commits env dir w
     = (Return (tally (author_days (history r))), logs evs w))
  ∧ ∃ new w1 evs1,
      create_commits_for_day env dir day count w = (Return tt, w1)
      ∧ repos w1 !! dir = Some (Repo (branch r) (new ++ history r))
      ∧ length new = Z.to_nat count
      ∧ Forall (λ c, parse_date (noon_utc day) = Some (author_date c)
                     ∧ committer_date c = author_date c
                     ∧ show_date_ymd (author_date c) = day) new
      ∧ load_existing_commits env dir w1
        = (Return (tally (author_days (new ++ history r))), logs evs1 w1)
      ∧ get0 (tally (author_days (new ++ history r))) day
        = get0 (tally (author_days (history r))) day + Z.of_nat (length new).
Proof.
  intros Hr Hday. split; [by apply load_existing_commits_repo|].
  destruct (calendar_day_roundtrip day Hday)
    as (g & Hg & Hshow & Hstrip & Htruthy).
  destruct (create_commits_for_day_ok env dir day count g w r Hg Hr)
    as (new & evs & Hrun & Hlen & Hall).
  match type of Hrun with _ = (_, ?w1) => set (w1' := w1) in * end.
  assert (Hr1 : repos w1' !! dir = Some (Repo (branch r) (new ++ history r))).
  { subst w1'. simpl. by rewrite lookup_insert_eq. }
  destruct (load_existing_commits_repo env dir w1' _ Hr1) as [evs1 Hload].
  exists new, w1', evs1. repeat split; try done.
  - eapply Forall_impl; [exact Hall|]. simpl.
    intros c [-> ->]. done.
  - rewrite !tally_get0 by done. unfold author_days at 1.
    rewrite fmap_app, occurrences_app.
    fold (author_days new) (author_days (history r)).
    rewrite (author_days_same g new Hall), Hshow.
    rewrite occurrences_replicate by done.
    rewrite decide_True by done. lia.
Qed.

Lemma author_date_bucketing_witness :
  let w := {| repos := {[ "/home/me/mirror"%string := Repo "main" [] ]};
              trace := [] |} in
  (∃ evs,
     load_existing_commits Demo.env "/home/me/mirror" w
     = (Return (tally (author_days [])), logs evs w))
  ∧ ∃ new w1 evs1,
      create_commits_for_day Demo.env "/home/me/mirror" "2024-01-01" 3 w
      = (Return tt, w1)
      ∧ repos w1 !! "/home/me/mirror"%string = Some (Repo "main" (new ++ []))
      ∧ length new = Z.to_nat 3
      ∧ Forall (λ c, parse_date (noon_utc "2024-01-01") = Some (author_date c)
                     ∧ committer_date c = author_date c
                     ∧ show_date_ymd (author_date c) = "2024-01-01"%string) new
      ∧ load_existing_commits Demo.env "/home/me/mirror" w1
        = (Return (tally (author_days (new ++ []))), logs evs1 w1)
      ∧ get0 (tally (author_days (new ++ []))) "2024-01-01"
        = get0 (tally (author_days [])) "2024-01-01" + Z.of_nat (length new).
Proof.
  apply (author_date_bucketing Demo.env "/home/me/mirror" "2024-01-01" 3
           {| repos := {[ "/home/me/mirror"%string := Repo "main" [] ]};
              trace := [] |} (Repo "main" [])).
  - vm_compute. reflexivity.
  - exists 2024, 1, 1. vm_compute. split; reflexivity.
Defined.

(** C5, as stated, has the loader bucket by committer date.  A commit
    whose committer date was rewritten (as a rebase does) to another day
    than its author date is counted under the author day. *)
Lemma author_date_bucketing_counterexample :
  let c := Commit (GitDate 2024 1 1 12 0 0 0) (GitDate 2024 1 5 9 30 0 0)
                  "mirror: 2024-01-01 (1/1)" in
  let w := {| repos := {[ "/home/me/mirror"%string := Repo "main" [c] ]};
              trace := [] |} in
  show_date_ymd (committer_date c) = "2024-01-05"%string
  ∧ (load_existing_commits Demo.env "/home/me/mirror" w).1
    = Return {[ "2024-01-01"%string := 1 ]}.
Proof. split; by vm_compute. Qed.

(** ** Stages that touch no repository (C7, C8) *)

(** The events of the fetch stage and of the console: neither the mirror
    repository, nor a working copy, nor git is involved. *)
Definition fetch_only (e : Event) : bool :=
  match e with
  | HttpGraphqlCreatedAt _ | HttpGraphqlCalendar _ _ _
  | Stdout _ | Stderr _ => true
  | _ => false
  end.

(** A command that only appends events satisfying [P] and leaves the work
    trees alone, however it ends. *)
Definition appends_only {A} (P : Event → bool) (m : Run A) : Prop :=
  ∀ w r w', m w = (r, w') → ∃ evs, w' = logs evs w ∧ forallb P evs = true.

Lemma appends_only_ret {A} P (a : A) : appends_only P (ret a).
Proof.
  intros w r w' H. inversion H; subst. exists []. by rewrite logs_nil.
Qed.

Lemma appends_only_sys_exit {A} P c : appends_only P (@sys_exit A c).
Proof.
  intros w r w' H. inversion H; subst. exists []. by rewrite logs_nil.
Qed.

Lemma appends_only_raise {A} P e : appends_only P (@raise A e).
Proof.
  intros w r w' H. inversion H; subst. exists []. by rewrite logs_nil.
Qed.

Lemma appends_only_emit P e : P e = true → appends_only P (emit e).
Proof.
  intros He w r w' H. inversion H; subst. exists [e]. simpl.
  by rewrite He.
Qed.

Lemma appends_only_bind {A B} P (m : Run A) (k : A → Run B) :
  appends_only P m → (∀ a, appends_only P (k a)) → appends_only P (bind m k).
Proof.
  intros Hm Hk w r w' H. unfold bind in H.
  destruct (m w) as [[a|c|e] w1] eqn:Hmw.
  - destruct (Hm _ _ _ Hmw) as (evs1 & -> & H1).
    destruct (Hk a _ _ _ H) as (evs2 & -> & H2).
    exists (evs1 ++ evs2). rewrite logs_logs, forallb_app, H1, H2. done.
  - inversion H; subst. eauto.
  - inversion H; subst. eauto.
Qed.

Lemma appends_only_for_each {A} P (xs : list A) (body : A → Run unit) :
  (∀ x, appends_only P (body x)) → appends_only P (for_each xs body).
Proof.
  intros Hbody. induction xs as [|x xs IH]; simpl.
  - apply appends_only_ret.
  - apply appends_only_bind; [done|]. intros _. exact IH.
Qed.

Ltac quiet :=
  repeat match goal with
    | |- appends_only _ (ret _) => apply appends_only_ret
    | |- appends_only _ (sys_exit _) => apply appends_only_sys_exit
    | |- appends_only _ (raise _) => apply appends_only_raise
    | |- appends_only _ (emit _) => apply appends_only_emit; reflexivity
    | |- appends_only _ (print _) => unfold print
    | |- appends_only _ (eprint _) => unfold eprint
    | |- appends_only _ (for_each _ _) => apply appends_only_for_each; intros ?
    | |- appends_only _ (bind _ _) => apply appends_only_bind; [|intros ?]
    end.

Lemma appends_only_raise_for_status P status :
  appends_only P (raise_for_status status).
Proof. unfold raise_for_status. destruct (_ && _); quiet. Qed.

Lemma appends_only_date_add P d k : appends_only P (date_add d k).
Proof. unfold date_add. destruct (PyDate.add_days d k); quiet. Qed.

Lemma appends_only_graphql {A} request (resp : HttpResult (GqlBody A)) :
  fetch_only request = true → appends_only fetch_only (_graphql request resp).
Proof.
  intros Hreq. unfold _graphql.
  apply appends_only_bind; [by apply appends_only_emit|]. intros _.
  destruct resp as [status data|]; [|quiet].
  destruct (status =? 401); [quiet|].
  apply appends_only_bind; [apply appends_only_raise_for_status|]. intros _.
  destruct (gql_errors data); quiet.
Qed.

Lemma appends_only_user_not_found {A} username :
  appends_only fetch_only (@user_not_found A username).
Proof. unfold user_not_found. quiet. Qed.

Lemma appends_only_fetch_chunk env username token a b :
  appends_only fetch_only (_fetch_contributions_chunk env username token a b).
Proof.
  unfold _fetch_contributions_chunk.
  apply appends_only_bind; [by apply appends_only_graphql|].
  intros [weeks|]; [quiet|apply appends_only_user_not_found].
Qed.

Lemma appends_only_fetch_loop env login token end_ fuel :
  ∀ merged chunk_start,
    appends_only fetch_only
      (fetch_loop env fuel login token end_ merged chunk_start).
Proof.
  induction fuel as [|fuel IH]; intros merged cs; simpl;
    case_bool_decide; try solve [quiet].
  quiet.
  - apply appends_only_date_add.
  - apply appends_only_fetch_chunk.
  - apply appends_only_date_add.
  - apply IH.
Qed.

Lemma appends_only_fetch_contributions env login token start end_ :
  appends_only fetch_only (fetch_contributions env login token start end_).
Proof. apply appends_only_fetch_loop. Qed.

Lemma appends_only_fetch_user_created_at env username token :
  appends_only fetch_only (fetch_user_created_at env username token).
Proof.
  unfold fetch_user_created_at.
  apply appends_only_bind; [by apply appends_only_graphql|].
  intros [s|]; [|apply appends_only_user_not_found].
  destruct (fromisoformat _); quiet.
Qed.

Lemma appends_only_backfill_override env args_start config :
  appends_only fetch_only (backfill_override env args_start config).
Proof.
  unfold backfill_override. destruct (_ && _); quiet.
  apply appends_only_fetch_user_created_at.
Qed.

Lemma appends_only_dry_run_report contributions total :
  appends_only fetch_only (dry_run_report contributions total).
Proof. unfold dry_run_report. quiet. Qed.


Lemma appends_only_fetch_stage env args_start config :
  appends_only fetch_only (fetch_stage env args_start config).
Proof.
  unfold fetch_stage. quiet.
  - apply appends_only_backfill_override.
  - apply appends_only_fetch_contributions.
Qed.





Lemma main_after_fetch env args_start config w config' contributions w1 :
  fetch_stage env args_start config w = (Return (config', contributions), w1) →
  main env args_start config w
  = (if decide (contributions = ∅) then
       print "No contributions found in the specified date range."
     else
       print (found_message contributions) >>
       if dry_run config' then
         dry_run_report contributions (sum_values contributions)
       else
         print (checking_message config') >>
         let* remote :=
           ensure_repo_exists env (personal_username config')
             (personal_token config') (target_repo config') in
         mirror env config' contributions remote.1 remote.2) w1.
Proof. intros H. unfold main. by rewrite (bind_return _ _ _ _ _ H). Qed.


(** C8: when the fetched target map is empty the run, dry or not, prints
    one line and returns: whatever it did before was the fetch (GraphQL
    queries and console output), so the mirror repository is neither
    checked nor created and no working copy, commit or push is made. *)
Theorem empty_target_stops env args_start config w config' w1 :
  fetch_stage env args_start config w = (Return (config', ∅), w1) →
  main env args_start config w
  = (Return tt,
     log (Stdout "No contributions found in the specified date range.") w1)
  ∧ ∃ evs, w1 = logs evs w ∧ forallb fetch_only evs = true.
Proof.
  intros H. split.
  - rewrite (main_after_fetch _ _ _ _ _ _ _ H).
    destruct (decide (∅ = ∅)); done.
  - by apply (appends_only_fetch_stage env args_start config w _ _ H).
Qed.


Lemma empty_target_stops_witness :
  main Demo.idle_env None Demo.config Demo.world
  = (Return tt,
     log (Stdout "No contributions found in the specified date range.")
         (fetch_stage Demo.idle_env None Demo.config Demo.world).2)
  ∧ ∃ evs, (fetch_stage Demo.idle_env None Demo.config Demo.world).2
           = logs evs Demo.world
           ∧ forallb fetch_only evs = true.
Proof.
  apply (empty_target_stops Demo.idle_env None Demo.config Demo.world
           Demo.config).
  vm_compute. reflexivity.
Defined.


Example dry_run_demo :
  (main Demo.env None Demo.dry_config Demo.world).1 = Return tt
  ∧ trace (main Demo.env None Demo.dry_config Demo.world).2
    = [Stdout "Fetching account creation date for 'work'...";
       HttpGraphqlCreatedAt "work";
       Stdout "Backfill start: 2020-05-06";
       Stdout "Fetching contributions for 'work' from 2020-05-06 to 2024-02-04...";
       HttpGraphqlCalendar "work" (PyDate.mk 2020 5 6) (PyDate.mk 2021 5 5);
       HttpGraphqlCalendar "work" (PyDate.mk 2021 5 6) (PyDate.mk 2022 5 5);
       HttpGraphqlCalendar "work" (PyDate.mk 2022 5 6) (PyDate.mk 2023 5 5);
       HttpGraphqlCalendar "work" (PyDate.mk 2023 5 6) (PyDate.mk 2024 2 4);
       Stdout "Found 2 active days (4 total contributions).";
       Stdout (newline +:+ "[dry-run] Contribution delta (target counts):");
       Stdout "  2024-01-01: 3";
       Stdout "  2024-01-02: 1";
       Stdout (newline +:+ "[dry-run] Would create up to 4 commits across 2 days.")].
Proof. split; by vm_compute. Qed.

(** ** The run that finds nothing to do (C9) *)

(** Events that add to a history or publish one: creating a commit,
    pushing, and the commands that bring a history in. *)
Definition writes (e : Event) : bool :=
  match e with
  | Subprocess _ (GitCommitAllowEmpty _ _ _)
  | Subprocess _ (GitPush _ _)
  | Subprocess _ (GitPullRebase _)
  | Subprocess _ (GitClone _ _)
  | Subprocess _ (GitInit _)
  | HttpCreateRepo _ => true
  | _ => false
  end.

Definition writes_nothing (e : Event) : bool := negb (writes e).

(** Loading the existing counts always returns, runs only [rev-parse]
    and [log], and changes no work tree. *)
Lemma load_existing_commits_reads env dir w :
  ∃ existing evs,
    load_existing_commits env dir w = (Return existing, logs evs w)
    ∧ forallb writes_nothing evs = true.
Proof.
  unfold load_existing_commits, bind, subprocess_run, run_git, bind,
    subprocess_run.
  simpl. destruct (repos w !! dir) as [r|] eqn:Hr; simpl.
  - destruct (history r) as [|c h] eqn:Hh; simpl.
    + exists ∅, [Subprocess (Some dir) GitRevParseVerifyHead]. done.
    + rewrite Hr. simpl. rewrite Hh. simpl. eexists _, [_; _].
      unfold ret, logs. simpl. rewrite <- app_assoc. done.
  - exists ∅, [Subprocess (Some dir) GitRevParseVerifyHead]. done.
Qed.

Lemma reconcile_up_to_date env config contributions dir w existing w1 :
  load_existing_commits env dir w = (Return existing, w1) →
  compute_needed contributions existing = ∅ →
  reconcile env config contributions dir w
  = (Return tt, log (Stdout "Mirror is already up to date.") w1).
Proof.
  intros Hload Hneeded. unfold reconcile.
  rewrite (bind_return _ _ _ _ _ Hload).
  destruct (decide (compute_needed contributions existing = ∅)); done.
Qed.

(** The [finally] block returns; it removes the transient directory, or
    prints where it was kept, or does nothing. *)
Lemma main_finally_cases config dir w :
  let temp_dir := match local_dir config with
                  | None => Some dir
                  | Some _ => None
                  end in
  ∃ cleanup w',
    main_finally config (Some dir) temp_dir w = (Return tt, w')
    ∧ trace w' = trace w ++ cleanup
    ∧ forallb writes_nothing cleanup = true
    ∧ repos w'
      = if bool_decide (local_dir config = None) && negb (keep_repo config)
        then delete dir (repos w) else repos w.
Proof.
  unfold main_finally. destruct (local_dir config) as [d|]; simpl.
  - exists [], w. rewrite app_nil_r. done.
  - destruct (keep_repo config); simpl.
    + eexists [_], _. unfold print. rewrite emit_log. done.
    + eexists [_], _. unfold rmtree. done.
Qed.

Lemma mirror_returns env config contributions url has w dir w1 w2 :
  prepare_local_repo env (local_dir config) url has (personal_username config)
    (target_repo config) (personal_token config) w = (Return dir, w1) →
  reconcile env config contributions dir w1 = (Return tt, w2) →
  ∃ cleanup w3,
    mirror env config contributions url has w = (Return tt, w3)
    ∧ trace w3 = trace w2 ++ cleanup
    ∧ forallb writes_nothing cleanup = true
    ∧ repos w3
      = if bool_decide (local_dir config = None) && negb (keep_repo config)
        then delete dir (repos w2) else repos w2.
Proof.
  intros Hprep Hrec. unfold mirror. rewrite Hprep.
  unfold try_finally, except_KeyboardInterrupt. rewrite Hrec.
  destruct (main_finally_cases config dir w2)
    as (cleanup & w3 & Hfin & Htrace & Hquiet & Hrepos).
  simpl in Hfin. rewrite Hfin. eauto 10.
Qed.

Lemma main_to_mirror env args_start config w config' contributions w1 remote w2 :
  fetch_stage env args_start config w = (Return (config', contributions), w1) →
  contributions ≠ ∅ →
  dry_run config' = false →
  (print (found_message contributions) >>
   print (checking_message config') >>
   ensure_repo_exists env (personal_username config') (personal_token config')
                      (target_repo config')) w1 = (Return remote, w2) →
  main env args_start config w
  = mirror env config' contributions remote.1 remote.2 w2.
Proof.
  intros Hfetch Hne Hdry Hrepo.
  rewrite (main_after_fetch _ _ _ _ _ _ _ Hfetch).
  destruct (decide (contributions = ∅)); [done|]. rewrite Hdry.
  revert Hrepo. unfold bind, print. rewrite !emit_log.
  destruct (ensure_repo_exists _ _ _ _ _) as [[a|?|?] w']; [|done..].
  intros H. inversion H; subst. done.
Qed.

(** A commit or a push: the two commands that add to a history, the
    local one and the remote one. *)
Definition commits_or_pushes (e : Event) : bool :=
  match e with
  | Subprocess _ (GitCommitAllowEmpty _ _ _) | Subprocess _ (GitPush _ _) =>
      true
  | _ => false
  end.

Definition no_commit_no_push (e : Event) : bool := negb (commits_or_pushes e).

(** A command all of whose events satisfy [P], however it ends and
    whatever it does to the work trees. *)
Definition emits_only {A} (P : Event → bool) (m : Run A) : Prop :=
  ∀ w r w', m w = (r, w') →
    ∃ evs, trace w' = trace w ++ evs ∧ forallb P evs = true.

Section EmitsOnly.

Context (P : Event → bool).

Lemma emits_only_ret {A} (a : A) : emits_only P (ret a).
Proof.
  intros w r w' H. inversion H; subst. exists []. by rewrite app_nil_r.
Qed.

Lemma emits_only_sys_exit {A} c : emits_only P (@sys_exit A c).
Proof.
  intros w r w' H. inversion H; subst. exists []. by rewrite app_nil_r.
Qed.

Lemma emits_only_raise {A} e : emits_only P (@raise A e).
Proof.
  intros w r w' H. inversion H; subst. exists []. by rewrite app_nil_r.
Qed.

Lemma emits_only_emit e : P e = true → emits_only P (emit e).
Proof.
  intros He w r w' H. inversion H; subst. exists [e]. simpl.
  by rewrite He.
Qed.

Lemma emits_only_bind {A B} (m : Run A) (k : A → Run B) :
  emits_only P m → (∀ a, emits_only P (k a)) → emits_only P (bind m k).
Proof.
  intros Hm Hk w r w' H. unfold bind in H.
  destruct (m w) as [[a|c|e] w1] eqn:Hmw.
  - destruct (Hm _ _ _ Hmw) as (evs1 & Ht1 & Hp1).
    destruct (Hk a _ _ _ H) as (evs2 & Ht2 & Hp2).
    exists (evs1 ++ evs2). rewrite Ht2, Ht1, <- app_assoc.
    split; [done|]. by rewrite forallb_app, Hp1, Hp2.
  - inversion H; subst. by apply (Hm _ _ _ Hmw).
  - inversion H; subst. by apply (Hm _ _ _ Hmw).
Qed.

Lemma emits_only_subprocess_run env cmd cwd :
  P (Subprocess cwd cmd) = true → emits_only P (subprocess_run env cmd cwd).
Proof.
  intros Hcmd w r w' H. unfold subprocess_run in H. simpl in H.
  destruct (git_exec env cmd cwd (repos w)) as [[out rs]|];
    inversion H; subst; simpl; eexists [_]; simpl; by rewrite Hcmd.
Qed.

Lemma appends_only_emits_only {A} (Q : Event → bool) (m : Run A) :
  (∀ e, Q e = true → P e = true) → appends_only Q m → emits_only P m.
Proof.
  intros HQP Hm w r w' H. destruct (Hm _ _ _ H) as (evs & -> & Hevs).
  exists evs. split; [done|].
  apply forallb_forall. intros e He. apply HQP.
  by apply (proj1 (forallb_forall _ _) Hevs).
Qed.

End EmitsOnly.

Ltac emits_tac :=
  repeat match goal with
    | |- emits_only _ (ret _) => apply emits_only_ret
    | |- emits_only _ (sys_exit _) => apply emits_only_sys_exit
    | |- emits_only _ (raise _) => apply emits_only_raise
    | |- emits_only _ (emit _) => apply emits_only_emit; reflexivity
    | |- emits_only _ (print _) => unfold print
    | |- emits_only _ (eprint _) => unfold eprint
    | |- emits_only _ (subprocess_run _ _ _) =>
        apply emits_only_subprocess_run; reflexivity
    | |- emits_only _ (bind _ _) => apply emits_only_bind; [|intros ?]
    | |- emits_only _ (match ?x with _ => _ end) => destruct x
    | |- emits_only _ (if ?x then _ else _) => destruct x
    end.

(** Neither the check of the remote repository nor the preparation of
    the working copy commits or pushes. *)
Lemma ensure_repo_exists_no_commit env user token repo :
  emits_only no_commit_no_push (ensure_repo_exists env user token repo).
Proof. unfold ensure_repo_exists, raise_for_status. emits_tac. Qed.

Lemma configure_git_no_commit env dir :
  emits_only no_commit_no_push (configure_git env dir).
Proof. unfold configure_git, run_git. emits_tac. Qed.

Lemma has_history_no_commit env has user repo token :
  emits_only no_commit_no_push
    (por has (_repo_has_remote_commits env user repo token)).
Proof. unfold por, _repo_has_remote_commits, raise_for_status. emits_tac. Qed.

Lemma clone_or_init_no_commit env url has user repo token dir :
  emits_only no_commit_no_push (clone_or_init env url has user repo token dir).
Proof.
  unfold clone_or_init.
  apply emits_only_bind; [apply has_history_no_commit|]. intros flag.
  apply emits_only_bind.
  - destruct flag; unfold run_git; emits_tac.
  - intros _. apply emits_only_bind; [apply configure_git_no_commit|].
    intros _. apply emits_only_ret.
Qed.

Lemma prepare_local_repo_no_commit env local url has user repo token :
  emits_only no_commit_no_push
    (prepare_local_repo env local url has user repo token).
Proof.
  unfold prepare_local_repo. destruct local as [d|].
  - apply emits_only_bind; [by apply emits_only_emit|]. intros _.
    apply emits_only_bind; [by apply emits_only_subprocess_run|].
    intros [o|]; [|apply clone_or_init_no_commit].
    apply emits_only_bind.
    + apply emits_only_bind; [apply has_history_no_commit|].
      intros [|]; unfold run_git; emits_tac.
    + intros _. apply emits_only_bind; [apply configure_git_no_commit|].
      intros _. apply emits_only_ret.
  - apply emits_only_bind; [by apply emits_only_emit|]. intros _.
    apply clone_or_init_no_commit.
Qed.

Lemma writes_nothing_no_commit e :
  writes_nothing e = true → no_commit_no_push e = true.
Proof.
  unfold writes_nothing, no_commit_no_push.
  destruct e as [| | | | | | | |cwd cmd| | |]; try done. by destruct cmd.
Qed.

Lemma fetch_only_no_commit e :
  fetch_only e = true → no_commit_no_push e = true.
Proof. by destruct e. Qed.

(** C9 (as amended): a run that reaches the delta and finds it empty
    returns normally, and from its first event to its last it neither
    commits nor pushes.  What it does to the working copy it does while
    preparing it (the remote repository may be created, the copy cloned,
    initialised or pulled); from then on only the two read-only commands
    of the loader run, with console output, and the work trees are left as
    prepared, except that a working copy in a temporary directory is
    removed at the end unless it is to be kept. *)
Theorem up_to_date_no_write env args_start config w
    config' contributions w1 remote w2 dir w3 existing w4 :
  fetch_stage env args_start config w = (Return (config', contributions), w1) →
  contributions ≠ ∅ →
  dry_run config' = false →
  (print (found_message contributions) >>
   print (checking_message config') >>
   ensure_repo_exists env (personal_username config') (personal_token config')
                      (target_repo config')) w1 = (Return remote, w2) →
  prepare_local_repo env (local_dir config') remote.1 remote.2
    (personal_username config') (target_repo config') (personal_token config')
    w2 = (Return dir, w3) →
  load_existing_commits env dir w3 = (Return existing, w4) →
  compute_needed contributions existing = ∅ →
  ∃ before after w5,
    main env args_start config w = (Return tt, w5)
    ∧ trace w3 = trace w ++ before
    ∧ trace w5 = trace w3 ++ after
    ∧ forallb no_commit_no_push (before ++ after) = true
    ∧ forallb writes_nothing after = true
    ∧ Stdout "Mirror is already up to date." ∈ after
    ∧ repos w4 = repos w3
    ∧ repos w5
      = if bool_decide (local_dir config' = None) && negb (keep_repo config')
        then delete dir (repos w3) else repos w3.
Proof.
  intros Hfetch Hne Hdry Hrepo Hprep Hload Hneeded.
  rewrite (main_to_mirror _ _ _ _ _ _ _ _ _ Hfetch Hne Hdry Hrepo).
  pose proof (reconcile_up_to_date env config' _ _ _ _ _ Hload Hneeded) as Hrec.
  destruct (mirror_returns _ _ _ _ _ _ _ _ _ Hprep Hrec)
    as (cleanup & w5 & Hmirror & Htrace & Hquiet & Hrepos).
  destruct (load_existing_commits_reads env dir w3)
    as (existing' & evs & Hload' & Hevs).
  rewrite Hload in Hload'. inversion Hload'; subst existing' w4.
  assert (Hbefore : ∃ before, trace w3 = trace w ++ before
                              ∧ forallb no_commit_no_push before = true).
  { destruct (appends_only_emits_only no_commit_no_push fetch_only _
                fetch_only_no_commit
                (appends_only_fetch_stage env args_start config) _ _ _ Hfetch)
      as (evs1 & Ht1 & Hp1).
    assert (Hens : emits_only no_commit_no_push
              (print (found_message contributions) >>
               print (checking_message config') >>
               ensure_repo_exists env (personal_username config')
                 (personal_token config') (target_repo config'))).
    { emits_tac. apply ensure_repo_exists_no_commit. }
    destruct (Hens _ _ _ Hrepo) as (evs2 & Ht2 & Hp2).
    destruct (prepare_local_repo_no_commit _ _ _ _ _ _ _ _ _ _ Hprep)
      as (evs3 & Ht3 & Hp3).
    exists (evs1 ++ evs2 ++ evs3).
    rewrite Ht3, Ht2, Ht1, <- !app_assoc. split; [done|].
    by rewrite !forallb_app, Hp1, Hp2, Hp3. }
  destruct Hbefore as (before & Hbefore & Hpb).
  set (after := evs ++ Stdout "Mirror is already up to date." :: cleanup).
  assert (Hafter : forallb writes_nothing after = true).
  { subst after. rewrite forallb_app, Hevs. simpl. done. }
  exists before, after, w5.
  split; [done|]. split; [done|]. split; [|split; [|split; [|split; [|split]]]].
  - rewrite Htrace. subst after. simpl. by rewrite <- !app_assoc.
  - rewrite forallb_app, Hpb. simpl.
    apply forallb_forall. intros e He. apply writes_nothing_no_commit.
    by apply (proj1 (forallb_forall _ _) Hafter).
  - done.
  - subst after. apply elem_of_app. right. apply elem_of_cons. by left.
  - done.
  - done.
Qed.

Lemma up_to_date_no_write_witness :
  let env := Demo.mirrored_env in
  let config := Demo.config in
  let w1 := (fetch_stage env None config Demo.mirrored_world).2 in
  let w2 := ((print (found_message Demo.target) >>
              print (checking_message config) >>
              ensure_repo_exists env "me" "token" "mirror") w1).2 in
  let w3 := (prepare_local_repo env (Some "/home/me/mirror"%string)
               "https://token@github.com/me/mirror.git" true
               "me" "mirror" "token" w2).2 in
  let w4 := (load_existing_commits env "/home/me/mirror" w3).2 in
  ∃ before after w5,
    main env None config Demo.mirrored_world = (Return tt, w5)
    ∧ trace w3 = trace Demo.mirrored_world ++ before
    ∧ trace w5 = trace w3 ++ after
    ∧ forallb no_commit_no_push (before ++ after) = true
    ∧ forallb writes_nothing after = true
    ∧ Stdout "Mirror is already up to date." ∈ after
    ∧ repos w4 = repos w3
    ∧ repos w5
      = if bool_decide (local_dir config = None) && negb (keep_repo config)
        then delete "/home/me/mirror"%string (repos w3) else repos w3.
Proof.
  intros env config w1 w2 w3 w4.
  apply (up_to_date_no_write env None config Demo.mirrored_world
           config Demo.target w1
           ("https://token@github.com/me/mirror.git"%string, true) w2
           "/home/me/mirror"%string w3 Demo.target w4).
  - vm_compute. reflexivity.
  - vm_compute. discriminate.
  - reflexivity.
  - vm_compute. reflexivity.
  - vm_compute. reflexivity.
  - vm_compute. reflexivity.
  - vm_compute. reflexivity.
Defined.

(** A working copy that is behind its remote. *)
Module Behind.

Definition stale : repo :=
  Repo "main"
    [Commit (Demo.noon 2024 1 1) (Demo.noon 2024 1 1)
       "mirror: 2024-01-01 (1/3)"].

Definition world : World :=
  {| repos := {[ "/home/me/mirror"%string := stale ]}; trace := [] |}.

(** The service of [Demo.mirrored_env]; a pull brings the remote's
    history. *)
Definition env : Env := {|
  graphql_created_at := graphql_created_at Demo.mirrored_env;
  graphql_calendar := graphql_calendar Demo.mirrored_env;
  rest_get_repo := rest_get_repo Demo.mirrored_env;
  rest_create_repo := rest_create_repo Demo.mirrored_env;
  rest_list_commits := rest_list_commits Demo.mirrored_env;
  mkdtemp_path := mkdtemp_path Demo.mirrored_env;
  clone_result := clone_result Demo.mirrored_env;
  pull_result := λ _, Some Demo.mirrored;
  push_ok := push_ok Demo.mirrored_env;
  stdin_answer := stdin_answer Demo.mirrored_env
|}.

End Behind.

(** C9, as stated, fails: the delta is computed after the working copy
    was prepared, and preparing it may change it.  Here the persistent
    working copy holds one mirror commit and the remote four; the pull
    brings the copy up to the remote, the delta is empty, and the run
    returns after "Mirror is already up to date." without a commit or a
    push, yet the working copy is not what it was. *)
Lemma up_to_date_no_write_counterexample :
  let dir := "/home/me/mirror"%string in
  let run := main Behind.env None Demo.config Behind.world in
  run.1 = Return tt
  ∧ last (trace run.2) = Some (Stdout "Mirror is already up to date.")
  ∧ forallb no_commit_no_push (trace run.2) = true
  ∧ existsb (λ e, match e with
                  | Subprocess _ (GitPullRebase _) => true
                  | _ => false
                  end) (trace run.2) = true
  ∧ repos Behind.world !! dir = Some Behind.stale
  ∧ repos run.2 !! dir = Some Demo.mirrored
  ∧ compute_needed Demo.target (tally (author_days (history Demo.mirrored)))
    = ∅
  ∧ Behind.stale ≠ Demo.mirrored.
Proof.
  simpl.
  split; [by vm_compute|]. split; [by vm_compute|]. split; [by vm_compute|].
  split; [by vm_compute|]. split; [by vm_compute|]. split; [by vm_compute|].
  split; [by vm_compute|]. discriminate.
Qed.

(** ** Idempotence (C1) *)

(** C1: on a working copy, for a target map keyed by calendar days: the
    loader returns the existing counts, the emitter creates the commits of
    the delta computed from them, and the delta recomputed from the
    resulting working copy is empty.  A second pass of the reconcile stage
    over that working copy therefore runs only the loader, reports that
    the mirror is up to date and returns: it creates no commit. *)
Theorem reconcile_idempotent env dir (target : gmap string Z) w r :
  repos w !! dir = Some r →
  (∀ day, is_Some (target !! day) → calendar_day day) →
  ∃ existing w1 w2 existing' w3,
    load_existing_commits env dir w = (Return existing, w1)
    ∧ create_commits env dir (compute_needed target existing) w1
      = (Return tt, w2)
    ∧ load_existing_commits env dir w2 = (Return existing', w3)
    ∧ compute_needed target existing' = ∅
    ∧ (∀ day, compute_needed target existing' !! day = None)
    ∧ ∀ env2 config, ∃ evs,
        reconcile env2 config target dir w2
        = (Return tt, logs (evs ++ [Stdout "Mirror is already up to date."]) w2)
        ∧ forallb writes_nothing evs = true.
Proof.
  intros Hr Hdays.
  destruct (load_existing_commits_repo env dir w r Hr) as [evs1 Hload1].
  set (existing := tally (author_days (history r))) in *.
  set (needed := compute_needed target existing).
  assert (Hneeded_days : ∀ k, k ∈ PyStr.sorted (keys needed) → calendar_day k).
  { intros k Hk. apply elem_of_sorted, elem_of_keys in Hk as [v Hv].
    apply Hdays. subst needed. rewrite compute_needed_lookup in Hv.
    destruct (target !! k); [eauto|done]. }
  destruct (days_loop env dir needed (PyStr.sorted (keys needed))
              (logs evs1 w) r (NoDup_sorted_keys needed) Hneeded_days Hr)
    as (new & evs2 & Hcreate & Hocc).
  match type of Hcreate with _ = (_, ?w2) => set (w2' := w2) in * end.
  destruct (load_existing_commits_repo env dir w2'
              (Repo (branch r) (new ++ history r))) as [evs3 Hload2].
  { subst w2'. simpl. by rewrite lookup_insert_eq. }
  assert (Hempty : compute_needed target
                     (tally (author_days (new ++ history r))) = ∅).
  2:{ exists existing, (logs evs1 w), w2',
        (tally (author_days (new ++ history r))), (logs evs3 w2').
      split; [exact Hload1|]. split; [exact Hcreate|].
      split; [exact Hload2|]. split; [exact Hempty|]. split.
      { intros day. rewrite Hempty. apply lookup_empty. }
      intros env2 config.
      destruct (load_existing_commits_reads env2 dir w2')
        as (existing2 & evs & Hload3 & Hevs).
      destruct (load_existing_commits_repo env2 dir w2'
                  (Repo (branch r) (new ++ history r))) as [evs' Hload3'].
      { subst w2'. simpl. by rewrite lookup_insert_eq. }
      rewrite Hload3 in Hload3'. inversion Hload3'; subst existing2.
      exists evs. split; [|done].
      rewrite (reconcile_up_to_date env2 config _ _ _ _ _ Hload3 Hempty).
      by rewrite <- logs_logs. }
  apply map_eq. intros day.
  rewrite lookup_empty, compute_needed_lookup.
  destruct (target !! day) as [t|] eqn:Ht; simpl; [|done].
  assert (Hday : calendar_day day) by (apply Hdays; eauto).
  destruct (calendar_day_roundtrip day Hday) as (_ & _ & _ & _ & Htruthy).
  rewrite tally_get0 by done.
  unfold author_days. rewrite fmap_app, occurrences_app.
  fold (author_days new) (author_days (history r)).
  rewrite (Hocc day Hday), <- (tally_get0 _ _ Htruthy).
  fold existing.
  destruct (decide (day ∈ PyStr.sorted (keys needed))) as [Hin|Hnin].
  - apply elem_of_sorted, elem_of_keys in Hin as [v Hv].
    unfold get0 at 1. rewrite Hv. simpl.
    subst needed. rewrite compute_needed_lookup, Ht in Hv. simpl in Hv.
    destruct (0 <? t - get0 existing day) eqn:E; [|done].
    apply Z.ltb_lt in E. inversion Hv; subst.
    rewrite (proj2 (Z.ltb_ge _ _)) by lia. done.
  - rewrite elem_of_sorted, elem_of_keys in Hnin.
    subst needed. rewrite compute_needed_lookup, Ht in Hnin. simpl in Hnin.
    destruct (0 <? t - get0 existing day) eqn:E.
    + exfalso. apply Hnin. eauto.
    + apply Z.ltb_ge in E. rewrite (proj2 (Z.ltb_ge _ _)) by lia. done.
Qed.

Lemma reconcile_idempotent_witness :
  let w := {| repos := {[ "/home/me/mirror"%string := Repo "main" [] ]};
              trace := [] |} in
  ∃ existing w1 w2 existing' w3,
    load_existing_commits Demo.env "/home/me/mirror" w = (Return existing, w1)
    ∧ create_commits Demo.env "/home/me/mirror"
        (compute_needed Demo.target existing) w1
      = (Return tt, w2)
    ∧ load_existing_commits Demo.env "/home/me/mirror" w2
      = (Return existing', w3)
    ∧ compute_needed Demo.target existing' = ∅
    ∧ (∀ day, compute_needed Demo.target existing' !! day = None)
    ∧ ∀ env2 config, ∃ evs,
        reconcile env2 config Demo.target "/home/me/mirror" w2
        = (Return tt, logs (evs ++ [Stdout "Mirror is already up to date."]) w2)
        ∧ forallb writes_nothing evs = true.
Proof.
  apply (reconcile_idempotent Demo.env "/home/me/mirror" Demo.target
           {| repos := {[ "/home/me/mirror"%string := Repo "main" [] ]};
              trace := [] |} (Repo "main" [])).
  - vm_compute. reflexivity.
  - apply demo_target_days.
Defined.

Example scenario_a_history :
  let w := {| repos := {[ "/home/me/mirror"%string := Repo "main" [] ]};
              trace := [] |} in
  repos (create_commits Demo.env "/home/me/mirror"
           (compute_needed Demo.target ∅) w).2
  = {[ "/home/me/mirror"%string := Demo.mirrored ]}.
Proof. by vm_compute. Qed.

(** ** Clone or initialise (C6) *)

(** A command that extends the trace, whatever else it does. *)
Definition extends_trace {A} (m : Run A) : Prop :=
  ∀ w r w', m w = (r, w') → ∃ evs, trace w' = trace w ++ evs.

Lemma extends_trace_ret {A} (a : A) : extends_trace (ret a).
Proof. intros w r w' H. inversion H; subst. exists []. by rewrite app_nil_r. Qed.

Lemma extends_trace_sys_exit {A} c : extends_trace (@sys_exit A c).
Proof. intros w r w' H. inversion H; subst. exists []. by rewrite app_nil_r. Qed.

Lemma extends_trace_raise {A} e : extends_trace (@raise A e).
Proof. intros w r w' H. inversion H; subst. exists []. by rewrite app_nil_r. Qed.

Lemma extends_trace_emit e : extends_trace (emit e).
Proof. intros w r w' H. inversion H; subst. by exists [e]. Qed.

Lemma extends_trace_bind {A B} (m : Run A) (k : A → Run B) :
  extends_trace m → (∀ a, extends_trace (k a)) → extends_trace (bind m k).
Proof.
  intros Hm Hk w r w' H. unfold bind in H.
  destruct (m w) as [[a|c|e] w1] eqn:Hmw.
  - destruct (Hm _ _ _ Hmw) as [evs1 H1].
    destruct (Hk a _ _ _ H) as [evs2 H2].
    exists (evs1 ++ evs2). by rewrite H2, H1, app_assoc.
  - inversion H; subst. eauto.
  - inversion H; subst. eauto.
Qed.

Lemma extends_trace_subprocess_run env cmd cwd :
  extends_trace (subprocess_run env cmd cwd).
Proof.
  intros w r w' H. unfold subprocess_run in H. simpl in H.
  destruct (git_exec env cmd cwd (repos w)) as [[out rs]|];
    inversion H; subst; simpl; eauto.
Qed.

Ltac extends :=
  repeat match goal with
    | |- extends_trace (ret _) => apply extends_trace_ret
    | |- extends_trace (sys_exit _) => apply extends_trace_sys_exit
    | |- extends_trace (raise _) => apply extends_trace_raise
    | |- extends_trace (emit _) => apply extends_trace_emit
    | |- extends_trace (print _) => unfold print
    | |- extends_trace (eprint _) => unfold eprint
    | |- extends_trace (subprocess_run _ _ _) =>
        apply extends_trace_subprocess_run
    | |- extends_trace (bind _ _) => apply extends_trace_bind; [|intros ?]
    | |- extends_trace (match ?x with _ => _ end) => destruct x
    end.

Lemma extends_trace_run_git env cmd cwd : extends_trace (run_git env cmd cwd).
Proof. unfold run_git. extends. Qed.

Lemma extends_trace_configure_git env dir : extends_trace (configure_git env dir).
Proof. unfold configure_git. extends; apply extends_trace_run_git. Qed.

(** The first event a command appends, when it starts with [e]. *)
Lemma starts_with {A B} (e : Event) (m : Run A) (k : A → Run B) w :
  (∀ r w', m w = (r, w') → ∃ evs, trace w' = trace w ++ e :: evs) →
  (∀ a, extends_trace (k a)) →
  ∀ r w', bind m k w = (r, w') → ∃ evs, trace w' = trace w ++ e :: evs.
Proof.
  intros Hm Hk r w' H. unfold bind in H.
  destruct (m w) as [[a|c|x] w1] eqn:Hmw.
  - destruct (Hm _ _ eq_refl) as [evs1 H1].
    destruct (Hk a _ _ _ H) as [evs2 H2].
    exists (evs1 ++ evs2). rewrite H2, H1, <- app_assoc. done.
  - inversion H; subst. eauto.
  - inversion H; subst. eauto.
Qed.

Lemma subprocess_run_first env cmd cwd w r w' :
  subprocess_run env cmd cwd w = (r, w') →
  ∃ evs, trace w' = trace w ++ Subprocess cwd cmd :: evs.
Proof.
  unfold subprocess_run. simpl.
  destruct (git_exec env cmd cwd (repos w)) as [[out rs]|];
    intros H; inversion H; subst; simpl; by exists [].
Qed.

Lemma run_git_first env cmd cwd w r w' :
  run_git env cmd cwd w = (r, w') →
  ∃ evs, trace w' = trace w ++ Subprocess (Some cwd) cmd :: evs.
Proof.
  unfold run_git. apply starts_with.
  - apply subprocess_run_first.
  - intros [out|]; extends.
Qed.

(** The clone-or-init decision as an event. *)
Definition decision (flag : bool) (url dir : string) : Event :=
  if flag then Subprocess None (GitClone url dir)
  else Subprocess (Some dir) (GitInit "main").

Lemma clone_or_init_decides env url heuristic user repo token dir w flag w1 :
  por heuristic (_repo_has_remote_commits env user repo token) w
  = (Return flag, w1) →
  ∃ r w' evs,
    clone_or_init env url heuristic user repo token dir w = (r, w')
    ∧ trace w' = trace w1 ++ decision flag url dir :: evs.
Proof.
  intros Hflag. unfold clone_or_init.
  rewrite (bind_return _ _ _ _ _ Hflag).
  match goal with |- context [bind ?m ?k w1] =>
    destruct (bind m k w1) as [r w'] eqn:Hrun end.
  assert (Htail : ∀ a : unit,
            extends_trace (configure_git env dir >> ret dir)).
  { intros _. extends. apply extends_trace_configure_git. }
  assert (Hfirst : ∃ evs, trace w' = trace w1 ++ decision flag url dir :: evs).
  { revert Hrun. destruct flag; simpl.
    - apply (starts_with (Subprocess None (GitClone url dir))); [|done].
      apply starts_with; [apply subprocess_run_first|].
      intros [out|]; extends.
    - apply (starts_with (Subprocess (Some dir) (GitInit "main"))); [|done].
      apply starts_with; [apply run_git_first|].
      intros _. extends; apply extends_trace_run_git. }
  destruct Hfirst as [evs Hevs]. exists r, w', evs. done.
Qed.

(** The authoritative check as the specification words it: the listing
    shows history unless it answers with the conflict status of an empty
    repository (409) or with not found (404), or lists no commit. *)
Definition listing_has_history (status : Z) (commits : Json) : bool :=
  if (status =? 409) || (status =? 404) then false
  else match commits with
       | JList (_ :: _) => true
       | _ => false
       end.

Lemma repo_has_remote_commits_answer env user repo token w status commits :
  rest_list_commits env user repo = Responded status commits →
  status = 409 ∨ status = 404 ∨ ¬ (400 <= status < 600) →
  _repo_has_remote_commits env user repo token w
  = (Return (listing_has_history status commits),
     log (HttpListCommits user repo) w).
Proof.
  intros Hresp Hstatus. unfold _repo_has_remote_commits, listing_has_history.
  unfold bind at 1. rewrite emit_log, Hresp.
  destruct (status =? 409) eqn:E409; [done|].
  destruct (status =? 404) eqn:E404; [done|].
  apply Z.eqb_neq in E409, E404.
  unfold bind, raise_for_status.
  rewrite (proj2 (andb_false_iff _ _)).
  - unfold ret. simpl. do 2 f_equal.
    destruct commits as [| | | |[|x xs]|]; done.
  - destruct (decide (400 <= status)).
    + right. apply Z.ltb_ge. lia.
    + left. apply Z.leb_gt. lia.
Qed.

(** C6: the flag that decides between clone and init is the heuristic OR
    the authoritative listing check.  A true heuristic settles it without
    a listing request; a false one falls back to the listing, where 409
    and 404 count as no history.  For an existing repository the
    heuristic is the one [ensure_repo_exists] reads off the metadata.  The first command after the flag is
    known is the clone when the flag is true and the init when it is
    false, and both ways into this decision from [prepare_local_repo]
    (a transient directory, or a persistent one that is not a work tree
    yet) run it. *)
Theorem has_history_is_or env url heuristic user repo token dir w :
  (heuristic = true →
   por heuristic (_repo_has_remote_commits env user repo token) w
   = (Return true, w))
  ∧ (heuristic = false → ∀ status commits,
       rest_list_commits env user repo = Responded status commits →
       status = 409 ∨ status = 404 ∨ ¬ (400 <= status < 600) →
       por heuristic (_repo_has_remote_commits env user repo token) w
       = (Return (heuristic || listing_has_history status commits),
          log (HttpListCommits user repo) w))
  ∧ (∀ commits, listing_has_history 409 commits = false
                ∧ listing_has_history 404 commits = false)
  ∧ (∀ data,
       rest_get_repo env user repo = Responded 200 data →
       ensure_repo_exists env user token repo w
       = (Return (remote_url_of token user repo, metadata_has_commits data),
          log (HttpGetRepo user repo) w))
  ∧ (∀ flag w1,
       por heuristic (_repo_has_remote_commits env user repo token) w
       = (Return flag, w1) →
       ∃ r w' evs,
         clone_or_init env url heuristic user repo token dir w = (r, w')
         ∧ trace w' = trace w1 ++ decision flag url dir :: evs)
  ∧ prepare_local_repo env None url heuristic user repo token w
    = clone_or_init env url heuristic user repo token (mkdtemp_path env)
        (log (Mkdtemp (mkdtemp_path env)) w)
  ∧ (repos w !! dir = None →
     prepare_local_repo env (Some dir) url heuristic user repo token w
     = clone_or_init env url heuristic user repo token dir
         (log (Subprocess (Some dir) GitIsInsideWorkTree) (log (Mkdir dir) w))).
Proof.
  split; [by intros ->|]. split.
  { intros -> status commits Hresp Hstatus. simpl.
    by apply repo_has_remote_commits_answer. }
  split; [done|]. split.
  { intros data Hdata. unfold ensure_repo_exists, bind.
    by rewrite emit_log, Hdata. }
  split.
  { intros flag w1. apply clone_or_init_decides. }
  split; [done|].
  intros Hdir. unfold prepare_local_repo.
  unfold bind at 1. rewrite emit_log.
  unfold bind at 1, subprocess_run. simpl. rewrite Hdir. simpl. done.
Qed.

Example empty_remote_is_initialised :
  trace (prepare_local_repo Demo.env None
           "https://token@github.com/me/mirror.git" false
           "me" "mirror" "token" Demo.world).2
  = [Mkdtemp "/tmp/copiar-demo";
     HttpListCommits "me" "mirror";
     Subprocess (Some "/tmp/copiar-demo"%string) (GitInit "main");
     Subprocess (Some "/tmp/copiar-demo"%string)
       (GitRemoteAdd "origin" "https://token@github.com/me/mirror.git");
     Subprocess (Some "/tmp/copiar-demo"%string)
       (GitConfig "user.name" "copiar");
     Subprocess (Some "/tmp/copiar-demo"%string)
       (GitConfig "user.email" "copiar@users.noreply.github.com")].
Proof. by vm_compute. Qed.

Example listed_remote_is_cloned :
  trace (prepare_local_repo Demo.mirrored_env None
           "https://token@github.com/me/mirror.git" false
           "me" "mirror" "token" Demo.world).2
  = [Mkdtemp "/tmp/copiar-demo";
     HttpListCommits "me" "mirror";
     Subprocess None
       (GitClone "https://token@github.com/me/mirror.git" "/tmp/copiar-demo");
     Subprocess (Some "/tmp/copiar-demo"%string)
       (GitConfig "user.name" "copiar");
     Subprocess (Some "/tmp/copiar-demo"%string)
       (GitConfig "user.email" "copiar@users.noreply.github.com")].
Proof. by vm_compute. Qed.

Example heuristic_short_circuits :
  trace (prepare_local_repo Demo.mirrored_env None
           "https://token@github.com/me/mirror.git" true
           "me" "mirror" "token" Demo.world).2
  = [Mkdtemp "/tmp/copiar-demo";
     Subprocess None
       (GitClone "https://token@github.com/me/mirror.git" "/tmp/copiar-demo");
     Subprocess (Some "/tmp/copiar-demo"%string)
       (GitConfig "user.name" "copiar");
     Subprocess (Some "/tmp/copiar-demo"%string)
       (GitConfig "user.email" "copiar@users.noreply.github.com")].
Proof. by vm_compute. Qed.


(** * Further properties of the code *)

(** * Further properties of the code *)

(** ** The fetcher *)

Lemma bind_Return_inv {A B} (m : Run A) (k : A → Run B) w b w' :
  bind m k w = (Return b, w') →
  ∃ a w1, m w = (Return a, w1) ∧ k a w1 = (Return b, w').
Proof.
  unfold bind. destruct (m w) as [[a|c|e] w1]; [eauto|done..].
Qed.

Lemma chunk_plan_length end_ fuel : ∀ chunk_start,
  chunk_start <= end_ →
  (Z.to_nat (end_ - chunk_start + 1) <= fuel)%nat →
  length (chunk_plan fuel end_ chunk_start)
  = Z.to_nat ((end_ - chunk_start) / 365 + 1).
Proof.
  induction fuel as [|fuel IH]; intros cs Hle Hfuel; [lia|].
  simpl. rewrite bool_decide_eq_true_2 by done.
  destruct (decide (end_ <= cs + 364)) as [Hlast|Hmore].
  - rewrite Z.min_l by done. simpl.
    destruct fuel; simpl; rewrite bool_decide_eq_false_2 by lia; simpl;
      rewrite Z.div_small by lia; done.
  - rewrite Z.min_r by lia. simpl. rewrite IH by lia.
    replace (end_ - cs) with (end_ - (cs + 364 + 1) + 1 * 365) by lia.
    rewrite Z.div_add by lia.
    assert (0 <= (end_ - (cs + 364 + 1)) / 365) by (apply Z.div_pos; lia).
    lia.
Qed.

(** The number of queries: one per started block of 365 days. *)
Theorem fetch_contributions_query_count env login token start end_ w :
  calendar_ok env login →
  0 < start → start <= end_ → end_ + 364 <= PyDate.MAXORDINAL →
  ∃ merged ws,
    fetch_contributions env login token start end_ w
    = (Return merged, logs (query login <$> ws) w)
    ∧ length ws = Z.to_nat ((end_ - start) / 365 + 1).
Proof.
  intros Hok Hpos Hle Hmax. unfold fetch_contributions.
  destruct (fetch_loop_ok env login token end_ Hok Hmax
              (Z.to_nat (end_ - start + 1)) ∅ start w Hpos ltac:(lia))
    as [merged Hrun].
  exists merged, (chunk_plan (Z.to_nat (end_ - start + 1)) end_ start).
  split; [done|]. apply chunk_plan_length; lia.
Qed.

Lemma fetch_contributions_query_count_witness :
  ∃ merged ws,
    fetch_contributions Demo.env "work" "token"
      (PyDate.mk 2020 1 1) (PyDate.mk 2024 2 4) Demo.world
    = (Return merged, logs (query "work" <$> ws) Demo.world)
    ∧ length ws
      = Z.to_nat ((PyDate.mk 2024 2 4 - PyDate.mk 2020 1 1) / 365 + 1).
Proof.
  apply (fetch_contributions_query_count Demo.env "work" "token"
           (PyDate.mk 2020 1 1) (PyDate.mk 2024 2 4) Demo.world).
  - intros a b. vm_compute. eauto.
  - vm_compute. reflexivity.
  - vm_compute. discriminate.
  - vm_compute. discriminate.
Defined.

Lemma graphql_Return_inv {A} request (resp : HttpResult (GqlBody A)) w u w' :
  _graphql request resp w = (Return u, w') →
  reply_ok resp = u ∧ w' = log request w.
Proof.
  unfold _graphql, reply_ok, bind, eprint, emit, sys_exit, raise, ret,
    raise_for_status, log.
  destruct resp as [status data|]; [|done].
  destruct (status =? 401); simpl; [done|].
  destruct ((400 <=? status) && (status <? 600)); simpl; [done|].
  destruct (gql_errors data); simpl; [done|].
  intros H. inversion H; subst. done.
Qed.

Lemma fetch_chunk_Return_inv env login token a b w chunk w' :
  _fetch_contributions_chunk env login token a b w = (Return chunk, w') →
  ∃ weeks, reply_ok (graphql_calendar env login a b) = Some weeks
           ∧ chunk = collect_days weeks
           ∧ w' = log (HttpGraphqlCalendar login a b) w.
Proof.
  unfold _fetch_contributions_chunk. intros H.
  apply bind_Return_inv in H as (u & w1 & Hg & Hk).
  apply graphql_Return_inv in Hg as (Hu & ->).
  destruct u as [weeks|].
  - inversion Hk; subst. eauto.
  - unfold user_not_found, bind, eprint, emit, sys_exit in Hk. done.
Qed.

Lemma date_add_Return_inv d k w d' w' :
  date_add d k w = (Return d', w') → d' = d + k ∧ w' = w.
Proof.
  unfold date_add, PyDate.add_days.
  destruct ((0 <? d + k) && (d + k <=? PyDate.MAXORDINAL));
    intros H; inversion H; done.
Qed.

(** One step of the loop, read backwards from a normal return. *)
Lemma fetch_loop_Return_inv env fuel login token end_ merged cs w merged' w' :
  fetch_loop env (S fuel) login token end_ merged cs w = (Return merged', w') →
  cs <= end_ →
  ∃ weeks,
    reply_ok (graphql_calendar env login cs (Z.min end_ (cs + 364)))
    = Some weeks
    ∧ fetch_loop env fuel login token end_ (collect_days weeks ∪ merged)
        (Z.min end_ (cs + 364) + 1)
        (log (HttpGraphqlCalendar login cs (Z.min end_ (cs + 364))) w)
      = (Return merged', w').
Proof.
  simpl. intros H Hle. rewrite bool_decide_eq_true_2 in H by done.
  apply bind_Return_inv in H as (later & w1 & Hadd & H).
  apply date_add_Return_inv in Hadd as [-> ->].
  apply bind_Return_inv in H as (chunk & w2 & Hchunk & H).
  apply fetch_chunk_Return_inv in Hchunk as (weeks & Hweeks & -> & ->).
  apply bind_Return_inv in H as (next & w3 & Hadd & H).
  apply date_add_Return_inv in Hadd as [-> ->].
  eauto.
Qed.

(** What a normal return of the loop tells: every window it queried was
    answered, and every entry added to [merged] comes from one of the
    replies. *)
Lemma fetch_loop_Return env login token end_ fuel :
  ∀ merged cs w merged' w',
    fetch_loop env fuel login token end_ merged cs w = (Return merged', w') →
    ∃ ws,
      w' = logs (query login <$> ws) w
      ∧ Forall (λ win, is_Some (reply_ok (graphql_calendar env login
                                            win.1 win.2))) ws
      ∧ ∀ day v, merged' !! day = Some v →
          merged !! day = Some v
          ∨ ∃ win weeks,
              win ∈ ws
              ∧ reply_ok (graphql_calendar env login win.1 win.2) = Some weeks
              ∧ collect_days weeks !! day = Some v.
Proof.
  induction fuel as [|fuel IH]; intros merged cs w merged' w' Hrun.
  - simpl in Hrun. case_bool_decide; [done|]. inversion Hrun; subst.
    exists []. rewrite logs_nil. split; [done|]. split; [done|]. eauto.
  - destruct (decide (cs <= end_)) as [Hle|Hgt].
    + apply fetch_loop_Return_inv in Hrun as (weeks & Hweeks & Hrun); [|done].
      apply IH in Hrun as (ws & -> & Hall & Hfrom).
      exists ((cs, Z.min end_ (cs + 364)) :: ws). split; [|split].
      * by rewrite logs_log.
      * constructor; [simpl; by rewrite Hweeks|done].
      * intros day v Hday. destruct (Hfrom day v Hday) as [Hm|Hw].
        -- apply lookup_union_Some_raw in Hm as [Hc|[_ Hm]]; [|by left].
           right. exists (cs, Z.min end_ (cs + 364)), weeks.
           split; [apply elem_of_cons; by left|done].
        -- right. destruct Hw as (win & weeks' & Hin & Hw).
           exists win, weeks'. split; [apply elem_of_cons; by right|done].
    + simpl in Hrun. rewrite bool_decide_eq_false_2 in Hrun by done.
      inversion Hrun; subst.
      exists []. rewrite logs_nil. split; [done|]. split; [done|]. eauto.
Qed.

(** No partial results: when the fetcher returns a map, every window it
    queried was answered with a calendar, nothing else was done, and every
    entry of the map was reported by one of those windows. *)
Theorem fetch_contributions_no_partial env login token start end_ w merged w' :
  fetch_contributions env login token start end_ w = (Return merged, w') →
  ∃ ws,
    w' = logs (query login <$> ws) w
    ∧ Forall (λ win, is_Some (reply_ok (graphql_calendar env login
                                          win.1 win.2))) ws
    ∧ ∀ day v, merged !! day = Some v →
        ∃ win weeks,
          win ∈ ws
          ∧ reply_ok (graphql_calendar env login win.1 win.2) = Some weeks
          ∧ collect_days weeks !! day = Some v.
Proof.
  intros Hrun. apply fetch_loop_Return in Hrun as (ws & -> & Hall & Hfrom).
  exists ws. split; [done|]. split; [done|].
  intros day v Hday. destruct (Hfrom day v Hday) as [Hempty|Hw]; [|done].
  by rewrite lookup_empty in Hempty.
Qed.

Lemma fetch_contributions_no_partial_witness :
  let run := fetch_contributions Demo.env "work" "token"
               (PyDate.mk 2023 1 1) (PyDate.mk 2024 2 4) Demo.world in
  ∃ ws,
    run.2 = logs (query "work" <$> ws) Demo.world
    ∧ Forall (λ win, is_Some (reply_ok (graphql_calendar Demo.env "work"
                                          win.1 win.2))) ws
    ∧ ∀ day v, Demo.target !! day = Some v →
        ∃ win weeks,
          win ∈ ws
          ∧ reply_ok (graphql_calendar Demo.env "work" win.1 win.2)
            = Some weeks
          ∧ collect_days weeks !! day = Some v.
Proof.
  apply (fetch_contributions_no_partial Demo.env "work" "token"
           (PyDate.mk 2023 1 1) (PyDate.mk 2024 2 4) Demo.world Demo.target).
  vm_compute. reflexivity.
Defined.

(** The inner loops of a chunk, as one pass over the days of all weeks. *)
Definition collect_step (result : gmap string Z) (day_data : string * Z)
  : gmap string Z :=
  if 0 <? day_data.2 then <[day_data.1 := day_data.2]> result else result.

Lemma collect_days_concat weeks :
  collect_days weeks = foldl collect_step ∅ (concat weeks).
Proof.
  unfold collect_days. generalize (∅ : gmap string Z).
  induction weeks as [|week weeks IH]; intros acc; simpl; [done|].
  rewrite foldl_app. apply IH.
Qed.

Lemma foldl_collect_step_lookup days : ∀ acc day v,
  foldl collect_step acc days !! day = Some v →
  acc !! day = Some v ∨ ((day, v) ∈ days ∧ 0 < v).
Proof.
  induction days as [|[d c] days IH]; intros acc day v H; simpl in *;
    [by left|].
  apply IH in H as [H|[Hin Hpos]].
  - unfold collect_step in H. simpl in H.
    destruct (0 <? c) eqn:E; [|by left].
    apply lookup_insert_Some in H as [[<- <-]|[_ H]]; [|by left].
    right. split; [apply elem_of_cons; by left|by apply Z.ltb_lt].
  - right. split; [apply elem_of_cons; by right|done].
Qed.

(** Days without contributions are left out: every entry a chunk reports
    is a day of the reply with its count, and the count is positive. *)
Lemma collect_days_lookup weeks day v :
  collect_days weeks !! day = Some v → (day, v) ∈ concat weeks ∧ 0 < v.
Proof.
  rewrite collect_days_concat. intros H.
  apply foldl_collect_step_lookup in H as [H|H]; [|done].
  by rewrite lookup_empty in H.
Qed.

(** Every count in a fetched map is strictly positive. *)
Theorem fetch_contributions_positive env login token start end_ w merged w' :
  fetch_contributions env login token start end_ w = (Return merged, w') →
  map_Forall (λ _ v, 0 < v) merged.
Proof.
  intros Hrun day v Hday.
  apply fetch_loop_Return in Hrun as (ws & _ & _ & Hfrom).
  destruct (Hfrom day v Hday) as [Hempty|(win & weeks & _ & _ & Hw)].
  - by rewrite lookup_empty in Hempty.
  - by apply collect_days_lookup in Hw as [_ ?].
Qed.

Lemma fetch_contributions_positive_witness :
  map_Forall (λ _ v, 0 < v) Demo.target.
Proof.
  apply (fetch_contributions_positive Demo.env "work" "token"
           (PyDate.mk 2023 1 1) (PyDate.mk 2024 2 4) Demo.world Demo.target
           (fetch_contributions Demo.env "work" "token"
              (PyDate.mk 2023 1 1) (PyDate.mk 2024 2 4) Demo.world).2).
  vm_compute. reflexivity.
Defined.

(** ** Repository management *)


Lemma run_git_Return_inv env cmd dir w out w' :
  run_git env cmd dir w = (Return out, w') →
  ∃ rs, git_exec env cmd (Some dir) (repos w) = Some (out, rs)
        ∧ w' = {| repos := rs; trace := trace w ++ [Subprocess (Some dir) cmd] |}.
Proof.
  unfold run_git, bind, subprocess_run, eprint, emit, sys_exit, ret. simpl.
  destruct (git_exec env cmd (Some dir) (repos w)) as [[o rs]|]; simpl;
    intros H; inversion H; subst; eauto.
Qed.

Lemma configure_git_Return_inv env dir w w' :
  configure_git env dir w = (Return tt, w') →
  is_Some (repos w !! dir)
  ∧ w' = logs [Subprocess (Some dir) (GitConfig "user.name" "copiar");
               Subprocess (Some dir)
                 (GitConfig "user.email" "copiar@users.noreply.github.com")] w.
Proof.
  unfold configure_git. intros H.
  apply bind_Return_inv in H as (o1 & w1 & H1 & H).
  apply bind_Return_inv in H as (o2 & w2 & H2 & H).
  inversion H; subst.
  apply run_git_Return_inv in H1 as (rs1 & Hx1 & ->).
  apply run_git_Return_inv in H2 as (rs2 & Hx2 & ->).
  simpl in *. destruct (repos w !! dir) as [r|] eqn:Hr; simpl in *; [|done].
  inversion Hx1; subst. rewrite Hr in Hx2. simpl in Hx2.
  inversion Hx2; subst. split; [eauto|].
  unfold logs. simpl. by rewrite <- app_assoc.
Qed.

Definition configured (dir : string) : list Event :=
  [Subprocess (Some dir) (GitConfig "user.name" "copiar");
   Subprocess (Some dir)
     (GitConfig "user.email" "copiar@users.noreply.github.com")].

Lemma clone_or_init_Return_inv env url has user repo token dir w d w' :
  clone_or_init env url has user repo token dir w = (Return d, w') →
  d = dir ∧ is_Some (repos w' !! dir)
  ∧ ∃ evs, trace w' = trace w ++ evs ++ configured dir.
Proof.
  unfold clone_or_init. intros H.
  apply bind_Return_inv in H as (flag & w1 & Hflag & H).
  apply bind_Return_inv in H as (u & w2 & Hstep & H).
  apply bind_Return_inv in H as (u' & w3 & Hcfg & H).
  inversion H; subst. destruct u'.
  apply configure_git_Return_inv in Hcfg as [Hsome ->].
  split; [done|]. split; [done|].
  assert (Hflag' : extends_trace
            (por has (_repo_has_remote_commits env user repo token))).
  { unfold por, _repo_has_remote_commits. destruct has; extends.
    unfold raise_for_status. extends. }
  destruct (Hflag' _ _ _ Hflag) as [evs1 H1].
  assert (Hstep' : ∃ evs2, trace w2 = trace w1 ++ evs2).
  { revert Hstep. destruct flag.
    - apply extends_trace_bind; [apply extends_trace_subprocess_run|].
      intros [o|]; extends.
    - apply extends_trace_bind; [apply extends_trace_run_git|]. intros _.
      apply extends_trace_bind; [apply extends_trace_run_git|]. intros _.
      extends. }
  destruct Hstep' as [evs2 H2].
  exists (evs1 ++ evs2). simpl. rewrite H2, H1, <- !app_assoc. done.
Qed.

Lemma prepare_local_repo_Return_inv env local url has user repo token w dir w' :
  prepare_local_repo env local url has user repo token w = (Return dir, w') →
  dir = default (mkdtemp_path env) local
  ∧ is_Some (repos w' !! dir)
  ∧ ∃ evs, trace w' = trace w ++ evs ++ configured dir.
Proof.
  unfold prepare_local_repo. destruct local as [d|]; simpl; intros H.
  - apply bind_Return_inv in H as (u & w1 & Hmk & H).
    inversion Hmk; subst.
    apply bind_Return_inv in H as (check & w2 & Hcheck & H).
    assert (Hw2 : trace w2
                  = trace w ++ [Mkdir d; Subprocess (Some d) GitIsInsideWorkTree]).
    { destruct (extends_trace_subprocess_run env GitIsInsideWorkTree
                  (Some d) _ _ _ Hcheck) as [evs Hevs].
      revert Hcheck Hevs. unfold subprocess_run. simpl.
      destruct (repos w !! d) as [r|]; simpl; intros Hc _; inversion Hc;
        subst; simpl; by rewrite <- app_assoc. }
    destruct check as [o|].
    + apply bind_Return_inv in H as (u1 & w3 & Hpull & H).
      apply bind_Return_inv in H as (u2 & w4 & Hcfg & H).
      inversion H; subst. destruct u2.
      apply configure_git_Return_inv in Hcfg as [Hsome ->].
      split; [done|]. split; [done|].
      assert (Hpull' : ∃ evs, trace w3 = trace w2 ++ evs).
      { revert Hpull.
        apply extends_trace_bind.
        - unfold por, _repo_has_remote_commits. destruct has; extends.
          unfold raise_for_status. extends.
        - intros [|]; extends. apply extends_trace_run_git. }
      destruct Hpull' as [evs Hevs].
      exists ([Mkdir dir; Subprocess (Some dir) GitIsInsideWorkTree] ++ evs).
      simpl. rewrite Hevs, Hw2, <- !app_assoc. done.
    + apply clone_or_init_Return_inv in H as (-> & Hsome & evs & Hevs).
      split; [done|]. split; [done|].
      exists ([Mkdir d; Subprocess (Some d) GitIsInsideWorkTree] ++ evs).
      rewrite Hevs, Hw2, <- !app_assoc. done.
  - apply bind_Return_inv in H as (u & w1 & Hmk & H).
    inversion Hmk; subst.
    apply clone_or_init_Return_inv in H as (-> & Hsome & evs & Hevs).
    split; [done|]. split; [done|].
    exists (Mkdtemp (mkdtemp_path env) :: evs).
    rewrite Hevs. simpl. rewrite <- !app_assoc. done.
Qed.

(** "Always configures git": whenever [prepare_local_repo] returns, it
    returns the persistent directory if one was given and the fresh
    temporary directory otherwise, that directory is a git work tree, and
    the last two commands run were the two identity settings. *)
Theorem prepare_local_repo_returns env local url has user repo token w dir w' :
  prepare_local_repo env local url has user repo token w = (Return dir, w') →
  dir = default (mkdtemp_path env) local
  ∧ is_Some (repos w' !! dir)
  ∧ ∃ evs, trace w' = trace w ++ evs ++ configured dir.
Proof. apply prepare_local_repo_Return_inv. Qed.

Lemma prepare_local_repo_returns_witness :
  let run := prepare_local_repo Demo.env (Some "/home/me/mirror"%string)
               "https://token@github.com/me/mirror.git" false
               "me" "mirror" "token" Demo.world in
  "/home/me/mirror"%string
  = default (mkdtemp_path Demo.env) (Some "/home/me/mirror"%string)
  ∧ is_Some (repos run.2 !! "/home/me/mirror"%string)
  ∧ ∃ evs, trace run.2
           = trace Demo.world ++ evs ++ configured "/home/me/mirror".
Proof.
  apply (prepare_local_repo_returns Demo.env (Some "/home/me/mirror"%string)
           "https://token@github.com/me/mirror.git" false
           "me" "mirror" "token" Demo.world "/home/me/mirror"%string).
  vm_compute. reflexivity.
Defined.

(** Further concrete services. *)
Module Demo2.

(** The commit listing is broken. *)
Definition broken_env : Env := {|
  graphql_created_at := graphql_created_at Demo.env;
  graphql_calendar := graphql_calendar Demo.env;
  rest_get_repo := rest_get_repo Demo.mirrored_env;
  rest_create_repo := rest_create_repo Demo.env;
  rest_list_commits := λ _ _, Responded 500 JNull;
  mkdtemp_path := mkdtemp_path Demo.env;
  clone_result := clone_result Demo.mirrored_env;
  pull_result := pull_result Demo.env;
  push_ok := push_ok Demo.env;
  stdin_answer := stdin_answer Demo.env
|}.

(** The remote rejects the push and the operator answers no. *)
Definition rejecting_env : Env := {|
  graphql_created_at := graphql_created_at Demo.env;
  graphql_calendar := graphql_calendar Demo.env;
  rest_get_repo := rest_get_repo Demo.env;
  rest_create_repo := rest_create_repo Demo.env;
  rest_list_commits := rest_list_commits Demo.env;
  mkdtemp_path := mkdtemp_path Demo.env;
  clone_result := clone_result Demo.env;
  pull_result := λ _, None;
  push_ok := λ _, false;
  stdin_answer := Line " No "
|}.

Definition empty_copy : World :=
  {| repos := {[ "/home/me/mirror"%string := Repo "main" [] ]}; trace := [] |}.

End Demo2.

(** A listing that fails with an error status other than 409 and 404 is
    not read as an empty repository: the preparation raises right after
    the listing request, and nothing is cloned or initialised. *)
Theorem listing_failure_aborts env url user repo token w status body :
  rest_list_commits env user repo = Responded status body →
  400 <= status < 600 → status ≠ 409 → status ≠ 404 →
  prepare_local_repo env None url false user repo token w
  = (Raise (HTTPError status),
     logs [Mkdtemp (mkdtemp_path env); HttpListCommits user repo] w).
Proof.
  intros Hresp Hrange H409 H404.
  unfold prepare_local_repo, clone_or_init, por, _repo_has_remote_commits,
    bind, emit, raise_for_status, raise, logs. simpl.
  rewrite Hresp.
  rewrite (proj2 (Z.eqb_neq _ _) H409), (proj2 (Z.eqb_neq _ _) H404).
  rewrite (proj2 (Z.leb_le _ _)) by lia.
  rewrite (proj2 (Z.ltb_lt _ _)) by lia. simpl.
  by rewrite <- app_assoc.
Qed.

Lemma listing_failure_aborts_witness :
  prepare_local_repo Demo2.broken_env None
    "https://token@github.com/me/mirror.git" false "me" "mirror" "token"
    Demo.world
  = (Raise (HTTPError 500),
     logs [Mkdtemp (mkdtemp_path Demo2.broken_env);
           HttpListCommits "me" "mirror"] Demo.world).
Proof.
  apply (listing_failure_aborts Demo2.broken_env
           "https://token@github.com/me/mirror.git" "me" "mirror" "token"
           Demo.world 500 JNull).
  - reflexivity.
  - lia.
  - lia.
  - lia.
Defined.

Lemma has_history_flag_keeps_repos env has user repo token w flag w1 :
  por has (_repo_has_remote_commits env user repo token) w = (Return flag, w1) →
  repos w1 = repos w.
Proof.
  unfold por, _repo_has_remote_commits, bind, emit, raise_for_status, raise,
    ret.
  destruct has; [by intros H; inversion H|].
  destruct (rest_list_commits env user repo) as [status commits|]; [|done].
  destruct (status =? 409); [by intros H; inversion H|].
  destruct (status =? 404); [by intros H; inversion H|].
  destruct ((400 <=? status) && (status <? 600)); [done|].
  by intros H; inversion H.
Qed.

(** The reuse path: a persistent directory that is already a work tree is
    neither cloned into nor initialised.  It is pulled with rebase exactly
    when the has-history flag is true; a failed pull ends the run with
    exit code 1 before the identity is configured. *)
Theorem prepare_local_repo_reuse env dir url has user repo token w r flag w1 :
  repos w !! dir = Some r →
  por has (_repo_has_remote_commits env user repo token)
      (logs [Mkdir dir; Subprocess (Some dir) GitIsInsideWorkTree] w)
  = (Return flag, w1) →
  prepare_local_repo env (Some dir) url has user repo token w
  = if flag then
      match pull_result env r with
      | Some r' =>
          (Return dir,
           {| repos := <[dir := r']> (repos w);
              trace := trace w1
                       ++ Subprocess (Some dir) (GitPullRebase "origin")
                          :: configured dir |})
      | None =>
          (SysExit 1,
           {| repos := repos w;
              trace := trace w1
                       ++ [Subprocess (Some dir) (GitPullRebase "origin");
                           Stderr "git failed"] |})
      end
    else (Return dir, logs (configured dir) w1).
Proof.
  intros Hr Hflag.
  pose proof (has_history_flag_keeps_repos _ _ _ _ _ _ _ _ Hflag) as Hrepos.
  simpl in Hrepos.
  unfold prepare_local_repo. unfold bind at 1. rewrite emit_log.
  unfold bind at 1, subprocess_run. simpl. rewrite Hr. simpl.
  unfold bind at 1. unfold bind at 1.
  unfold logs in Hflag. simpl in Hflag. unfold log. simpl.
  rewrite <- app_assoc. simpl. rewrite Hflag.
  destruct w1 as [rs1 tr1]. simpl in Hrepos. subst rs1.
  destruct flag.
  - unfold bind at 1, run_git, bind at 1, subprocess_run. simpl.
    rewrite Hr. simpl.
    destruct (pull_result env r) as [r'|]; simpl.
    + unfold configure_git, bind, run_git, bind, subprocess_run, ret. simpl.
      rewrite lookup_insert_eq. simpl. rewrite lookup_insert_eq. simpl.
      rewrite <- !app_assoc. done.
    + unfold bind, eprint, emit, sys_exit. simpl.
      rewrite <- !app_assoc. done.
  - unfold configure_git, bind, run_git, bind, subprocess_run, ret, logs.
    simpl. rewrite Hr. simpl. rewrite Hr. simpl.
    rewrite <- !app_assoc. done.
Qed.

Lemma prepare_local_repo_reuse_witness :
  prepare_local_repo Demo2.rejecting_env (Some "/home/me/mirror"%string)
    "https://token@github.com/me/mirror.git" true "me" "mirror" "token"
    Demo.mirrored_world
  = (SysExit 1,
     {| repos := repos Demo.mirrored_world;
        trace := [Mkdir "/home/me/mirror";
                  Subprocess (Some "/home/me/mirror"%string) GitIsInsideWorkTree]
                 ++ [Subprocess (Some "/home/me/mirror"%string)
                       (GitPullRebase "origin");
                     Stderr "git failed"] |}).
Proof.
  apply (prepare_local_repo_reuse Demo2.rejecting_env "/home/me/mirror"
           "https://token@github.com/me/mirror.git" true "me" "mirror" "token"
           Demo.mirrored_world Demo.mirrored true
           (logs [Mkdir "/home/me/mirror";
                  Subprocess (Some "/home/me/mirror"%string)
                    GitIsInsideWorkTree] Demo.mirrored_world)).
  - vm_compute. reflexivity.
  - reflexivity.
Defined.

(** ** Loading and creating commits *)

(** A directory that is not a work tree, or a work tree without commits,
    has no existing counts: the failing [rev-parse --verify HEAD] is not
    an error, the map is empty and [git log] is never run. *)
Theorem load_existing_commits_no_head env dir w :
  match repos w !! dir with
  | Some r => history r = []
  | None => True
  end →
  load_existing_commits env dir w
  = (Return ∅, log (Subprocess (Some dir) GitRevParseVerifyHead) w).
Proof.
  intros H. unfold load_existing_commits, bind, subprocess_run. simpl.
  destruct (repos w !! dir) as [r|]; simpl; [|done].
  rewrite H. done.
Qed.

Lemma load_existing_commits_no_head_witness :
  load_existing_commits Demo.env "/home/me/mirror" Demo2.empty_copy
  = (Return ∅,
     log (Subprocess (Some "/home/me/mirror"%string) GitRevParseVerifyHead)
         Demo2.empty_copy).
Proof.
  apply (load_existing_commits_no_head Demo.env "/home/me/mirror"
           Demo2.empty_copy).
  vm_compute. reflexivity.
Defined.

Lemma sum_permutation (xs ys : list Z) :
  xs ≡ₚ ys → foldr Z.add 0 xs = foldr Z.add 0 ys.
Proof. induction 1; simpl; lia. Qed.

Lemma sum_values_insert_fresh (m : gmap string Z) k v :
  m !! k = None → sum_values (<[k := v]> m) = v + sum_values m.
Proof.
  intros Hk. unfold sum_values.
  rewrite (sum_permutation _ (v :: (map_to_list m).*2)); [done|].
  by rewrite map_to_list_insert.
Qed.

Lemma sum_values_insert (m : gmap string Z) k v :
  sum_values (<[k := v]> m) = sum_values m - get0 m k + v.
Proof.
  unfold get0. destruct (m !! k) as [old|] eqn:Hk; simpl.
  - rewrite <- (insert_delete_eq m k v).
    rewrite <- (insert_delete_id m k old Hk) at 2.
    rewrite !sum_values_insert_fresh by apply lookup_delete_eq. lia.
  - rewrite sum_values_insert_fresh by done. lia.
Qed.

Definition counted (line : string) : bool := PyStr.truthy (PyStr.strip line).

Lemma foldl_tally_step_sum lines : ∀ counts,
  sum_values (foldl tally_step counts lines)
  = sum_values counts + Z.of_nat (length (filter (λ l, counted l = true) lines)).
Proof.
  induction lines as [|line lines IH]; intros counts; simpl; [lia|].
  rewrite IH. rewrite filter_cons.
  destruct (decide (counted line = true)) as [E|E]; unfold counted in E.
  - unfold tally_step. rewrite E, sum_values_insert.
    unfold get0. simpl length. lia.
  - unfold tally_step. apply not_true_is_false in E. rewrite E. lia.
Qed.

Lemma foldl_tally_step_positive lines : ∀ counts,
  map_Forall (λ _ v, 0 < v) counts →
  map_Forall (λ _ v, 0 < v) (foldl tally_step counts lines).
Proof.
  induction lines as [|line lines IH]; intros counts Hpos; simpl; [done|].
  apply IH. unfold tally_step.
  destruct (PyStr.truthy (PyStr.strip line)); [|done].
  apply map_Forall_insert_2; [|done].
  destruct (counts !! PyStr.strip line) as [v|] eqn:Hv; simpl; [|lia].
  specialize (Hpos _ _ Hv). simpl in Hpos. lia.
Qed.

Lemma tally_blank (lines : list string) : tally lines !! ""%string = None.
Proof.
  rewrite tally_foldl.
  generalize (lookup_empty (M:=gmap string) (A:=Z) ""%string).
  generalize (∅ : gmap string Z).
  induction lines as [|line lines IH]; intros counts Hc; simpl; [done|].
  apply IH. unfold tally_step.
  destruct (PyStr.strip line) as [|c s] eqn:E; simpl; [done|].
  by rewrite lookup_insert_ne.
Qed.

(** The counting loop loses no line: the counts add up to the number of
    non-blank lines, every count is positive, and the blank key never
    appears. *)
Theorem tally_total (lines : list string) :
  sum_values (tally lines)
  = Z.of_nat (length (filter (λ l, counted l = true) lines))
  ∧ map_Forall (λ _ v, 0 < v) (tally lines)
  ∧ tally lines !! ""%string = None.
Proof.
  split; [|split].
  - rewrite tally_foldl, foldl_tally_step_sum. unfold sum_values.
    rewrite map_to_list_empty. simpl. lia.
  - rewrite tally_foldl. apply foldl_tally_step_positive.
    apply map_Forall_empty.
  - apply tally_blank.
Qed.

(** The commit command [create_commits_for_day] runs for index [i]. *)
Definition commit_command (day : string) (count i : Z) : GitCmd :=
  GitCommitAllowEmpty (commit_message day i count) (noon_utc day) (noon_utc day).

Lemma commit_loop_exact env dir day count g :
  parse_date (noon_utc day) = Some g →
  ∀ (indices : list Z) w r,
    repos w !! dir = Some r →
    for_each indices
      (λ i, run_git env (commit_command day count i) dir >> ret tt) w
    = (Return tt,
       {| repos :=
            <[dir := Repo (branch r)
                       (reverse ((λ i, Commit g g (commit_message day i count))
                                 <$> indices) ++ history r)]> (repos w);
          trace := trace w
                   ++ ((λ i, Subprocess (Some dir) (commit_command day count i))
                       <$> indices) |}).
Proof.
  intros Hg. induction indices as [|i indices IH]; intros w r Hr.
  - simpl. unfold ret. destruct w as [rs tr], r as [br h]. simpl in *.
    rewrite app_nil_r, insert_id; done.
  - simpl. unfold bind at 1. unfold bind at 1. unfold commit_command at 1.
    rewrite (run_git_commit env dir _ _ g w r Hg Hr). unfold ret at 1.
    erewrite IH; [|simpl; by rewrite lookup_insert_eq].
    simpl. rewrite insert_insert_eq, reverse_cons, <- !app_assoc. done.
Qed.

Lemma create_commits_for_day_exact env dir day count w r g :
  repos w !! dir = Some r →
  parse_date (noon_utc day) = Some g →
  create_commits_for_day env dir day count w
  = (Return tt,
     {| repos :=
          <[dir := Repo (branch r)
                     (reverse ((λ i, Commit g g (commit_message day i count))
                               <$> seqZ 0 count) ++ history r)]> (repos w);
        trace := trace w
                 ++ ((λ i, Subprocess (Some dir) (commit_command day count i))
                     <$> seqZ 0 count) |}).
Proof.
  intros Hr Hg. by apply (commit_loop_exact env dir day count g Hg).
Qed.

(** For a day git can read, exactly [count] commits are appended to the
    history of the working copy: commit [i] of [count] has the message
    "mirror: <day> (i/count)" and noon UTC of the day as both dates, and
    one [git commit --allow-empty] is run per commit, in that order.  No
    other work tree changes. *)
Theorem create_commits_for_day_history env dir day count w r g :
  repos w !! dir = Some r →
  parse_date (noon_utc day) = Some g →
  create_commits_for_day env dir day count w
  = (Return tt,
     {| repos :=
          <[dir := Repo (branch r)
                     (reverse ((λ i, Commit g g (commit_message day i count))
                               <$> seqZ 0 count) ++ history r)]> (repos w);
        trace := trace w
                 ++ ((λ i, Subprocess (Some dir) (commit_command day count i))
                     <$> seqZ 0 count) |}).
Proof.
  intros Hr Hg. by apply create_commits_for_day_exact.
Qed.

Lemma create_commits_for_day_history_witness :
  create_commits_for_day Demo.env "/home/me/mirror" "2024-01-02" 2
    Demo2.empty_copy
  = (Return tt,
     {| repos :=
          <["/home/me/mirror"%string :=
              Repo "main"
                (reverse ((λ i, Commit (Demo.noon 2024 1 2) (Demo.noon 2024 1 2)
                                  (commit_message "2024-01-02" i 2))
                          <$> seqZ 0 2) ++ [])]> (repos Demo2.empty_copy);
        trace := trace Demo2.empty_copy
                 ++ ((λ i, Subprocess (Some "/home/me/mirror"%string)
                             (commit_command "2024-01-02" 2 i))
                     <$> seqZ 0 2) |}).
Proof.
  apply (create_commits_for_day_history Demo.env "/home/me/mirror"
           "2024-01-02" 2 Demo2.empty_copy (Repo "main" [])
           (Demo.noon 2024 1 2)).
  - vm_compute. reflexivity.
  - vm_compute. reflexivity.
Defined.

Example commit_messages_numbered :
  (λ i, commit_message "2024-01-02" i 3) <$> seqZ 0 3
  = ["mirror: 2024-01-02 (1/3)"; "mirror: 2024-01-02 (2/3)";
     "mirror: 2024-01-02 (3/3)"]%string.
Proof. by vm_compute. Qed.

(** [range(count)] is empty for a count of zero or less: nothing is run
    and nothing changes, whatever the day is. *)
Theorem create_commits_for_day_nothing env dir day count w :
  count <= 0 →
  create_commits_for_day env dir day count w = (Return tt, w).
Proof.
  intros Hcount. unfold create_commits_for_day.
  replace (seqZ 0 count) with (@nil Z); [done|].
  unfold seqZ. by replace (Z.to_nat count) with 0%nat by lia.
Qed.

Lemma create_commits_for_day_nothing_witness :
  create_commits_for_day Demo.env "/home/me/mirror" "not a day" (-2)
    Demo.world
  = (Return tt, Demo.world).
Proof.
  apply (create_commits_for_day_nothing Demo.env "/home/me/mirror"
           "not a day" (-2) Demo.world).
  lia.
Defined.

Lemma run_git_fails env cmd dir w :
  git_exec env cmd (Some dir) (repos w) = None →
  run_git env cmd dir w
  = (SysExit 1, logs [Subprocess (Some dir) cmd; Stderr "git failed"] w).
Proof.
  intros Hfail. unfold run_git, bind, subprocess_run. cbn [repos trace].
  rewrite Hfail. unfold eprint, emit, sys_exit, logs. cbn [repos trace].
  by rewrite <- app_assoc.
Qed.

(** A failing commit stops the loop: when git refuses the first commit,
    the run ends with exit code 1 after that one attempt; the remaining
    commits of the day are not tried and no work tree has changed. *)
Theorem create_commits_for_day_first_failure env dir day count w :
  0 < count →
  git_exec env (commit_command day count 0) (Some dir) (repos w) = None →
  create_commits_for_day env dir day count w
  = (SysExit 1,
     logs [Subprocess (Some dir) (commit_command day count 0);
           Stderr "git failed"] w).
Proof.
  intros Hcount Hfail. unfold create_commits_for_day.
  assert (Hseq : seqZ 0 count = 0 :: seqZ 1 (count - 1)).
  { unfold seqZ. destruct (Z.to_nat count) as [|n] eqn:Hn; [lia|].
    replace (Z.to_nat (count - 1)) with n by lia. simpl.
    f_equal. rewrite <- fmap_S_seq, <- list_fmap_compose.
    apply list_fmap_ext. intros _ i _. simpl. lia. }
  rewrite Hseq. cbn [for_each]. apply bind_exit. cbv beta. apply bind_exit.
  apply run_git_fails. exact Hfail.
Qed.

Lemma create_commits_for_day_first_failure_witness :
  create_commits_for_day Demo.env "/home/me/elsewhere" "2024-01-02" 2
    Demo2.empty_copy
  = (SysExit 1,
     logs [Subprocess (Some "/home/me/elsewhere"%string)
             (commit_command "2024-01-02" 2 0);
           Stderr "git failed"] Demo2.empty_copy).
Proof.
  apply (create_commits_for_day_first_failure Demo.env "/home/me/elsewhere"
           "2024-01-02" 2 Demo2.empty_copy).
  - lia.
  - vm_compute. reflexivity.
Defined.

(** ** Pushing *)

Lemma push_to_remote_run env dir w r :
  repos w !! dir = Some r →
  history r ≠ [] →
  push_to_remote env dir w
  = if push_ok env r then
      (Return tt,
       logs [Subprocess (Some dir) GitAbbrevRefHead;
             Subprocess (Some dir) (GitPush "origin" (PyStr.strip (branch r)))]
            w)
    else
      (SysExit 1,
       logs [Subprocess (Some dir) GitAbbrevRefHead;
             Subprocess (Some dir) (GitPush "origin" (PyStr.strip (branch r)));
             Stderr "git failed"] w).
Proof.
  intros Hr Hh. unfold push_to_remote, bind, run_git, bind, subprocess_run,
    eprint, emit, sys_exit, ret, logs.
  simpl. rewrite Hr. simpl.
  destruct (history r) as [|c h] eqn:Hhist; [done|]. simpl.
  rewrite Hr. simpl.
  destruct (push_ok env r); simpl; rewrite <- !app_assoc; done.
Qed.

(** The push goes to [origin] for the checked-out branch, as printed by
    [rev-parse --abbrev-ref HEAD] and stripped.  A rejected push ends the
    run with exit code 1.  Either way no work tree changes and nothing but
    these two commands runs. *)
Theorem push_to_remote_outcomes env dir w r :
  repos w !! dir = Some r →
  history r ≠ [] →
  push_to_remote env dir w
  = if push_ok env r then
      (Return tt,
       logs [Subprocess (Some dir) GitAbbrevRefHead;
             Subprocess (Some dir) (GitPush "origin" (PyStr.strip (branch r)))]
            w)
    else
      (SysExit 1,
       logs [Subprocess (Some dir) GitAbbrevRefHead;
             Subprocess (Some dir) (GitPush "origin" (PyStr.strip (branch r)));
             Stderr "git failed"] w).
Proof. apply push_to_remote_run. Qed.

Lemma push_to_remote_outcomes_witness :
  push_to_remote Demo2.rejecting_env "/home/me/mirror" Demo.mirrored_world
  = if push_ok Demo2.rejecting_env Demo.mirrored then
      (Return tt,
       logs [Subprocess (Some "/home/me/mirror"%string) GitAbbrevRefHead;
             Subprocess (Some "/home/me/mirror"%string)
               (GitPush "origin" (PyStr.strip (branch Demo.mirrored)))]
            Demo.mirrored_world)
    else
      (SysExit 1,
       logs [Subprocess (Some "/home/me/mirror"%string) GitAbbrevRefHead;
             Subprocess (Some "/home/me/mirror"%string)
               (GitPush "origin" (PyStr.strip (branch Demo.mirrored)));
             Stderr "git failed"] Demo.mirrored_world).
Proof.
  apply (push_to_remote_outcomes Demo2.rejecting_env "/home/me/mirror"
           Demo.mirrored_world Demo.mirrored).
  - vm_compute. reflexivity.
  - discriminate.
Defined.

(** On a working copy without any commit there is no branch to name: the
    push stage exits with code 1 before any push is attempted. *)
Theorem push_to_remote_unborn env dir w :
  match repos w !! dir with
  | Some r => history r = []
  | None => True
  end →
  push_to_remote env dir w
  = (SysExit 1,
     logs [Subprocess (Some dir) GitAbbrevRefHead; Stderr "git failed"] w).
Proof.
  intros H. unfold push_to_remote, bind, run_git, bind, subprocess_run,
    eprint, emit, sys_exit, logs.
  simpl. destruct (repos w !! dir) as [r|]; simpl.
  - rewrite H. simpl. by rewrite <- app_assoc.
  - by rewrite <- app_assoc.
Qed.

Lemma push_to_remote_unborn_witness :
  push_to_remote Demo.env "/home/me/mirror" Demo2.empty_copy
  = (SysExit 1,
     logs [Subprocess (Some "/home/me/mirror"%string) GitAbbrevRefHead;
           Stderr "git failed"] Demo2.empty_copy).
Proof.
  apply (push_to_remote_unborn Demo.env "/home/me/mirror" Demo2.empty_copy).
  vm_compute. reflexivity.
Defined.

(** ** Applying a delta *)

(** The days [git log] prints for the commits of a delta, oldest first:
    each day of [ks] in turn, as many times as the delta says. *)
Definition emitted_days (needed : gmap string Z) (ks : list string)
  : list string :=
  mjoin ((λ k, replicate (Z.to_nat (get0 needed k)) k) <$> ks).

Lemma author_days_app h1 h2 :
  author_days (h1 ++ h2) = author_days h1 ++ author_days h2.
Proof. unfold author_days. apply fmap_app. Qed.

Lemma author_days_length h : length (author_days h) = length h.
Proof. unfold author_days. apply length_fmap. Qed.

Lemma filter_all {A} (P : A → Prop) `{∀ x, Decision (P x)} (l : list A) :
  Forall P l → filter P l = l.
Proof.
  induction 1 as [|x l Hx _ IH]; [done|].
  by rewrite filter_cons_True, IH.
Qed.

(** Console output and commit commands. *)
Definition commit_or_print (e : Event) : bool :=
  match e with
  | Stdout _ | Subprocess _ (GitCommitAllowEmpty _ _ _) => true
  | _ => false
  end.

Lemma days_loop_run env dir needed : ∀ (ks : list string) w r,
  (∀ k, k ∈ ks → calendar_day k) →
  repos w !! dir = Some r →
  ∃ new evs,
    for_each ks (day_body env dir needed) w
    = (Return tt,
       {| repos := <[dir := Repo (branch r) (new ++ history r)]> (repos w);
          trace := trace w ++ evs |})
    ∧ reverse (author_days new) = emitted_days needed ks
    ∧ length (filter (λ e, writes e = true) evs) = length new
    ∧ Forall (λ c, committer_date c = author_date c) new
    ∧ forallb commit_or_print evs = true.
Proof.
  induction ks as [|k ks IH]; intros w r Hks Hr.
  - exists [], []. simpl. unfold ret. split; [|done].
    destruct w as [rs tr], r as [br h]. simpl in *.
    rewrite app_nil_r, insert_id; done.
  - destruct (calendar_day_roundtrip k)
      as (g & Hg & Hshow & Hstrip & Htruthy);
      [apply Hks, elem_of_cons; by left|].
    simpl. unfold bind at 1. unfold day_body at 1. unfold bind at 1.
    unfold print at 1. rewrite emit_log. unfold bind at 1.
    rewrite (create_commits_for_day_exact env dir k _ _ r g); [|done..].
    unfold print at 1. rewrite emit_log.
    match goal with |- context [for_each _ _ ?w1] => set (w1' := w1) end.
    set (count := default 0 (needed !! k)).
    set (newk := reverse ((λ i, Commit g g (commit_message k i count))
                          <$> seqZ 0 count)).
    destruct (IH w1' (Repo (branch r) (newk ++ history r)))
      as (new & evs & Hrun & Hdaysnew & Hlen & Hsame & Hevs).
    { intros k' Hk'. apply Hks, elem_of_cons. by right. }
    { subst w1'. simpl. by rewrite lookup_insert_eq. }
    assert (Hnewk : Forall (λ c, author_date c = g ∧ committer_date c = g)
                      newk).
    { subst newk. apply Forall_reverse, Forall_fmap, Forall_true. done. }
    set (commits := (λ i, Subprocess (Some dir) (commit_command k count i))
                    <$> seqZ 0 count).
    exists (new ++ newk),
      (Stdout ("  " +:+ k +:+ ": +" +:+ pretty count +:+ " commits")
       :: commits ++ Stdout " ok" :: evs).
    rewrite Hrun. subst w1'. simpl.
    split; [|split; [|split; [|split]]].
    + rewrite insert_insert_eq, <- !app_assoc. simpl.
      rewrite <- ?app_assoc. done.
    + rewrite author_days_app, reverse_app, Hdaysnew.
      rewrite (author_days_same g newk Hnewk), Hshow.
      change (emitted_days needed (k :: ks))
        with (replicate (Z.to_nat (get0 needed k)) k
              ++ emitted_days needed ks).
      f_equal. rewrite reverse_replicate. f_equal.
      subst newk. rewrite length_reverse, length_fmap, length_seqZ. done.
    + rewrite filter_cons_False by done.
      rewrite filter_app, filter_cons_False by done.
      rewrite length_app, Hlen.
      assert (Hall : filter (λ e, writes e = true) commits = commits).
      { apply filter_all. subst commits.
        apply Forall_fmap, Forall_true. done. }
      rewrite Hall. subst commits newk.
      rewrite length_app, length_reverse, !length_fmap, length_seqZ. lia.
    + apply Forall_app. split; [done|].
      eapply Forall_impl; [exact Hnewk|]. simpl. by intros c [-> ->].
    + simpl. rewrite forallb_app. simpl. rewrite Hevs, andb_true_r.
      subst commits. apply forallb_forall. intros e He.
      apply list_elem_of_In, list_elem_of_fmap in He as (i & -> & _). done.
Qed.

(** What applying a delta does to the working copy and the trace. *)
Lemma create_commits_run env dir (needed : gmap string Z) w r :
  repos w !! dir = Some r →
  (∀ day, is_Some (needed !! day) → calendar_day day) →
  ∃ new evs,
    create_commits env dir needed w
    = (Return tt,
       {| repos := <[dir := Repo (branch r) (new ++ history r)]> (repos w);
          trace := trace w ++ evs |})
    ∧ reverse (author_days new)
      = emitted_days needed (PyStr.sorted (keys needed))
    ∧ length (filter (λ e, writes e = true) evs) = length new
    ∧ Forall (λ c, committer_date c = author_date c) new
    ∧ forallb commit_or_print evs = true.
Proof.
  intros Hr Hdays. rewrite create_commits_unfold.
  apply days_loop_run; [|done].
  intros k Hk. apply Hdays. by apply elem_of_keys, elem_of_sorted.
Qed.

Lemma occurrences_emitted needed day : ∀ ks,
  NoDup ks →
  (∀ k, k ∈ ks → PyStr.strip k = k) →
  occurrences day (emitted_days needed ks)
  = if decide (day ∈ ks) then Z.of_nat (Z.to_nat (get0 needed day)) else 0.
Proof.
  induction ks as [|k ks IH]; intros Hnodup Hstrip.
  - unfold emitted_days, occurrences. simpl.
    destruct (decide (day ∈ [])) as [Hin|_]; [|done].
    by apply elem_of_nil in Hin.
  - apply NoDup_cons in Hnodup as [Hk Hnodup].
    change (emitted_days needed (k :: ks))
      with (replicate (Z.to_nat (get0 needed k)) k ++ emitted_days needed ks).
    rewrite occurrences_app, IH, occurrences_replicate;
      [|apply Hstrip, elem_of_cons; by left|done
       |intros k' Hk'; apply Hstrip, elem_of_cons; by right].
    destruct (decide (k = day)) as [->|Hne].
    + destruct (decide (day ∈ ks)) as [Hin|_]; [by destruct (Hk Hin)|].
      destruct (decide (day ∈ day :: ks)) as [_|Hnin2]; [lia|].
      exfalso. apply Hnin2, elem_of_cons. by left.
    + destruct (decide (day ∈ ks)) as [Hin|Hnin];
        destruct (decide (day ∈ k :: ks)) as [Hin2|Hnin2]; try lia.
      * exfalso. apply Hnin2, elem_of_cons. by right.
      * exfalso. apply elem_of_cons in Hin2 as [->|?]; done.
Qed.

Lemma occurrences_reverse day lines :
  occurrences day (reverse lines) = occurrences day lines.
Proof.
  unfold occurrences. by rewrite filter_reverse, length_reverse.
Qed.

Lemma emitted_days_length needed ks :
  Z.of_nat (length (emitted_days needed ks))
  = foldr Z.add 0 ((λ k, Z.of_nat (Z.to_nat (get0 needed k))) <$> ks).
Proof.
  induction ks as [|k ks IH]; [done|].
  change (emitted_days needed (k :: ks))
    with (replicate (Z.to_nat (get0 needed k)) k ++ emitted_days needed ks).
  rewrite length_app, length_replicate, Nat2Z.inj_add, IH. done.
Qed.

Lemma sum_over_sorted_keys (m : gmap string Z) :
  map_Forall (λ _ v, 0 < v) m →
  foldr Z.add 0 ((λ k, Z.of_nat (Z.to_nat (get0 m k)))
                 <$> PyStr.sorted (keys m))
  = sum_values m.
Proof.
  intros Hpos. unfold sum_values.
  rewrite (sum_permutation _ ((λ k, Z.of_nat (Z.to_nat (get0 m k))) <$> keys m)).
  2:{ apply fmap_Permutation. unfold PyStr.sorted.
      apply merge_sort_Permutation. }
  f_equal. unfold keys. rewrite <- list_fmap_compose.
  apply list_fmap_ext. intros i [k v] Hkv. simpl.
  assert (Hin : (k, v) ∈ map_to_list m) by (by eapply list_elem_of_lookup_2).
  apply elem_of_map_to_list in Hin. unfold get0. rewrite Hin. simpl.
  specialize (Hpos _ _ Hin). simpl in Hpos. lia.
Qed.

Lemma compute_needed_positive (target existing : gmap string Z) :
  map_Forall (λ _ v, 0 < v) (compute_needed target existing).
Proof.
  intros day v. rewrite compute_needed_lookup.
  destruct (target !! day) as [t|]; simpl; [|done].
  destruct (0 <? t - get0 existing day) eqn:E; [|done].
  apply Z.ltb_lt in E. intros H. inversion H; subst. done.
Qed.

Lemma compute_needed_days (target existing : gmap string Z) :
  (∀ day, is_Some (target !! day) → calendar_day day) →
  ∀ day, is_Some (compute_needed target existing !! day) → calendar_day day.
Proof.
  intros Hdays day [v Hv]. apply Hdays.
  rewrite compute_needed_lookup in Hv.
  destruct (target !! day); [eauto|done].
Qed.

(** The counts after the commits of a delta were added on top of a
    history. *)
Lemma emitted_counts (target : gmap string Z) (h new : list commit) :
  (∀ day, is_Some (target !! day) → calendar_day day) →
  reverse (author_days new)
  = emitted_days (compute_needed target (tally (author_days h)))
      (PyStr.sorted (keys (compute_needed target (tally (author_days h))))) →
  (∀ day t, target !! day = Some t →
     get0 (tally (author_days (new ++ h))) day
     = Z.max t (get0 (tally (author_days h)) day))
  ∧ (∀ day, target !! day = None →
       get0 (tally (author_days (new ++ h))) day
       = get0 (tally (author_days h)) day).
Proof.
  intros Hdays Hemitted.
  set (existing := tally (author_days h)) in *.
  set (needed := compute_needed target existing) in *.
  pose proof (compute_needed_days target existing Hdays) as Hneeded.
  fold needed in Hneeded.
  set (r := Repo "" h).
  change h with (history r).
  assert (Hocc : ∀ day,
            occurrences day (author_days new)
            = if decide (day ∈ PyStr.sorted (keys needed))
              then Z.of_nat (Z.to_nat (get0 needed day)) else 0).
  { intros day. rewrite <- occurrences_reverse, Hemitted.
    apply occurrences_emitted; [apply NoDup_sorted_keys|].
    intros k Hk. apply elem_of_sorted, elem_of_keys, Hneeded in Hk.
    by destruct (calendar_day_roundtrip k Hk) as (_ & _ & _ & ? & _). }
  assert (Hcount : ∀ day, PyStr.truthy day = true →
            get0 (tally (author_days (new ++ history r))) day
            = (if decide (day ∈ PyStr.sorted (keys needed))
               then Z.of_nat (Z.to_nat (get0 needed day)) else 0)
              + get0 existing day).
  { intros day Htruthy. subst existing.
    rewrite !tally_get0 by done.
    by rewrite author_days_app, occurrences_app, Hocc. }
  split.
  - intros day t Ht.
    assert (Hday : calendar_day day) by (apply Hdays; eauto).
    destruct (calendar_day_roundtrip day Hday) as (_ & _ & _ & _ & Htruthy).
    rewrite (Hcount day Htruthy).
    destruct (decide (day ∈ PyStr.sorted (keys needed))) as [Hin|Hnin].
    + apply elem_of_sorted, elem_of_keys in Hin as [v Hv].
      unfold get0 at 1. rewrite Hv. simpl.
      subst needed. rewrite compute_needed_lookup, Ht in Hv. simpl in Hv.
      destruct (0 <? t - get0 existing day) eqn:E; [|done].
      apply Z.ltb_lt in E. inversion Hv; subst. lia.
    + rewrite elem_of_sorted, elem_of_keys in Hnin.
      subst needed. rewrite compute_needed_lookup, Ht in Hnin. simpl in Hnin.
      destruct (0 <? t - get0 existing day) eqn:E.
      * exfalso. apply Hnin. eauto.
      * apply Z.ltb_ge in E. lia.
  - intros day Ht.
    destruct (PyStr.truthy day) eqn:Htruthy.
    + rewrite (Hcount day Htruthy).
      destruct (decide (day ∈ PyStr.sorted (keys needed))) as [Hin|_]; [|lia].
      apply elem_of_sorted, elem_of_keys in Hin as [v Hv].
      subst needed. by rewrite compute_needed_lookup, Ht in Hv.
    + destruct day; [|done]. subst existing. unfold get0.
      by rewrite !tally_blank.
Qed.



Lemma emitted_total (needed : gmap string Z) (new : list commit) :
  map_Forall (λ _ v, 0 < v) needed →
  reverse (author_days new)
  = emitted_days needed (PyStr.sorted (keys needed)) →
  Z.of_nat (length new) = sum_values needed.
Proof.
  intros Hpos Hemitted.
  rewrite <- author_days_length, <- length_reverse, Hemitted.
  rewrite emitted_days_length. by apply sum_over_sorted_keys.
Qed.

(** Convergence: applying the delta computed from a working copy appends
    commits on top of its history, leaving every existing commit in
    place; afterwards each target day counts max(target, existing)
    commits, which is the target whenever the day was short, and every day
    outside the target map counts what it did before. *)
Theorem create_commits_converges env dir (target : gmap string Z) w r :
  repos w !! dir = Some r →
  (∀ day, is_Some (target !! day) → calendar_day day) →
  ∃ new w',
    create_commits env dir
      (compute_needed target (tally (author_days (history r)))) w
    = (Return tt, w')
    ∧ repos w' = <[dir := Repo (branch r) (new ++ history r)]> (repos w)
    ∧ (∀ day t, target !! day = Some t →
         get0 (tally (author_days (new ++ history r))) day
         = Z.max t (get0 (tally (author_days (history r))) day))
    ∧ (∀ day, target !! day = None →
         get0 (tally (author_days (new ++ history r))) day
         = get0 (tally (author_days (history r))) day).
Proof.
  intros Hr Hdays.
  destruct (create_commits_run env dir
              (compute_needed target (tally (author_days (history r)))) w r Hr
              (compute_needed_days target _ Hdays))
    as (new & evs & Hrun & Hemitted & _ & _ & _).
  exists new. eexists. split; [exact Hrun|]. split; [done|].
  by apply emitted_counts.
Qed.

Lemma create_commits_converges_witness :
  ∃ new w',
    create_commits Demo.env "/home/me/mirror"
      (compute_needed Demo.target (tally (author_days []))) Demo2.empty_copy
    = (Return tt, w')
    ∧ repos w'
      = <["/home/me/mirror"%string := Repo "main" (new ++ [])]>
          (repos Demo2.empty_copy)
    ∧ (∀ day t, Demo.target !! day = Some t →
         get0 (tally (author_days (new ++ []))) day
         = Z.max t (get0 (tally (author_days [])) day))
    ∧ (∀ day, Demo.target !! day = None →
         get0 (tally (author_days (new ++ []))) day
         = get0 (tally (author_days [])) day).
Proof.
  apply (create_commits_converges Demo.env "/home/me/mirror" Demo.target
           Demo2.empty_copy (Repo "main" [])).
  - vm_compute. reflexivity.
  - apply demo_target_days.
Defined.

(** The announced total is the number of commits made: applying a delta
    runs one commit command per unit of [sum(needed.values())] and nothing
    else but console output, and the history grows by that many commits,
    each with equal author and committer dates. *)
Theorem create_commits_total env dir (target existing : gmap string Z) w r :
  repos w !! dir = Some r →
  (∀ day, is_Some (target !! day) → calendar_day day) →
  ∃ new evs,
    create_commits env dir (compute_needed target existing) w
    = (Return tt,
       {| repos := <[dir := Repo (branch r) (new ++ history r)]> (repos w);
          trace := trace w ++ evs |})
    ∧ Z.of_nat (length new) = sum_values (compute_needed target existing)
    ∧ Z.of_nat (length (filter (λ e, writes e = true) evs))
      = sum_values (compute_needed target existing)
    ∧ Forall (λ c, committer_date c = author_date c) new.
Proof.
  intros Hr Hdays.
  destruct (create_commits_run env dir (compute_needed target existing) w r
              Hr (compute_needed_days target existing Hdays))
    as (new & evs & Hrun & Hemitted & Hlen & Hsame & _).
  pose proof (emitted_total _ new (compute_needed_positive target existing)
                Hemitted) as Htotal.
  exists new, evs. split; [done|]. split; [done|]. split; [|done].
  by rewrite Hlen.
Qed.

Lemma create_commits_total_witness :
  ∃ new evs,
    create_commits Demo.env "/home/me/mirror" (compute_needed Demo.target ∅)
      Demo2.empty_copy
    = (Return tt,
       {| repos := <["/home/me/mirror"%string := Repo "main" (new ++ [])]>
                     (repos Demo2.empty_copy);
          trace := trace Demo2.empty_copy ++ evs |})
    ∧ Z.of_nat (length new) = sum_values (compute_needed Demo.target ∅)
    ∧ Z.of_nat (length (filter (λ e, writes e = true) evs))
      = sum_values (compute_needed Demo.target ∅)
    ∧ Forall (λ c, committer_date c = author_date c) new.
Proof.
  apply (create_commits_total Demo.env "/home/me/mirror" Demo.target ∅
           Demo2.empty_copy (Repo "main" [])).
  - vm_compute. reflexivity.
  - apply demo_target_days.
Defined.

(** ** The reconcile stage *)

(** Whether the answer typed at the prompt lets the run go on. *)
Definition agrees (answer : InputResult) : bool :=
  match answer with
  | Line s => bool_decide (PyStr.lower (PyStr.strip s) ∈ ["y"; "yes"]%string)
  | EndOfFile | Interrupt => false
  end.

(** Whitespace around the answer does not count, whatever its kind: a
    no-break space before the letter is stripped too. *)
Example agrees_after_strip :
  agrees (Line (String "194" (String "160" "Y") +:+ " ")) = true
  ∧ agrees (Line "yes please") = false.
Proof. split; vm_compute; reflexivity. Qed.

Lemma log_as_logs e w : log e w = logs [e] w.
Proof. reflexivity. Qed.

Lemma reconcile_after_load env config target dir w existing w1 :
  load_existing_commits env dir w = (Return existing, w1) →
  compute_needed target existing ≠ ∅ →
  reconcile env config target dir w
  = (let needed := compute_needed target existing in
     print (newline +:+ "Commits to create: " +:+ pretty (sum_values needed)
            +:+ " across " +:+ pretty (size needed) +:+ " days.") >>
     let* proceed := confirm env config in
     if proceed : bool then
       create_commits env dir needed >>
       print "Pushing to remote..." >>
       push_to_remote env dir >>
       print (newline +:+ "Done! View your profile: https://github.com/"
              +:+ personal_username config)
     else ret tt) w1.
Proof.
  intros Hload Hne. unfold reconcile.
  rewrite (bind_return _ _ _ _ _ Hload).
  destruct (decide (compute_needed target existing = ∅)); done.
Qed.

(** The stage of [main] between the preparation of the working copy and
    the [finally] block.  Without the skip-confirmation flag it goes on
    only when the answer, stripped and lower-cased, is "y" or "yes".  On
    any other answer, on end of input and on an interrupt at the prompt,
    it prints that it aborted and returns normally: the stage has made no
    commit and no push and has changed no work tree. *)
Theorem reconcile_declined env config target dir w existing w1 :
  load_existing_commits env dir w = (Return existing, w1) →
  compute_needed target existing ≠ ∅ →
  yes config = false →
  agrees (stdin_answer env) = false →
  ∃ evs,
    reconcile env config target dir w = (Return tt, logs evs w1)
    ∧ forallb writes_nothing evs = true
    ∧ Stdin "Proceed? [y/N] " ∈ evs
    ∧ repos w1 = repos w.
Proof.
  intros Hload Hne Hyes Hno.
  rewrite (reconcile_after_load _ _ _ _ _ _ _ Hload Hne).
  assert (Hrepos : repos w1 = repos w).
  { destruct (load_existing_commits_reads env dir w)
      as (existing' & evs0 & Hload' & _).
    rewrite Hload in Hload'. by inversion Hload'. }
  unfold bind at 1, print at 1. rewrite emit_log.
  unfold confirm. rewrite Hyes. unfold bind at 1. unfold bind at 1.
  rewrite emit_log. unfold agrees in Hno.
  assert (Hin : ∀ a b : string,
            Stdin "Proceed? [y/N] " ∈ [Stdout a; Stdin "Proceed? [y/N] "; Stdout b]).
  { intros a b. apply elem_of_cons. right. apply elem_of_cons. by left. }
  destruct (stdin_answer env) as [s| |].
  - rewrite Hno. unfold bind, print. rewrite emit_log. unfold ret.
    rewrite !log_as_logs, !logs_logs. simpl. eauto.
  - unfold bind, print. rewrite emit_log. unfold ret.
    rewrite !log_as_logs, !logs_logs. simpl. eauto.
  - unfold bind, print. rewrite emit_log. unfold ret.
    rewrite !log_as_logs, !logs_logs. simpl. eauto.
Qed.

Lemma reconcile_declined_witness :
  let config := {|
    personal_token := "token"; work_username := "work";
    personal_username := "me"; target_repo := "mirror";
    start_date := PyDate.mk 2024 1 1; end_date := PyDate.mk 2024 1 2;
    local_dir := Some "/home/me/mirror"%string;
    dry_run := false; yes := false; keep_repo := false; backfill := false |} in
  let w1 := (load_existing_commits Demo2.rejecting_env "/home/me/mirror"
               Demo2.empty_copy).2 in
  ∃ evs,
    reconcile Demo2.rejecting_env config Demo.target "/home/me/mirror"
      Demo2.empty_copy
    = (Return tt, logs evs w1)
    ∧ forallb writes_nothing evs = true
    ∧ Stdin "Proceed? [y/N] " ∈ evs
    ∧ repos w1 = repos Demo2.empty_copy.
Proof.
  intros config w1.
  apply (reconcile_declined Demo2.rejecting_env config Demo.target
           "/home/me/mirror" Demo2.empty_copy ∅ w1).
  - vm_compute. reflexivity.
  - vm_compute. discriminate.
  - reflexivity.
  - vm_compute. reflexivity.
Defined.

Example answers :
  agrees (Line " YES ") = true ∧ agrees (Line "y") = true
  ∧ agrees (Line "") = false ∧ agrees (Line "yeah") = false
  ∧ agrees EndOfFile = false.
Proof. by vm_compute. Qed.

Lemma delta_empty_after (target : gmap string Z) (h new : list commit) :
  (∀ day, is_Some (target !! day) → calendar_day day) →
  reverse (author_days new)
  = emitted_days (compute_needed target (tally (author_days h)))
      (PyStr.sorted (keys (compute_needed target (tally (author_days h))))) →
  compute_needed target (tally (author_days (new ++ h))) = ∅.
Proof.
  intros Hdays Hemitted.
  destruct (emitted_counts target h new Hdays Hemitted) as [Hmax _].
  apply map_eq. intros day. rewrite lookup_empty, compute_needed_lookup.
  destruct (target !! day) as [t|] eqn:Ht; simpl; [|done].
  rewrite (Hmax day t Ht). rewrite (proj2 (Z.ltb_ge _ _)) by lia. done.
Qed.

Lemma forallb_impl {A} (P Q : A → bool) (l : list A) :
  (∀ x, P x = true → Q x = true) → forallb P l = true → forallb Q l = true.
Proof.
  intros HPQ. induction l as [|x l IH]; simpl; [done|].
  rewrite !andb_true_iff. intros [Hx Hl]. auto.
Qed.

Lemma sum_nonneg (xs : list Z) : Forall (λ v, 0 < v) xs → 0 <= foldr Z.add 0 xs.
Proof. induction 1; simpl; lia. Qed.

Lemma sum_values_pos (m : gmap string Z) :
  m ≠ ∅ → map_Forall (λ _ v, 0 < v) m → 0 < sum_values m.
Proof.
  intros Hne Hpos. unfold sum_values.
  assert (Hall : Forall (λ v, 0 < v) (map_to_list m).*2).
  { apply Forall_fmap, Forall_forall. intros [k v] Hin.
    apply elem_of_map_to_list in Hin. exact (Hpos _ _ Hin). }
  destruct (map_to_list m) as [|[k v] l] eqn:Hl.
  - by apply map_to_list_empty_iff in Hl.
  - simpl in *. inversion Hall; subst. pose proof (sum_nonneg _ H2). lia.
Qed.

(** The reconcile stage with the prompt skipped, up to the push. *)
Lemma reconcile_until_push env config (target : gmap string Z) dir w r :
  repos w !! dir = Some r →
  (∀ day, is_Some (target !! day) → calendar_day day) →
  compute_needed target (tally (author_days (history r))) ≠ ∅ →
  yes config = true →
  ∃ new evs,
    let w1 := {| repos := <[dir := Repo (branch r) (new ++ history r)]> (repos w);
                 trace := trace w ++ evs |} in
    reconcile env config target dir w
    = (push_to_remote env dir >>
       print (newline +:+ "Done! View your profile: https://github.com/"
              +:+ personal_username config)) w1
    ∧ new ≠ []
    ∧ Z.of_nat (length new)
      = sum_values (compute_needed target (tally (author_days (history r))))
    ∧ compute_needed target (tally (author_days (new ++ history r))) = ∅
    ∧ forallb (λ e, match e with
                    | Subprocess _ (GitPush _ _) => false
                    | _ => true
                    end) evs = true.
Proof.
  intros Hr Hdays Hne Hyes.
  destruct (load_existing_commits_repo env dir w r Hr) as [evs0' Hload'].
  destruct (load_existing_commits_reads env dir w)
    as (existing & evs0 & Hload & Hevs0).
  rewrite Hload in Hload'. inversion Hload' as [[Hex Hw]]. clear Hload' Hw.
  subst existing.
  rewrite (reconcile_after_load _ _ _ _ _ _ _ Hload Hne).
  set (needed := compute_needed target (tally (author_days (history r)))) in *.
  unfold bind at 1, print at 1. rewrite emit_log.
  unfold confirm. rewrite Hyes. unfold bind at 1, ret at 1.
  unfold bind at 1.
  set (msg := newline +:+ "Commits to create: " +:+ pretty (sum_values needed)
              +:+ " across " +:+ pretty (size needed) +:+ " days.").
  destruct (create_commits_run env dir needed (log (Stdout msg) (logs evs0 w)) r)
    as (new & evs & Hrun & Hemitted & Hlen & Hsame & Hevs).
  { done. }
  { apply compute_needed_days, Hdays. }
  rewrite Hrun. unfold bind at 1, print at 1. rewrite emit_log.
  pose proof (emitted_total needed new (compute_needed_positive _ _) Hemitted)
    as Htotal.
  exists new, (evs0 ++ Stdout msg :: evs ++ [Stdout "Pushing to remote..."]).
  split; [|split; [|split; [|split]]].
  - unfold log, logs. simpl. rewrite <- !app_assoc. reflexivity.
  - intros ->. simpl in Htotal.
    pose proof (sum_values_pos needed Hne (compute_needed_positive _ _)). lia.
  - done.
  - by apply delta_empty_after.
  - rewrite forallb_app. simpl. rewrite forallb_app. simpl.
    rewrite andb_true_r. apply andb_true_iff. split.
    + eapply forallb_impl; [|exact Hevs0].
      intros [| | | | | | | |? []| | |]; done.
    + eapply forallb_impl; [|exact Hevs]. intros [| | | | | | | |? []| | |]; done.
Qed.

(** A run that applies a delta: with the prompt skipped and the push
    accepted, the stage returns normally.  The commits of the delta are on
    top of the history, as many as announced; the push of the checked-out
    branch to [origin] comes after everything else and is the only push. *)
Theorem reconcile_pushes_last env config (target : gmap string Z) dir w r :
  repos w !! dir = Some r →
  (∀ day, is_Some (target !! day) → calendar_day day) →
  compute_needed target (tally (author_days (history r))) ≠ ∅ →
  yes config = true →
  (∀ r', push_ok env r' = true) →
  ∃ new evs done,
    reconcile env config target dir w
    = (Return tt,
       {| repos := <[dir := Repo (branch r) (new ++ history r)]> (repos w);
          trace := trace w ++ evs
                   ++ [Subprocess (Some dir) GitAbbrevRefHead;
                       Subprocess (Some dir)
                         (GitPush "origin" (PyStr.strip (branch r)));
                       Stdout done] |})
    ∧ Z.of_nat (length new)
      = sum_values (compute_needed target (tally (author_days (history r))))
    ∧ forallb (λ e, match e with
                    | Subprocess _ (GitPush _ _) => false
                    | _ => true
                    end) evs = true.
Proof.
  intros Hr Hdays Hne Hyes Hpush.
  destruct (reconcile_until_push env config target dir w r Hr Hdays Hne Hyes)
    as (new & evs & Hrun & Hnew & Htotal & _ & Hevs).
  simpl in Hrun. rewrite Hrun.
  exists new, evs. eexists. split; [|done].
  unfold bind at 1.
  rewrite (push_to_remote_run env dir _ (Repo (branch r) (new ++ history r)));
    [|simpl; by rewrite lookup_insert_eq
     |simpl; by destruct new].
  rewrite Hpush. unfold print. rewrite emit_log.
  unfold log, logs. simpl. rewrite <- !app_assoc. reflexivity.
Qed.

Lemma reconcile_pushes_last_witness :
  ∃ new evs done,
    reconcile Demo.env Demo.config Demo.target "/home/me/mirror"
      Demo2.empty_copy
    = (Return tt,
       {| repos := <["/home/me/mirror"%string := Repo "main" (new ++ [])]>
                     (repos Demo2.empty_copy);
          trace := trace Demo2.empty_copy ++ evs
                   ++ [Subprocess (Some "/home/me/mirror"%string)
                         GitAbbrevRefHead;
                       Subprocess (Some "/home/me/mirror"%string)
                         (GitPush "origin" (PyStr.strip "main"));
                       Stdout done] |})
    ∧ Z.of_nat (length new) = sum_values (compute_needed Demo.target ∅)
    ∧ forallb (λ e, match e with
                    | Subprocess _ (GitPush _ _) => false
                    | _ => true
                    end) evs = true.
Proof.
  apply (reconcile_pushes_last Demo.env Demo.config Demo.target
           "/home/me/mirror" Demo2.empty_copy (Repo "main" [])).
  - vm_compute. reflexivity.
  - apply demo_target_days.
  - vm_compute. discriminate.
  - reflexivity.
  - intros r'. reflexivity.
Defined.


(** The [try] statement of [main] once the working copy is prepared. *)
Definition guarded_reconcile (env : Env) (config : Config)
    (target : ContributionMap) (dir : string) : Run unit :=
  try_finally
    (except_KeyboardInterrupt (reconcile env config target dir) interrupted)
    (main_finally config (Some dir)
       match local_dir config with
       | None => Some dir
       | Some _ => None
       end).

Lemma mirror_guarded env config target url has w dir w1 :
  prepare_local_repo env (local_dir config) url has (personal_username config)
    (target_repo config) (personal_token config) w = (Return dir, w1) →
  mirror env config target url has w
  = guarded_reconcile env config target dir w1.
Proof. intros Hprep. unfold mirror, guarded_reconcile. by rewrite Hprep. Qed.



(** ** What a run may remove *)

(** A command that appends only events satisfying [P] and removes no work
    tree outside [gone], however it ends. *)
Definition keeps {A} (P : Event → bool) (gone : gset string) (m : Run A)
  : Prop :=
  ∀ w r w', m w = (r, w') →
    dom (repos w) ∖ gone ⊆ dom (repos w')
    ∧ ∃ evs, trace w' = trace w ++ evs ∧ forallb P evs = true.

Lemma difference_subseteq (X gone : gset string) : X ∖ gone ⊆ X.
Proof. intros x Hx. by apply elem_of_difference in Hx as [? _]. Qed.

Lemma difference_trans (X Y Z gone : gset string) :
  X ∖ gone ⊆ Y → Y ∖ gone ⊆ Z → X ∖ gone ⊆ Z.
Proof.
  intros HXY HYZ x Hx. apply HYZ, elem_of_difference.
  apply elem_of_difference in Hx as [Hx Hg].
  split; [|done]. apply HXY, elem_of_difference. done.
Qed.

Lemma difference_mono (X Y gone : gset string) : X ⊆ Y → X ∖ gone ⊆ Y.
Proof. intros HXY x Hx. apply HXY. by apply elem_of_difference in Hx as [? _]. Qed.

Section Keeps.

Context (P : Event → bool) (gone : gset string).

Lemma keeps_ret {A} (a : A) : keeps P gone (ret a).
Proof.
  intros w r w' H. inversion H; subst. split; [apply difference_subseteq|].
  exists []. by rewrite app_nil_r.
Qed.

Lemma keeps_sys_exit {A} c : keeps P gone (@sys_exit A c).
Proof.
  intros w r w' H. inversion H; subst. split; [apply difference_subseteq|].
  exists []. by rewrite app_nil_r.
Qed.

Lemma keeps_raise {A} e : keeps P gone (@raise A e).
Proof.
  intros w r w' H. inversion H; subst. split; [apply difference_subseteq|].
  exists []. by rewrite app_nil_r.
Qed.

Lemma keeps_emit e : P e = true → keeps P gone (emit e).
Proof.
  intros He w r w' H. inversion H; subst. simpl. split; [apply difference_subseteq|].
  exists [e]. simpl. by rewrite He.
Qed.

Lemma keeps_step {A} (m : Run A) w r w1 w2 :
  keeps P gone m → m w = (r, w1) →
  dom (repos w1) ∖ gone ⊆ dom (repos w2) →
  (∃ evs, trace w2 = trace w1 ++ evs ∧ forallb P evs = true) →
  dom (repos w) ∖ gone ⊆ dom (repos w2)
  ∧ ∃ evs, trace w2 = trace w ++ evs ∧ forallb P evs = true.
Proof.
  intros Hm Hrun Hdom (evs2 & Htr & Hevs2).
  destruct (Hm _ _ _ Hrun) as (Hdom1 & evs1 & Htr1 & Hevs1).
  split; [by eapply difference_trans|].
  exists (evs1 ++ evs2). by rewrite Htr, Htr1, app_assoc, forallb_app, Hevs1, Hevs2.
Qed.

Lemma keeps_bind {A B} (m : Run A) (k : A → Run B) :
  keeps P gone m → (∀ a, keeps P gone (k a)) → keeps P gone (bind m k).
Proof.
  intros Hm Hk w r w' H. unfold bind in H.
  destruct (m w) as [[a|c|e] w1] eqn:Hmw.
  - destruct (Hk a _ _ _ H) as (Hdom & Hevs).
    exact (keeps_step m w _ w1 w' Hm Hmw Hdom Hevs).
  - inversion H; subst. by apply (Hm _ _ _ Hmw).
  - inversion H; subst. by apply (Hm _ _ _ Hmw).
Qed.

Lemma keeps_for_each {A} (xs : list A) (body : A → Run unit) :
  (∀ x, keeps P gone (body x)) → keeps P gone (for_each xs body).
Proof.
  intros Hbody. induction xs as [|x xs IH]; simpl.
  - apply keeps_ret.
  - apply keeps_bind; [done|]. intros _. exact IH.
Qed.

Lemma keeps_try_finally {A} (body : Run A) (cleanup : Run unit) :
  keeps P gone body → keeps P gone cleanup →
  keeps P gone (try_finally body cleanup).
Proof.
  intros Hb Hc w r w' H. unfold try_finally in H.
  destruct (body w) as [rb w1] eqn:Hbw.
  destruct (cleanup w1) as [rc w2] eqn:Hcw.
  assert (w' = w2) as -> by (destruct rc; inversion H; done).
  destruct (Hc _ _ _ Hcw) as (Hdom & Hevs).
  exact (keeps_step body w _ w1 w2 Hb Hbw Hdom Hevs).
Qed.

Lemma keeps_except_KeyboardInterrupt {A} (body handler : Run A) :
  keeps P gone body → keeps P gone handler →
  keeps P gone (except_KeyboardInterrupt body handler).
Proof.
  intros Hb Hh w r w' H. unfold except_KeyboardInterrupt in H.
  destruct (body w) as [[a|c|e] w1] eqn:Hbw;
    try (inversion H; subst; by apply (Hb _ _ _ Hbw)).
  destruct e; try (inversion H; subst; by apply (Hb _ _ _ Hbw)).
  destruct (Hh _ _ _ H) as (Hdom & Hevs).
  exact (keeps_step body w _ w1 w' Hb Hbw Hdom Hevs).
Qed.

(** No git command removes a work tree. *)
Lemma git_exec_dom env cmd cwd rs out rs' :
  git_exec env cmd cwd rs = Some (out, rs') → dom rs ⊆ dom rs'.
Proof.
  unfold git_exec. intros H.
  destruct cmd; simplify_option_eq; repeat case_match; simplify_option_eq;
    try done; try apply dom_insert_subseteq.
Qed.

Hypothesis P_subprocess : ∀ cwd cmd, P (Subprocess cwd cmd) = true.

Lemma keeps_subprocess_run env cmd cwd :
  keeps P gone (subprocess_run env cmd cwd).
Proof.
  intros w r w' H. unfold subprocess_run in H. simpl in H.
  destruct (git_exec env cmd cwd (repos w)) as [[out rs]|] eqn:Hx;
    inversion H; subst; simpl.
  - apply git_exec_dom in Hx. split; [by apply difference_mono|].
    eexists [_]. simpl. by rewrite P_subprocess.
  - split; [apply difference_subseteq|].
    eexists [_]. simpl. by rewrite P_subprocess.
Qed.

End Keeps.

Lemma appends_only_keeps {A} (Q P : Event → bool) gone (m : Run A) :
  (∀ e, Q e = true → P e = true) → appends_only Q m → keeps P gone m.
Proof.
  intros HQP Hm w r w' H. destruct (Hm _ _ _ H) as (evs & -> & Hevs).
  split; [apply difference_subseteq|].
  exists evs. split; [done|]. by eapply forallb_impl.
Qed.

(** The only removal [main] may make: the directory [mkdtemp] gave it,
    when no persistent directory is configured and retention was not
    asked for. *)
Definition removal_allowed (env : Env) (config : Config) (e : Event) : bool :=
  match e with
  | Rmtree path =>
      bool_decide (local_dir config = None) && negb (keep_repo config)
      && bool_decide (path = mkdtemp_path env)
  | _ => true
  end.

Definition transient (env : Env) (config : Config) : gset string :=
  if bool_decide (local_dir config = None) && negb (keep_repo config)
  then {[mkdtemp_path env]} else ∅.

Section MainKeeps.

Context (env : Env) (config : Config).

Let P := removal_allowed env config.
Let gone := transient env config.

Ltac keeps_tac :=
  repeat match goal with
    | |- keeps _ _ (ret _) => apply keeps_ret
    | |- keeps _ _ (sys_exit _) => apply keeps_sys_exit
    | |- keeps _ _ (raise _) => apply keeps_raise
    | |- keeps _ _ (emit _) => apply keeps_emit; reflexivity
    | |- keeps _ _ (print _) => unfold print
    | |- keeps _ _ (eprint _) => unfold eprint
    | |- keeps _ _ (subprocess_run _ _ _) =>
        apply keeps_subprocess_run; reflexivity
    | |- keeps _ _ (for_each _ _) => apply keeps_for_each; intros ?
    | |- keeps _ _ (bind _ _) => apply keeps_bind; [|intros ?]
    | |- keeps _ _ (match ?x with _ => _ end) => destruct x
    | |- keeps _ _ (if ?x then _ else _) => destruct x
    end.

Lemma keeps_run_git cmd cwd : keeps P gone (run_git env cmd cwd).
Proof. unfold run_git. keeps_tac. Qed.

Lemma keeps_configure_git dir : keeps P gone (configure_git env dir).
Proof. unfold configure_git. keeps_tac; apply keeps_run_git. Qed.

Lemma keeps_load_existing_commits dir :
  keeps P gone (load_existing_commits env dir).
Proof. unfold load_existing_commits. keeps_tac. apply keeps_run_git. Qed.

Lemma keeps_create_commits_for_day dir day count :
  keeps P gone (create_commits_for_day env dir day count).
Proof. unfold create_commits_for_day. keeps_tac. apply keeps_run_git. Qed.

Lemma keeps_push_to_remote dir : keeps P gone (push_to_remote env dir).
Proof. unfold push_to_remote. keeps_tac; apply keeps_run_git. Qed.

Lemma keeps_confirm cfg : keeps P gone (confirm env cfg).
Proof. unfold confirm. keeps_tac. Qed.

Lemma keeps_create_commits dir needed :
  keeps P gone (create_commits env dir needed).
Proof.
  unfold create_commits. keeps_tac. apply keeps_create_commits_for_day.
Qed.

Lemma keeps_reconcile cfg target dir :
  keeps P gone (reconcile env cfg target dir).
Proof.
  unfold reconcile. apply keeps_bind; [apply keeps_load_existing_commits|].
  intros existing. destruct (decide _); keeps_tac.
  - apply keeps_confirm.
  - apply keeps_create_commits.
  - apply keeps_push_to_remote.
Qed.

Lemma keeps_has_history has user repo token :
  keeps P gone (por has (_repo_has_remote_commits env user repo token)).
Proof.
  unfold por, _repo_has_remote_commits, raise_for_status. keeps_tac.
Qed.

Lemma keeps_clone_or_init url has user repo token dir :
  keeps P gone (clone_or_init env url has user repo token dir).
Proof.
  unfold clone_or_init.
  apply keeps_bind; [apply keeps_has_history|]. intros flag.
  apply keeps_bind.
  - destruct flag; keeps_tac; apply keeps_run_git.
  - intros _. keeps_tac. apply keeps_configure_git.
Qed.

Lemma keeps_prepare_local_repo local url has user repo token :
  keeps P gone (prepare_local_repo env local url has user repo token).
Proof.
  unfold prepare_local_repo. destruct local as [d|].
  - apply keeps_bind; [by apply keeps_emit|]. intros _.
    apply keeps_bind; [by apply keeps_subprocess_run|].
    intros [o|]; [|apply keeps_clone_or_init].
    apply keeps_bind.
    + apply keeps_bind; [apply keeps_has_history|].
      intros [|]; keeps_tac. apply keeps_run_git.
    + intros _. keeps_tac. apply keeps_configure_git.
  - apply keeps_bind; [by apply keeps_emit|]. intros _.
    apply keeps_clone_or_init.
Qed.

Lemma keeps_ensure_repo_exists user token repo :
  keeps P gone (ensure_repo_exists env user token repo).
Proof. unfold ensure_repo_exists, raise_for_status. keeps_tac. Qed.

End MainKeeps.

Lemma fetch_stage_fields env args_start config w config' contributions w' :
  fetch_stage env args_start config w = (Return (config', contributions), w') →
  local_dir config' = local_dir config ∧ keep_repo config' = keep_repo config.
Proof.
  unfold fetch_stage. intros H.
  apply bind_Return_inv in H as (cfg & w1 & Hb & H).
  apply bind_Return_inv in H as (u & w2 & _ & H).
  apply bind_Return_inv in H as (m & w3 & _ & H).
  inversion H; subst. clear H.
  unfold backfill_override in Hb. destruct (_ && _).
  - apply bind_Return_inv in Hb as (u1 & w4 & _ & Hb).
    apply bind_Return_inv in Hb as (d & w5 & _ & Hb).
    apply bind_Return_inv in Hb as (u2 & w6 & _ & Hb).
    inversion Hb; subst. done.
  - inversion Hb; subst. done.
Qed.

Lemma keeps_main_finally env config repo_dir temp_dir :
  (∀ t, temp_dir = Some t → local_dir config = None ∧ t = mkdtemp_path env) →
  keeps (removal_allowed env config) (transient env config)
        (main_finally config repo_dir temp_dir).
Proof.
  intros Htemp. unfold main_finally.
  assert (Hkept : keeps (removal_allowed env config) (transient env config)
            match repo_dir with
            | Some d =>
                if bool_decide (local_dir config = None) && keep_repo config
                then print ("Kept repo at: " +:+ d) else ret tt
            | None => ret tt
            end).
  { destruct repo_dir; [destruct (_ && _)|]; try apply keeps_ret.
    by apply keeps_emit. }
  destruct temp_dir as [t|]; [|done].
  destruct (keep_repo config) eqn:Hkeep; simpl; [done|].
  destruct (Htemp t eq_refl) as [Hlocal ->].
  intros w r w' H. inversion H; subst. simpl. split.
  - unfold transient. rewrite Hlocal, Hkeep. simpl.
    rewrite dom_delete_L. done.
  - eexists [_]. split; [done|]. simpl.
    rewrite Hlocal, Hkeep. simpl. by rewrite bool_decide_eq_true_2.
Qed.

Lemma keeps_mirror env config target url has :
  keeps (removal_allowed env config) (transient env config)
        (mirror env config target url has).
Proof.
  intros w r w' H. unfold mirror in H.
  destruct (prepare_local_repo env (local_dir config) url has
              (personal_username config) (target_repo config)
              (personal_token config) w) as [rp w1] eqn:Hprep.
  pose proof (keeps_prepare_local_repo env config (local_dir config) url has
                (personal_username config) (target_repo config)
                (personal_token config)) as Hkp.
  assert (Hrest : dom (repos w1) ∖ transient env config ⊆ dom (repos w')
                  ∧ ∃ evs, trace w' = trace w1 ++ evs
                           ∧ forallb (removal_allowed env config) evs = true).
  { destruct rp as [dir|c|e].
    - revert H. apply keeps_try_finally.
      + apply keeps_except_KeyboardInterrupt; [apply keeps_reconcile|].
        by apply keeps_emit.
      + apply keeps_main_finally. intros t Ht.
        apply prepare_local_repo_Return_inv in Hprep as (Hdir & _).
        destruct (local_dir config); [done|].
        inversion Ht; subst. done.
    - revert H. apply keeps_try_finally; [apply keeps_sys_exit|].
      by apply keeps_main_finally.
    - revert H. apply keeps_try_finally.
      + apply keeps_except_KeyboardInterrupt; [apply keeps_raise|].
        by apply keeps_emit.
      + by apply keeps_main_finally. }
  destruct Hrest as [Hdom Hevs].
  exact (keeps_step _ _ _ w _ w1 w' Hkp Hprep Hdom Hevs).
Qed.

Lemma keeps_main env args_start config :
  keeps (removal_allowed env config) (transient env config)
        (main env args_start config).
Proof.
  intros w r w' H.
  destruct (fetch_stage env args_start config w) as [rf w1] eqn:Hfetch.
  assert (Hkf : keeps (removal_allowed env config) (transient env config)
                  (fetch_stage env args_start config)).
  { eapply appends_only_keeps; [|apply appends_only_fetch_stage].
    by intros []. }
  destruct rf as [[config' contributions]|c|e].
  2: { unfold main, bind in H. rewrite Hfetch in H. inversion H; subst.
       by apply (Hkf _ _ _ Hfetch). }
  2: { unfold main, bind in H. rewrite Hfetch in H. inversion H; subst.
       by apply (Hkf _ _ _ Hfetch). }
  rewrite (main_after_fetch _ _ _ _ _ _ _ Hfetch) in H.
  destruct (fetch_stage_fields _ _ _ _ _ _ _ Hfetch) as [Hlocal Hkeep].
  assert (Hsame : removal_allowed env config' = removal_allowed env config
                  ∧ transient env config' = transient env config).
  { unfold removal_allowed, transient. by rewrite Hlocal, Hkeep. }
  destruct Hsame as [HP Hgone].
  assert (Hrest : dom (repos w1) ∖ transient env config ⊆ dom (repos w')
                  ∧ ∃ evs, trace w' = trace w1 ++ evs
                           ∧ forallb (removal_allowed env config) evs = true).
  { revert H. generalize w1 r w'.
    change (keeps (removal_allowed env config) (transient env config)
              (if decide (contributions = ∅) then
                 print "No contributions found in the specified date range."
               else
                 print (found_message contributions) >>
                 if dry_run config' then
                   dry_run_report contributions (sum_values contributions)
                 else
                   print (checking_message config') >>
                   let* remote :=
                     ensure_repo_exists env (personal_username config')
                       (personal_token config') (target_repo config') in
                   mirror env config' contributions remote.1 remote.2)).
    destruct (decide (contributions = ∅)).
    - by apply keeps_emit.
    - apply keeps_bind; [by apply keeps_emit|]. intros _.
      destruct (dry_run config').
      + eapply appends_only_keeps; [|apply appends_only_dry_run_report].
        by intros [].
      + apply keeps_bind; [by apply keeps_emit|]. intros _.
        apply keeps_bind.
        * rewrite <- HP, <- Hgone. apply keeps_ensure_repo_exists.
        * intros remote. rewrite <- HP, <- Hgone. apply keeps_mirror. }
  destruct Hrest as [Hdom Hevs].
  exact (keeps_step _ _ _ w _ w1 w' Hkf Hfetch Hdom Hevs).
Qed.

(** What a run may remove.  Whatever happens, [main] removes no work tree
    except the directory [mkdtemp] gave it, and that one only when no
    persistent directory is configured and retention was not asked for.
    With a persistent directory, or with retention, it removes nothing. *)
Theorem main_removes_only_transient env args_start config w :
  let run := main env args_start config w in
  ∃ evs,
    trace run.2 = trace w ++ evs
    ∧ forallb (removal_allowed env config) evs = true
    ∧ dom (repos w) ∖ transient env config ⊆ dom (repos run.2)
    ∧ (is_Some (local_dir config) ∨ keep_repo config = true →
       dom (repos w) ⊆ dom (repos run.2) ∧ ∀ path, Rmtree path ∉ evs).
Proof.
  simpl.
  destruct (main env args_start config w) as [r w'] eqn:Hrun.
  destruct (keeps_main env args_start config w r w' Hrun)
    as (Hdom & evs & Htr & Hevs).
  exists evs. split; [done|]. split; [done|]. split; [done|].
  intros Hkeep.
  assert (Hno : bool_decide (local_dir config = None) && negb (keep_repo config)
                = false).
  { destruct Hkeep as [[d Hd]| ->]; [by rewrite Hd|].
    by rewrite andb_false_r. }
  split.
  - unfold transient in Hdom. rewrite Hno in Hdom.
    intros x Hx. apply Hdom, elem_of_difference. split; [done|].
    apply not_elem_of_empty.
  - intros path Hin. rewrite forallb_forall in Hevs.
    apply list_elem_of_In, Hevs in Hin. simpl in Hin.
    rewrite Hno in Hin. done.
Qed.

Example transient_copy_removed :
  let config := Demo.dry_config in
  ∀ cfg, cfg = {| personal_token := "token"; work_username := "work";
                  personal_username := "me"; target_repo := "mirror";
                  start_date := PyDate.mk 2024 1 1;
                  end_date := PyDate.mk 2024 1 2;
                  local_dir := None; dry_run := false; yes := true;
                  keep_repo := false; backfill := false |} →
  let run := main Demo.env None cfg Demo.world in
  run.1 = Return tt
  ∧ last (trace run.2) = Some (Rmtree "/tmp/copiar-demo")
  ∧ repos run.2 = ∅.
Proof. intros config cfg ->. by vm_compute. Qed.

(** ** Failures before the working copy is bound *)

(** [repo_dir] and [temp_dir] are assigned only after
    [prepare_local_repo] has returned.  When it exits or raises, the
    [finally] block finds both unset: nothing more is run or printed, no
    directory is removed (a directory [mkdtemp] had created stays), and
    the exit or the exception is passed on. *)
Theorem mirror_prepare_failure env config target url has w r w1 :
  prepare_local_repo env (local_dir config) url has (personal_username config)
    (target_repo config) (personal_token config) w = (r, w1) →
  (∀ dir, r ≠ Return dir) →
  r ≠ Raise KeyboardInterrupt →
  (mirror env config target url has w).2 = w1
  ∧ match r with
    | Return _ => False
    | SysExit c => (mirror env config target url has w).1 = SysExit c
    | Raise e => (mirror env config target url has w).1 = Raise e
    end.
Proof.
  intros Hprep Hret Hint. unfold mirror. rewrite Hprep.
  destruct r as [dir|c|e].
  - by destruct (Hret dir).
  - unfold try_finally, sys_exit, main_finally, ret. done.
  - unfold try_finally, except_KeyboardInterrupt, raise, main_finally, ret.
    destruct e; done.
Qed.

Lemma mirror_prepare_failure_witness :
  let failed :=
    logs [Mkdtemp "/tmp/copiar-demo";
          Subprocess None (GitClone "https://example.invalid/me/mirror.git"
                                    "/tmp/copiar-demo")] Demo.world in
  (mirror Demo.env Demo.dry_config Demo.target
     "https://example.invalid/me/mirror.git" true Demo.world).2 = failed
  ∧ (mirror Demo.env Demo.dry_config Demo.target
       "https://example.invalid/me/mirror.git" true Demo.world).1
    = Raise CalledProcessError.
Proof.
  apply (mirror_prepare_failure Demo.env Demo.dry_config Demo.target
           "https://example.invalid/me/mirror.git" true Demo.world
           (Raise CalledProcessError)).
  - vm_compute. reflexivity.
  - intros dir. discriminate.
  - discriminate.
Defined.

(** ** The backfill override *)

(** An explicit, non-empty [--start] wins over [--backfill]: the
    configuration is used as loaded and nothing is asked of the service.
    Otherwise [--backfill] (also with an empty [--start]) asks for the
    creation date of the work account once, and the day in the first ten
    characters of the answer becomes the start date; every other field is
    as loaded. *)
Theorem backfill_override_start env args_start config w :
  let run := backfill_override env args_start config w in
  (backfill config = false ∨ PyStr.truthy (default "" args_start) = true →
   run = (Return config, w))
  ∧ (backfill config = true →
     args_start = None ∨ args_start = Some ""%string →
     ∀ created_at d,
       reply_ok (graphql_created_at env (work_username config))
       = Some created_at →
       fromisoformat (String.substring 0 10 created_at) = Some d →
       run
       = (Return (with_start_date config d),
          logs [Stdout ("Fetching account creation date for '"
                        +:+ work_username config +:+ "'...");
                HttpGraphqlCreatedAt (work_username config);
                Stdout ("Backfill start: " +:+ PyDate.isoformat d)] w)).
Proof.
  simpl. split.
  - intros H. unfold backfill_override.
    destruct H as [-> | ->]; [done|]. by rewrite andb_false_r.
  - intros Hb Hstart created_at d Hreply Hiso.
    assert (Hfalsy : PyStr.truthy (default "" args_start) = false)
      by (by destruct Hstart as [-> | ->]).
    unfold backfill_override. rewrite Hb, Hfalsy. simpl.
    unfold bind at 1. unfold print at 1. rewrite emit_log.
    unfold bind at 1. unfold fetch_user_created_at. unfold bind at 1.
    rewrite (graphql_ok _ _ created_at _ Hreply). rewrite Hiso.
    unfold ret at 1. unfold bind at 1. unfold print at 1. rewrite emit_log.
    unfold ret, logs, log. simpl. by rewrite <- !app_assoc.
Qed.

Example backfill_override_demo :
  let run := backfill_override Demo.env (Some ""%string) Demo.dry_config
               Demo.world in
  start_date <$> (match run.1 with Return c => Some c | _ => None end)
  = Some (PyDate.mk 2020 5 6).
Proof. vm_compute. reflexivity. Qed.

(** ** An inverted range *)

Lemma fetch_contributions_nothing env login token start end_ w :
  end_ < start →
  fetch_contributions env login token start end_ w = (Return ∅, w).
Proof.
  intros Hlt. unfold fetch_contributions.
  destruct (Z.to_nat (end_ - start + 1)); simpl;
    rewrite bool_decide_eq_false_2 by lia; done.
Qed.

(** A start date after the end date is not an error: without a backfill
    the run sends no request at all, announces the fetch, reports that
    there are no contributions and returns, whatever the flags. *)
Theorem main_inverted_range env args_start config w :
  backfill config = false →
  end_date config < start_date config →
  main env args_start config w
  = (Return tt,
     logs [Stdout ("Fetching contributions for '" +:+ work_username config
                   +:+ "' from " +:+ PyDate.isoformat (start_date config)
                   +:+ " to " +:+ PyDate.isoformat (end_date config)
                   +:+ "...");
           Stdout "No contributions found in the specified date range."] w).
Proof.
  intros Hb Hlt.
  assert (Hfetch : fetch_stage env args_start config w
            = (Return (config, ∅),
               log (Stdout ("Fetching contributions for '"
                            +:+ work_username config +:+ "' from "
                            +:+ PyDate.isoformat (start_date config) +:+ " to "
                            +:+ PyDate.isoformat (end_date config) +:+ "..."))
                   w)).
  { unfold fetch_stage, backfill_override. rewrite Hb. simpl.
    unfold bind at 1. unfold ret at 1. unfold bind at 1.
    unfold print at 1. rewrite emit_log. unfold bind at 1.
    by rewrite (fetch_contributions_nothing _ _ _ _ _ _ Hlt). }
  rewrite (main_after_fetch _ _ _ _ _ _ _ Hfetch).
  rewrite decide_True by done. unfold print. rewrite emit_log.
  unfold logs, log. simpl. by rewrite <- app_assoc.
Qed.

Lemma main_inverted_range_witness :
  main Demo.env None
    (with_start_date Demo.config (PyDate.mk 2024 2 5)) Demo.world
  = (Return tt,
     logs [Stdout "Fetching contributions for 'work' from 2024-02-05 to 2024-02-04...";
           Stdout "No contributions found in the specified date range."]
       Demo.world).
Proof.
  apply (main_inverted_range Demo.env None
           (with_start_date Demo.config (PyDate.mk 2024 2 5)) Demo.world).
  - reflexivity.
  - vm_compute. reflexivity.
Defined.

(** ** Loading the configuration *)

(** The namespace [parse_args] returns. *)
Module Args.
Record t := {
  backfill : bool;
  start : option string;
  end_ : option string;
  dry_run : bool;
  yes : bool;
  keep_repo : bool;
  local_dir : option string;
  env : option string
}.
End Args.

(** [x or None] on an optional string: a missing and an empty string are
    both false. *)
Definition nonempty (s : option string) : option string :=
  match s with
  | Some v => if PyStr.truthy v then Some v else None
  | None => None
  end.

Definition required_message (key : string) : string :=
  "Error: " +:+ key +:+ " is required (set in env or .env file).".

Section LoadConfig.

(** [os.environ] once [load_dotenv] has run, the day
    [datetime.now(tz=UTC).date()] returns, and [date.fromisoformat]
    ([None] stands for its [ValueError]). *)
Context (environ : gmap string string) (today : Z)
        (date_fromisoformat : string → option Z).

Definition require_env (key : string) : Run string :=
  let val := PyStr.strip (default "" (environ !! key)) in
  if PyStr.truthy val then ret val
  else eprint (required_message key) >> sys_exit 1.

Definition parse_day (s : string) : Run Z :=
  match date_fromisoformat s with
  | Some d => ret d
  | None => raise ValueError
  end.

Definition load_config (args : Args.t) : Run Config :=
  let* personal_token := require_env "PERSONAL_GITHUB_TOKEN" in
  let* work_username := require_env "WORK_GITHUB_USERNAME" in
  let* personal_username := require_env "PERSONAL_GITHUB_USERNAME" in
  let* target_repo := require_env "TARGET_REPO_NAME" in
  let* start_date :=
    match nonempty (Args.start args) with
    | Some s => parse_day s
    | None =>
        match nonempty (environ !! "START_DATE") with
        | Some s => parse_day s
        | None => date_add today (-1)
        end
    end in
  let* end_date :=
    match nonempty (Args.end_ args) with
    | Some s => parse_day s
    | None =>
        match nonempty (environ !! "END_DATE") with
        | Some s => parse_day s
        | None => ret today
        end
    end in
  let local_dir :=
    match nonempty (Args.local_dir args) with
    | Some d => Some d
    | None => nonempty (environ !! "LOCAL_REPO_DIR")
    end in
  ret {| personal_token := personal_token;
         work_username := work_username;
         personal_username := personal_username;
         target_repo := target_repo;
         start_date := start_date;
         end_date := end_date;
         local_dir := local_dir;
         dry_run := Args.dry_run args;
         yes := Args.yes args;
         keep_repo := Args.keep_repo args;
         backfill := Args.backfill args |}.

End LoadConfig.

(** The four required settings, in the order they are read. *)
Definition required_keys : list string :=
  ["PERSONAL_GITHUB_TOKEN"; "WORK_GITHUB_USERNAME";
   "PERSONAL_GITHUB_USERNAME"; "TARGET_REPO_NAME"]%string.

(** A setting that is present: set, and not blank. *)
Definition present (environ : gmap string string) (key : string) : bool :=
  PyStr.truthy (PyStr.strip (default "" (environ !! key))).

Lemma require_env_present environ key w :
  present environ key = true →
  require_env environ key w
  = (Return (PyStr.strip (default "" (environ !! key))), w).
Proof. unfold require_env, present. by intros ->. Qed.

Lemma require_env_missing environ key w :
  present environ key = false →
  require_env environ key w
  = (SysExit 1, log (Stderr (required_message key)) w).
Proof. unfold require_env, present. by intros ->. Qed.

(** The first required setting that is unset or blank, in the order
    token, work user, personal user, repository, ends the run with exit
    code 1 after one line on stderr that names it; the settings after it,
    the dates and the arguments are not looked at. *)
Theorem load_config_missing environ today parse args w before key after :
  required_keys = before ++ key :: after →
  forallb (present environ) before = true →
  present environ key = false →
  load_config environ today parse args w
  = (SysExit 1, log (Stderr (required_message key)) w).
Proof.
  intros Hkeys Hbefore Hkey. unfold load_config, required_keys in *.
  destruct before as [|k1 [|k2 [|k3 [|k4 rest]]]]; simplify_eq/=.
  - apply bind_exit. by apply require_env_missing.
  - apply andb_prop in Hbefore as [H1 _].
    rewrite (bind_return _ _ _ _ _ (require_env_present _ _ w H1)).
    apply bind_exit. by apply require_env_missing.
  - apply andb_prop in Hbefore as [H1 Hbefore].
    apply andb_prop in Hbefore as [H2 _].
    rewrite (bind_return _ _ _ _ _ (require_env_present _ _ w H1)).
    rewrite (bind_return _ _ _ _ _ (require_env_present _ _ w H2)).
    apply bind_exit. by apply require_env_missing.
  - apply andb_prop in Hbefore as [H1 Hbefore].
    apply andb_prop in Hbefore as [H2 Hbefore].
    apply andb_prop in Hbefore as [H3 _].
    rewrite (bind_return _ _ _ _ _ (require_env_present _ _ w H1)).
    rewrite (bind_return _ _ _ _ _ (require_env_present _ _ w H2)).
    rewrite (bind_return _ _ _ _ _ (require_env_present _ _ w H3)).
    apply bind_exit. by apply require_env_missing.
  - destruct rest; simplify_eq/=.
Qed.

Module Demo3.

(** A settings file that leaves the personal user name blank. *)
Definition environ : gmap string string :=
  {[ "PERSONAL_GITHUB_TOKEN"%string := " token "%string;
     "WORK_GITHUB_USERNAME"%string := "work"%string;
     "PERSONAL_GITHUB_USERNAME"%string := "   "%string;
     "TARGET_REPO_NAME"%string := "mirror"%string ]}.

(** The same with the name filled in and an empty [START_DATE]. *)
Definition complete : gmap string string :=
  <["PERSONAL_GITHUB_USERNAME"%string := "me"%string]>
    (<["START_DATE"%string := ""%string]> environ).

Definition args : Args.t := {|
  Args.backfill := false; Args.start := None; Args.end_ := None;
  Args.dry_run := true; Args.yes := false; Args.keep_repo := false;
  Args.local_dir := Some "/home/me/mirror"%string; Args.env := None
|}.

End Demo3.

Lemma load_config_missing_witness :
  load_config Demo3.environ (PyDate.mk 2024 2 4) fromisoformat Demo3.args
    Demo.world
  = (SysExit 1,
     log (Stderr (required_message "PERSONAL_GITHUB_USERNAME")) Demo.world).
Proof.
  apply (load_config_missing Demo3.environ (PyDate.mk 2024 2 4) fromisoformat
           Demo3.args Demo.world
           ["PERSONAL_GITHUB_TOKEN"; "WORK_GITHUB_USERNAME"]%string
           "PERSONAL_GITHUB_USERNAME"
           ["TARGET_REPO_NAME"]%string).
  - reflexivity.
  - vm_compute. reflexivity.
  - vm_compute. reflexivity.
Defined.

(** A setting that holds nothing but whitespace is missing, also when the
    whitespace is a no-break space (U+00A0). *)
Example load_config_blank_token :
  load_config
    (<["PERSONAL_GITHUB_TOKEN"%string := String "194" (String "160" "")]>
       Demo3.complete)
    (PyDate.mk 2024 2 4) fromisoformat Demo3.args Demo.world
  = (SysExit 1,
     log (Stderr (required_message "PERSONAL_GITHUB_TOKEN")) Demo.world).
Proof. vm_compute. reflexivity. Qed.

(** The command line wins over the environment: with a non-empty
    [--start], [--end] or [--local-dir] the variable of the same purpose
    ([START_DATE], [END_DATE], [LOCAL_REPO_DIR]) has no influence on the
    outcome, whatever it is set to. *)
Theorem load_config_cli_precedence environ today parse args w v :
  (is_Some (nonempty (Args.start args)) →
   load_config (<["START_DATE"%string := v]> environ) today parse args w
   = load_config environ today parse args w)
  ∧ (is_Some (nonempty (Args.end_ args)) →
     load_config (<["END_DATE"%string := v]> environ) today parse args w
     = load_config environ today parse args w)
  ∧ (is_Some (nonempty (Args.local_dir args)) →
     load_config (<["LOCAL_REPO_DIR"%string := v]> environ) today parse args w
     = load_config environ today parse args w).
Proof.
  split; [|split]; intros [s Hs]; unfold load_config, require_env;
    rewrite Hs; by rewrite !lookup_insert_ne by done.
Qed.



(** The stored token is the stripped setting, a trailing no-break space
    included in what is stripped. *)
Example load_config_strips_unicode :
  personal_token
  <$> (match (load_config
                (<["PERSONAL_GITHUB_TOKEN"%string :=
                     "token" +:+ String "194" (String "160" "")]>
                   Demo3.complete)
                (PyDate.mk 2024 2 4) fromisoformat Demo3.args Demo.world).1 with
       | Return c => Some c
       | _ => None
       end)
  = Some "token"%string.
Proof. vm_compute. reflexivity. Qed.

Example load_config_strips :
  personal_token
  <$> (match (load_config Demo3.complete (PyDate.mk 2024 2 4) fromisoformat
                Demo3.args Demo.world).1 with
       | Return c => Some c
       | _ => None
       end)
  = Some "token"%string.
Proof. vm_compute. reflexivity. Qed.
